(** * ES6 feature showcase: a shallow embedding of the dashboard and its demos

    The development follows the JavaScript sources class by class.  Dynamic
    data (object literals, arrays, values that flow through destructuring or
    [JSON.stringify]) lives in one type [value]; code that can raise returns in
    the monad [result]; a method of a class is a computation over the fields of
    its instance; a [Map] is a [gmap]; an object literal is a property list in
    insertion order. *)

From Stdlib Require Import ZArith QArith Qround String Ascii List Sorted Lia Floats.
From stdpp Require Import base option list gmap strings pretty.

Open Scope Z_scope.
Set Warnings "-register-all,-inexact-float,-abstract-large-number".

(** * Characters that cannot be typed inside a literal *)

Definition nl : string := String "010"%char EmptyString.
Definition dq : string := String "034"%char EmptyString.
Definition bs : string := String "092"%char EmptyString.

(** * Values *)

Inductive value : Type :=
| VUndefined
| VNull
| VBool (b : bool)
| VNum (n : Z)
| VNaN
| VStr (s : string)
| VArr (items : list value)
| VObj (props : list (string * value))
| VPromise.

(** What [throw] carries: an [Error] object, with its [name] and [message]. *)
Record exn : Type := Exn { exn_name : string; message : string }.

Definition TypeError (msg : string) : exn := Exn "TypeError" msg.
Definition Error (msg : string) : exn := Exn "Error" msg.

(** * Computations that return or throw *)

Inductive result (A : Type) : Type :=
| Ok (a : A)
| Throw (e : exn).
Arguments Ok {A} a.
Arguments Throw {A} e.

#[global] Instance result_ret : MRet result := @Ok.
#[global] Instance result_bind : MBind result := λ A B f m,
  match m with
  | Ok a => f a
  | Throw e => Throw e
  end.

(** A method: it runs on the fields [S] of its instance, returns or throws,
    and leaves the fields as it made them.  An [async] method is read the same
    way, [Ok] for a promise that resolves and [Throw] for one that rejects. *)
Definition method (S A : Type) : Type := S → result A * S.

#[global] Instance method_ret {S} : MRet (method S) := λ A a s, (Ok a, s).
#[global] Instance method_bind {S} : MBind (method S) := λ A B f m s,
  match m s with
  | (Ok a, s') => f a s'
  | (Throw e, s') => (Throw e, s')
  end.

(** [this.field] *)
Definition read {S B} (f : S → B) : method S B := λ s, (Ok (f s), s).
(** Code that works on locals only. *)
Definition lift {S A} (r : result A) : method S A := λ s, (r, s).

(** * Strings *)

(** [Array.prototype.join] on strings. *)
Fixpoint join (sep : string) (l : list string) : string :=
  match l with
  | [] => ""
  | [x] => x
  | x :: r => x +:+ sep +:+ join sep r
  end.

(** [String.prototype.split] on a one-character separator. *)
Fixpoint split_on (sep : ascii) (s : string) : list string :=
  match s with
  | EmptyString => [""]
  | String c r =>
      if Ascii.eqb c sep then "" :: split_on sep r
      else match split_on sep r with
           | [] => [String c ""]
           | w :: ws => String c w :: ws
           end
  end.

Definition bool_to_string (b : bool) : string := if b then "true" else "false".

(** White space, as [String.prototype.trim] takes it off (on ASCII text). *)
Definition is_space (c : ascii) : bool :=
  let n := N_of_ascii c in
  ((n =? 32) || ((9 <=? n) && (n <=? 13)))%N.

Fixpoint trim_start (l : list ascii) : list ascii :=
  match l with
  | c :: r => if is_space c then trim_start r else l
  | [] => []
  end.

Definition trim (s : string) : string :=
  string_of_list_ascii
    (rev (trim_start (rev (trim_start (list_ascii_of_string s))))).

(** [s.padEnd(n)]: blanks up to the length [n], which counts the characters
    of ASCII text. *)
Definition padEnd (n : nat) (s : string) : string :=
  s +:+ string_of_list_ascii (replicate (n - String.length s) " "%char).

(** [s.toUpperCase()] on ASCII text. *)
Definition toUpperCase (s : string) : string :=
  string_of_list_ascii
    (map (λ c, let n := N_of_ascii c in
               if ((97 <=? n) && (n <=? 122))%N then ascii_of_N (n - 32) else c)
       (list_ascii_of_string s)).

(** [s.replace(/c/g, by)] for a one-character pattern. *)
Fixpoint replace_all (c : ascii) (by_ : string) (s : string) : string :=
  match s with
  | EmptyString => ""
  | String x r =>
      (if Ascii.eqb x c then by_ else String x "") +:+ replace_all c by_ r
  end.

(** ToString.  A number is an integer here and prints in decimal; an array
    joins its elements with a comma, [undefined] and [null] elements printing
    as nothing; any other object prints by [Object.prototype.toString]. *)
Fixpoint to_string (v : value) : string :=
  match v with
  | VUndefined => "undefined"
  | VNull => "null"
  | VBool b => bool_to_string b
  | VNum n => pretty n
  | VNaN => "NaN"
  | VStr s => s
  | VArr items =>
      join "," (map (λ x, match x with
                          | VUndefined | VNull => ""
                          | _ => to_string x
                          end) items)
  | VObj _ => "[object Object]"
  | VPromise => "[object Promise]"
  end.

(** [items.join(sep)] on an array of values. *)
Definition array_join (sep : string) (items : list value) : string :=
  join sep (map (λ x, match x with
                      | VUndefined | VNull => ""
                      | _ => to_string x
                      end) items).

(** * Property access *)

Fixpoint lookup_prop (key : string) (props : list (string * value)) : option value :=
  match props with
  | [] => None
  | (k, v) :: rest => if String.eqb k key then Some v else lookup_prop key rest
  end.

(** [obj[key] = v] on the properties of an object: an own property keeps its
    place, a new one goes last. *)
Fixpoint set_prop (key : string) (v : value) (props : list (string * value))
  : list (string * value) :=
  match props with
  | [] => [(key, v)]
  | (k, x) :: rest =>
      if String.eqb k key then (k, v) :: rest else (k, x) :: set_prop key v rest
  end.

(** [{...target, ...source}] on the properties. *)
Definition spread (target source : list (string * value)) : list (string * value) :=
  fold_left (λ acc kv, set_prop kv.1 kv.2 acc) source target.

(** The index a property key denotes in an array of [n] elements, if any. *)
Fixpoint index_of_key (key : string) (n : nat) : option nat :=
  match n with
  | O => None
  | S m => if String.eqb (pretty m) key then Some m else index_of_key key m
  end.

Definition nth_or_undefined (items : list value) (i : nat) : value :=
  default VUndefined (items !! i).

(** [v[key]] where [v] is neither [undefined] nor [null]: the own properties
    of an object, the elements and the length of an array, the length of a
    string (of ASCII characters).  What a value inherits from its prototype,
    and the characters of a string, are not in the model: [own_reads] below
    tells the reads that stay clear of them. *)
Definition get_own (v : value) (key : string) : value :=
  match v with
  | VObj props => default VUndefined (lookup_prop key props)
  | VArr items =>
      if String.eqb key "length" then VNum (Z.of_nat (length items))
      else match index_of_key key (length items) with
           | Some i => nth_or_undefined items i
           | None => VUndefined
           end
  | VStr s =>
      if String.eqb key "length" then VNum (Z.of_nat (String.length s))
      else VUndefined
  | _ => VUndefined
  end.

(** [v.key] and [v[key]]: reading a property of [undefined] or [null] throws
    (the message is the one V8 gives). *)
Definition get (v : value) (key : string) : result value :=
  match v with
  | VUndefined | VNull =>
      Throw (TypeError ("Cannot read properties of " +:+ to_string v +:+
                        " (reading '" +:+ key +:+ "')"))
  | _ => Ok (get_own v key)
  end.

(** [v?.[key]] *)
Definition get_opt (v : value) (key : string) : value :=
  match v with
  | VUndefined | VNull => VUndefined
  | _ => get_own v key
  end.

(** The own enumerable properties of a value, as object spread and rest see
    them. *)
Definition own_props (v : value) : list (string * value) :=
  match v with
  | VObj props => props
  | VArr items => imap (λ i x, (pretty i, x)) items
  | _ => []
  end.

(** * Destructuring *)

(** [= d] in a pattern: the default is taken only for [undefined]. *)
Definition with_default (v d : value) : value :=
  match v with
  | VUndefined => d
  | _ => v
  end.

(** An array pattern iterates its right-hand side. *)
Definition iterate (v : value) : result (list value) :=
  match v with
  | VArr items => Ok items
  | VStr s => Ok (map (λ c, VStr (String c EmptyString)) (list_ascii_of_string s))
  | _ => Throw (TypeError (to_string v +:+ " is not iterable"))
  end.

(** [...rest] in an object pattern: the own properties not named before it. *)
Definition rest_props (v : value) (named : list string) : result (list (string * value)) :=
  match v with
  | VUndefined | VNull =>
      Throw (TypeError ("Cannot destructure '" +:+ to_string v +:+ "' as it is " +:+
                        to_string v +:+ "."))
  | _ => Ok (filter (λ kv, ¬ (kv.1 ∈ named)) (own_props v))
  end.

(** * JSON.stringify *)

Definition hex_digit (n : N) : ascii :=
  match n with
  | 0 => "0" | 1 => "1" | 2 => "2" | 3 => "3" | 4 => "4" | 5 => "5"
  | 6 => "6" | 7 => "7" | 8 => "8" | 9 => "9" | 10 => "a" | 11 => "b"
  | 12 => "c" | 13 => "d" | 14 => "e" | _ => "f"
  end%N%char.

Definition escape_char (c : ascii) : string :=
  let n := N_of_ascii c in
  if (n =? 34)%N then bs +:+ dq
  else if (n =? 92)%N then bs +:+ bs
  else if (n =? 8)%N then bs +:+ "b"
  else if (n =? 12)%N then bs +:+ "f"
  else if (n =? 10)%N then bs +:+ "n"
  else if (n =? 13)%N then bs +:+ "r"
  else if (n =? 9)%N then bs +:+ "t"
  else if (n <? 32)%N then
    bs +:+ "u00" +:+ String (hex_digit (n / 16)) (String (hex_digit (n mod 16)) "")
  else String c "".

Fixpoint escape (s : string) : string :=
  match s with
  | EmptyString => ""
  | String c r => escape_char c +:+ escape r
  end.

Definition quote (s : string) : string := dq +:+ escape s +:+ dq.

(** [JSON.stringify(v, null, gap)] at the indentation [indent]; [None] is the
    [undefined] it gives for [undefined].  A property whose value is
    [undefined] is left out, such an array element is [null]. *)
Fixpoint stringify (gap indent : string) (v : value) : option string :=
  let inner := indent +:+ gap in
  let wrap (l r : string) (parts : list string) : string :=
    match parts with
    | [] => l +:+ r
    | _ =>
        if String.eqb gap "" then l +:+ join "," parts +:+ r
        else l +:+ nl +:+ inner +:+ join ("," +:+ nl +:+ inner) parts +:+
             nl +:+ indent +:+ r
    end in
  match v with
  | VUndefined => None
  | VNull => Some "null"
  | VBool b => Some (bool_to_string b)
  | VNum n => Some (pretty n)
  | VNaN => Some "null"
  | VStr s => Some (quote s)
  | VArr items =>
      Some (wrap "[" "]" (map (λ x, default "null" (stringify gap inner x)) items))
  | VObj props =>
      Some (wrap "{" "}"
        (omap (λ kv, match kv with
                     | (k, x) =>
                         (λ s, quote k +:+ (if String.eqb gap "" then ":" else ": ") +:+ s)
                           <$> stringify gap inner x
                     end) props))
  | VPromise => Some "{}"
  end.

(** [`${JSON.stringify(v, null, 2)}`] *)
Definition JSON_stringify_2 (v : value) : string :=
  default "undefined" (stringify "  " "" v).

(** [JSON.stringify(v)] *)
Definition JSON_stringify (v : value) : string :=
  default "undefined" (stringify "" "" v).

(** * Truthiness and equality *)

Definition truthy (v : value) : bool :=
  match v with
  | VUndefined | VNull => false
  | VBool b => b
  | VNum n => negb (n =? 0)
  | VNaN => false
  | VStr s => negb (String.eqb s "")
  | _ => true
  end.

(** [a && b] and [a || b] *)
Definition js_and (a b : value) : value := if truthy a then b else a.
Definition js_or (a b : value) : value := if truthy a then a else b.

(** [a === b] on primitives.  Objects compare by identity, which a [value]
    does not carry: no code here compares two objects. *)
Definition strict_eq (a b : value) : bool :=
  match a, b with
  | VUndefined, VUndefined | VNull, VNull => true
  | VBool x, VBool y => bool_decide (x = y)
  | VNum x, VNum y => x =? y
  | VStr x, VStr y => String.eqb x y
  | _, _ => false
  end.

(** * Numbers that are not integers

    An integer is a [Z]; it prints in decimal and computes exactly as long as
    it stays below 2^53, as every integer of the demos does.  Where the source
    computes with fractions the number is a double, [float], with the IEEE
    operations of the kernel; a double that is a number has an exact rational
    value.  What the engine alone decides, the digits of a number that is not
    an integer, is a parameter of the host. *)

(** The exact value of a double that is a number. *)
Definition float_value (x : float) : option Q :=
  match Prim2SF x with
  | S754_zero _ => Some 0%Q
  | S754_finite s m e =>
      let n := if s then Z.neg m else Z.pos m in
      Some (if 0 <=? e then inject_Z (n * 2 ^ e)
            else Qmake n (Pos.pow 2 (Z.to_pos (- e))))
  | _ => None
  end.

(** The double of an integer below 2^53 in size. *)
Definition float_of_Z (n : Z) : float :=
  if n <? 0 then (- PrimFloat.of_uint63 (Uint63.of_Z (- n)))%float
  else PrimFloat.of_uint63 (Uint63.of_Z n).

(** The integer nearest to [q], the larger one at a tie: floor (q + 1/2). *)
Definition round_half_up (q : Q) : Z :=
  (2 * Qnum q + Z.pos (Qden q)) / (2 * Z.pos (Qden q)).

Definition is_integer (q : Q) : bool := Qnum q mod Z.pos (Qden q) =? 0.

(** [Math.round] *)
Definition Math_round (x : float) : float :=
  match Prim2SF x with
  | S754_finite s m e =>
      if 0 <=? e then x
      else match float_value x with
           | Some q =>
               let n := round_half_up q in
               if (n =? 0) && s then (-0)%float else float_of_Z n
           | None => x
           end
  | _ => x
  end.

Fixpoint repeat_string (n : nat) (s : string) : string :=
  match n with
  | O => ""
  | S m => s +:+ repeat_string m s
  end.

(** The environment of a run: the clock, the random numbers and the digits the
    engine prints.  The readings are numbered in the order a run takes them. *)
Record Host : Type := {
  (** [new Date().toISOString()] *)
  Date_toISOString : nat → string;
  (** [Date.now()] *)
  Date_now : nat → Z;
  (** [performance.now()] *)
  performance_now : nat → float;
  (** [Math.random()], by its exact value *)
  Math_random : nat → Q;
  (** Number::toString at a number that is not an integer below 10^21 *)
  Number_toString : Q → string;
  (** the milliseconds that pass while a step of synchronous code runs *)
  elapsed : nat → nat
}.

(** ToString of a number given by its exact value. *)
Definition number_to_string (h : Host) (q : Q) : string :=
  if is_integer q && (Z.abs (Qnum q / Z.pos (Qden q)) <? 10 ^ 21)
  then pretty (Qnum q / Z.pos (Qden q))
  else Number_toString h q.

(** ToString of a double. *)
Definition float_to_string (h : Host) (x : float) : string :=
  match Prim2SF x with
  | S754_nan => "NaN"
  | S754_infinity s => if s then "-Infinity" else "Infinity"
  | _ => number_to_string h (default 0%Q (float_value x))
  end.

(** [Number.prototype.toFixed] at a number below 10^21 in size: the digits of
    the nearest multiple of 10^-digits, the larger one at a tie. *)
Definition toFixed_Q (q : Q) (digits : nat) : string :=
  let neg := Qnum q <? 0 in
  let a := Qmake (Z.abs (Qnum q)) (Qden q) in
  let n := round_half_up (a * inject_Z (10 ^ Z.of_nat digits))%Q in
  let m := pretty n in
  let m := repeat_string (S digits - String.length m) "0" +:+ m in
  let k := String.length m in
  (if neg then "-" else "") +:+
  match digits with
  | O => m
  | _ => substring 0 (k - digits) m +:+ "." +:+ substring (k - digits) digits m
  end.

(** [x.toFixed(digits)] on a double. *)
Definition toFixed (h : Host) (x : float) (digits : nat) : string :=
  match Prim2SF x with
  | S754_nan => "NaN"
  | S754_infinity s => if s then "-Infinity" else "Infinity"
  | _ =>
      let q := default 0%Q (float_value x) in
      if Qle_bool (inject_Z (10 ^ 21)) (Qmake (Z.abs (Qnum q)) (Qden q)) then Number_toString h q
      else toFixed_Q q digits
  end.

(** * modules/destructuring.js *)

Module DestructuringDemo.

Record t : Type := { sampleData : value }.

Definition constructor : t :=
  {| sampleData :=
       VObj [
         ("user", VObj [
            ("id", VNum 1);
            ("name", VStr "John Doe");
            ("email", VStr "john@example.com");
            ("preferences", VObj [
               ("theme", VStr "dark");
               ("notifications", VObj [
                  ("email", VBool true);
                  ("push", VBool false);
                  ("sms", VBool true)])]);
            ("addresses", VArr [
               VObj [("type", VStr "home"); ("city", VStr "New York");
                     ("zipCode", VStr "10001")];
               VObj [("type", VStr "work"); ("city", VStr "San Francisco");
                     ("zipCode", VStr "94105")]])]);
         ("products", VArr [
            VObj [("id", VNum 1); ("name", VStr "Laptop"); ("price", VNum 999);
                  ("category", VStr "Electronics")];
            VObj [("id", VNum 2); ("name", VStr "Book"); ("price", VNum 29);
                  ("category", VStr "Education")];
            VObj [("id", VNum 3); ("name", VStr "Coffee"); ("price", VNum 5);
                  ("category", VStr "Food")]])] |}.

(** The bindings the nested pattern of [nestedObjectDestructuring] makes. *)
Record nested_bindings : Type := {
  name : value;
  email : value;
  theme : value;
  emailNotif : value;
  pushNotif : value;
  homeAddress : value;
  workAddress : value
}.

Definition nested_pattern (data : value) : result nested_bindings :=
  user ← get data "user";
  name ← get user "name";
  email ← get user "email";
  preferences ← get user "preferences";
  theme ← get preferences "theme";
  notifications ← get preferences "notifications";
  emailNotif ← get notifications "email";
  push ← get notifications "push";
  let pushNotif := with_default push (VBool true) in
  addresses ← get user "addresses";
  elems ← iterate addresses;
  let homeAddress := nth_or_undefined elems 0 in
  let workAddress :=
    with_default (nth_or_undefined elems 1) (VObj [("city", VStr "Unknown")]) in
  mret {| name := name; email := email; theme := theme;
          emailNotif := emailNotif; pushNotif := pushNotif;
          homeAddress := homeAddress; workAddress := workAddress |}.

Definition nestedObjectDestructuring : method t string :=
  data ← read sampleData;
  lift (
    b ← nested_pattern data;
    homeCity ← get (homeAddress b) "city";
    workCity ← get (workAddress b) "city";
    mret ("🎯 Nested Object Destructuring:" +:+ nl +:+
          "Name: " +:+ to_string (name b) +:+ nl +:+
          "Email: " +:+ to_string (email b) +:+ nl +:+
          "Theme: " +:+ to_string (theme b) +:+ nl +:+
          "Email Notifications: " +:+ to_string (emailNotif b) +:+ nl +:+
          "Push Notifications: " +:+ to_string (pushNotif b) +:+ nl +:+
          "Home City: " +:+ to_string homeCity +:+ nl +:+
          "Work City: " +:+ to_string workCity)).

Definition arrayDestructuringWithDefaults : method t string :=
  data ← read sampleData;
  lift (
    products ← get data "products";
    elems ← iterate products;
    let first := nth_or_undefined elems 0 in
    let second := nth_or_undefined elems 1 in
    let third := nth_or_undefined elems 2 in
    let fourth :=
      with_default (nth_or_undefined elems 3)
        (VObj [("name", VStr "No more products"); ("price", VNum 0)]) in
    n1 ← get first "name"; p1 ← get first "price";
    n2 ← get second "name"; p2 ← get second "price";
    n3 ← get third "name"; p3 ← get third "price";
    n4 ← get fourth "name"; p4 ← get fourth "price";
    mret ("📦 Array Destructuring with Defaults:" +:+ nl +:+
          "First Product: " +:+ to_string n1 +:+ " - $" +:+ to_string p1 +:+ nl +:+
          "Second Product: " +:+ to_string n2 +:+ " - $" +:+ to_string p2 +:+ nl +:+
          "Third Product: " +:+ to_string n3 +:+ " - $" +:+ to_string p3 +:+ nl +:+
          "Fourth Product: " +:+ to_string n4 +:+ " - $" +:+ to_string p4)).

(** The arrow function [processUser], with its parameter pattern. *)
Definition processUser (user : value) : result string :=
  name ← get user "name";
  email ← get user "email";
  prefs ← get user "preferences";
  theme ← get (with_default prefs (VObj [])) "theme";
  let theme := with_default theme (VStr "light") in
  addresses ← get user "addresses";
  let addresses := with_default addresses (VArr []) in
  addressCount ← get addresses "length";
  mret ("Processing " +:+ to_string name +:+ " (" +:+ to_string email +:+
        ") with " +:+ to_string theme +:+ " theme and " +:+
        to_string addressCount +:+ " addresses").

Definition functionParameterDestructuring : method t string :=
  data ← read sampleData;
  lift (
    user ← get data "user";
    result ← processUser user;
    mret ("🔧 Function Parameter Destructuring:" +:+ nl +:+ result)).

(** The arrow function [extractProperties]: [reduce] over the paths. *)
Definition extractProperties (obj : value) (props : list string) : value :=
  VObj (fold_left
          (λ result prop,
             let keys := split_on "." prop in
             let value := fold_left get_opt keys obj in
             set_prop prop value (spread [] result))
          props []).

Definition dynamicPropertyExtraction : method t string :=
  data ← read sampleData;
  let extracted :=
    extractProperties data
      ["user.name"; "user.preferences.theme"; "user.addresses.0.city"] in
  mret ("🎪 Dynamic Property Extraction:" +:+ nl +:+ JSON_stringify_2 extracted).

Definition restPatternInDestructuring : method t string :=
  data ← read sampleData;
  lift (
    products ← get data "products";
    elems ← iterate products;
    let firstProduct := nth_or_undefined elems 0 in
    let restProducts := drop 1 elems in
    user ← get data "user";
    name ← get user "name";
    email ← get user "email";
    otherUserData ← rest_props user ["name"; "email"];
    firstName ← get firstProduct "name";
    mret ("🔄 Rest Pattern in Destructuring:" +:+ nl +:+
          "First Product: " +:+ to_string firstName +:+ nl +:+
          "Remaining Products: " +:+ pretty (length restProducts) +:+ " items" +:+ nl +:+
          "User Core: " +:+ to_string name +:+ ", " +:+ to_string email +:+ nl +:+
          "Other User Data Keys: " +:+ join ", " (map fst otherUserData))).

Definition getSourceCode : string :=
  "
// Advanced Destructuring Patterns

// 1. Nested Object Destructuring with Defaults
const {
    user: {
        name,
        preferences: {
            notifications: { email: emailNotif, push: pushNotif = true }
        },
        addresses: [homeAddress, workAddress = { city: 'Unknown' }]
    }
} = complexData;

// 2. Function Parameter Destructuring
const processUser = ({
    name,
    email,
    preferences: { theme = 'light' } = {},
    addresses = []
}) => {
    // Process user with destructured parameters
};

// 3. Dynamic Property Extraction
const extractProperties = (obj, ...props) => {
    return props.reduce((result, prop) => {
        const keys = prop.split('.');
        let value = obj;
        for (const key of keys) {
            value = value?.[key];
        }
        return { ...result, [prop]: value };
    }, {});
};

// 4. Rest Pattern in Destructuring
const [first, ...rest] = array;
const { name, email, ...otherData } = user;
        ".

Definition run : method t value :=
  e1 ← nestedObjectDestructuring;
  e2 ← arrayDestructuringWithDefaults;
  e3 ← functionParameterDestructuring;
  e4 ← dynamicPropertyExtraction;
  e5 ← restPatternInDestructuring;
  let examples := [VStr e1; VStr e2; VStr e3; VStr e4; VStr e5] in
  let output := array_join (nl +:+ nl) examples in
  mret (VObj [("output", VStr output); ("code", VStr getSourceCode)]).

End DestructuringDemo.

(** * modules/spreadRest.js *)

Module SpreadRestDemo.

Record t : Type := {
  baseUser : value;
  permissions : value;
  additionalData : value
}.

Definition constructor : t :=
  {| baseUser := VObj [("id", VNum 1); ("name", VStr "John"); ("role", VStr "user")];
     permissions := VArr [VStr "read"; VStr "write"];
     additionalData := VObj [("lastLogin", VStr "2024-01-01"); ("isActive", VBool true)] |}.

Definition objectComposition (h : Host) : method t string :=
  base ← read baseUser;
  additional ← read additionalData;
  perms ← read permissions;
  lift (
    perms ← iterate perms;
    let enhancedUser :=
      VObj (set_prop "metadata"
              (VObj [("createdAt", VStr (Date_toISOString h 0)); ("version", VStr "1.0")])
              (set_prop "permissions" (VArr (perms ++ [VStr "admin"]))
                 (spread (spread [] (own_props base)) (own_props additional)))) in
    mret ("🏗️ Object Composition:" +:+ nl +:+ JSON_stringify_2 enhancedUser)).

Definition immutableUpdates (h : Host) : method t string :=
  let users :=
    [VObj [("id", VNum 1); ("name", VStr "John"); ("active", VBool true)];
     VObj [("id", VNum 2); ("name", VStr "Jane"); ("active", VBool false)];
     VObj [("id", VNum 3); ("name", VStr "Bob"); ("active", VBool true)]] in
  let updatedUsers :=
    map (λ user,
           if strict_eq (get_own user "id") (VNum 2)
           then VObj (set_prop "lastUpdated" (VNum (Date_now h 0))
                        (set_prop "active" (VBool true) (spread [] (own_props user))))
           else user) users in
  let withNewUser :=
    updatedUsers ++
      [VObj [("id", VNum 4); ("name", VStr "Alice"); ("active", VBool true);
             ("isNew", VBool true)]] in
  let found :=
    default VUndefined
      (List.find (λ u, strict_eq (get_own u "id") (VNum 2)) withNewUser) in
  lift (
    active ← get found "active";
    mret ("🔄 Immutable Updates:" +:+ nl +:+
          "Original Users: " +:+ pretty (length users) +:+ nl +:+
          "Updated Users: " +:+ pretty (length updatedUsers) +:+ nl +:+
          "With New User: " +:+ pretty (length withNewUser) +:+ nl +:+
          "Jane is now active: " +:+ to_string active)).

(** [[...new Set(l)]]: the first occurrence of each element, in order. *)
Definition dedupe (l : list string) : list string :=
  fold_left (λ seen x, if bool_decide (x ∈ seen) then seen else seen ++ [x]) l [].

Definition arrayMerging : method t string :=
  let frontend := ["React"; "Vue"; "Angular"] in
  let backend := ["Node.js"; "Python"; "Java"] in
  let databases := ["MongoDB"; "PostgreSQL"] in
  let allTech := dedupe (frontend ++ backend ++ databases) in
  let isFullStack := true in
  let techStack :=
    take 1 frontend ++ (if isFullStack then backend else []) ++ databases in
  mret ("📚 Array Merging & Manipulation:" +:+ nl +:+
        "All Technologies: " +:+ join ", " allTech +:+ nl +:+
        "Tech Stack: " +:+ join ", " techStack +:+ nl +:+
        "Unique Count: " +:+ pretty (length allTech)).

(** The arrow function [calculateStats] on integers; [None] is the string
    "Invalid operation" it gives for an operation it does not have. *)
Definition calculateStats (operation : string) (numbers : list Z) : option float :=
  let sum := float_of_Z (fold_left Z.add numbers 0) in
  if String.eqb operation "sum" then Some sum
  else if String.eqb operation "avg" then
    Some (sum / float_of_Z (Z.of_nat (length numbers)))%float
  else if String.eqb operation "max" then
    Some (match numbers with
          | [] => neg_infinity
          | x :: r => float_of_Z (fold_left Z.max r x)
          end)
  else if String.eqb operation "min" then
    Some (match numbers with
          | [] => infinity
          | x :: r => float_of_Z (fold_left Z.min r x)
          end)
  else None.

Definition stat_to_string (h : Host) (s : option float) : string :=
  match s with
  | Some x => float_to_string h x
  | None => "Invalid operation"
  end.

Definition functionArguments (h : Host) : method t string :=
  let numbers := [10; 25; 30; 15; 40] in
  let sum := calculateStats "sum" numbers in
  let avg := calculateStats "avg" numbers in
  let max := calculateStats "max" numbers in
  lift (
    average ← match avg with
              | Some x => Ok (toFixed h x 2)
              | None => Throw (TypeError "avg.toFixed is not a function")
              end;
    mret ("🧮 Variadic Functions:" +:+ nl +:+
          "Numbers: " +:+ join ", " (map pretty numbers) +:+ nl +:+
          "Sum: " +:+ stat_to_string h sum +:+ nl +:+
          "Average: " +:+ average +:+ nl +:+
          "Maximum: " +:+ stat_to_string h max)).

(** The arrow function [createApiRequest]; [options] is an object. *)
Definition createApiRequest (baseUrl : string) (options : value) : value :=
  let isProduction := false in
  let hasAuth := true in
  let request := [("url", VStr baseUrl); ("method", VStr "GET")] in
  let request := spread request (own_props options) in
  let request :=
    spread request
      (own_props (js_and (VBool isProduction) (VObj [("timeout", VNum 5000)]))) in
  let request :=
    spread request
      (own_props
         (js_and (VBool hasAuth)
            (VObj [("headers",
                    VObj (set_prop "Authorization" (VStr "Bearer token123")
                            (spread [] (own_props (get_own options "headers")))))]))) in
  let request :=
    spread request
      (own_props
         (js_and (VBool (negb (strict_eq (get_own options "cache") (VBool false))))
            (VObj [("cache", VStr "default")]))) in
  VObj request.

Definition conditionalSpreading : method t string :=
  let request :=
    createApiRequest "/api/users"
      (VObj [("method", VStr "POST");
             ("headers", VObj [("Content-Type", VStr "application/json")])]) in
  mret ("🔧 Conditional Spreading:" +:+ nl +:+ JSON_stringify_2 request).

Definition getSourceCode : string :=
  "
// Advanced Spread & Rest Patterns

// 1. Object Composition
const enhancedUser = {
    ...baseUser,
    ...additionalData,
    permissions: [...permissions, 'admin']
};

// 2. Immutable Updates
const updatedUsers = users.map(user => 
    user.id === targetId 
        ? { ...user, active: true, lastUpdated: Date.now() }
        : user
);

// 3. Array Deduplication
const uniqueItems = [...new Set([...array1, ...array2])];

// 4. Variadic Functions
const calculateStats = (operation, ...numbers) => {
    return operations[operation]?.(numbers);
};

// 5. Conditional Spreading
const config = {
    ...baseConfig,
    ...(isProduction && { timeout: 5000 }),
    ...(hasAuth && { headers: { Authorization: token } })
};
        ".

Definition run (h : Host) : method t value :=
  e1 ← objectComposition h;
  e2 ← immutableUpdates h;
  e3 ← arrayMerging;
  e4 ← functionArguments h;
  e5 ← conditionalSpreading;
  let examples := [VStr e1; VStr e2; VStr e3; VStr e4; VStr e5] in
  let output := array_join (nl +:+ nl) examples in
  mret (VObj [("output", VStr output); ("code", VStr getSourceCode)]).

End SpreadRestDemo.

(** * modules/arrowFunctions.js *)

Module ArrowFunctionDemo.

Record t : Type := { context : value }.

Definition constructor : t :=
  {| context :=
       VObj [("name", VStr "Dashboard"); ("version", VStr "1.0");
             ("features", VArr [VStr "destructuring"; VStr "spread"; VStr "arrows"])] |}.

(** The object [eventManager] of [lexicalThisBinding], by its data
    properties; its methods take it as [this]. *)
Record eventManager : Type := { name : string; events : list string }.

Definition addEventRegular (eventName : string) (this : eventManager)
  : string * eventManager :=
  let this' := {| name := name this; events := events this ++ [eventName] |} in
  (name this' +:+ " added: " +:+ eventName, this').

Definition processEvents (this : eventManager) : list string :=
  map (λ event, name this +:+ ": " +:+ event) (events this).

Definition lexicalThisBinding : method t string :=
  let manager := {| name := "EventManager"; events := [] |} in
  let manager := (addEventRegular "click" manager).2 in
  let manager := (addEventRegular "scroll" manager).2 in
  let processed := processEvents manager in
  mret ("🎯 Lexical This Binding:" +:+ nl +:+
        "Events processed: " +:+ join ", " processed +:+ nl +:+
        "Arrow functions preserve outer 'this' context!").

Definition createValidator (rule : Z → bool) : Z → bool := λ value, rule value.

Definition higherOrderFunctions : method t string :=
  let data := [1; 2; 3; 4; 5; 6; 7; 8; 9; 10] in
  let pipeline :=
    fold_left (λ acc n, acc + n)
      (map (λ n, n * n) (filter (λ n, Z.rem n 2 = 0) data)) 0 in
  let isPositive := createValidator (λ n, 0 <? n) in
  let isEven := createValidator (λ n, Z.rem n 2 =? 0) in
  let validationResults := map (λ n, (n, isPositive n, isEven n)) (take 5 data) in
  mret ("🔧 Higher-Order Functions:" +:+ nl +:+
        "Pipeline Result: " +:+ pretty pipeline +:+ nl +:+
        "Validation Results:" +:+ nl +:+
        join nl (map (λ r, match r with
                           | (value, positive, even) =>
                               pretty value +:+ ": positive=" +:+ bool_to_string positive +:+
                               ", even=" +:+ bool_to_string even
                           end) validationResults)).

(** [compose]: [reduceRight] applies the last function first. *)
Definition compose {A} (fns : list (A → A)) : A → A :=
  λ value, fold_right (λ fn acc, fn acc) value fns.

Definition addTax (price : float) : float := (price * 1.1)%float.
Definition addShipping (price : float) : float := (price + 10)%float.
Definition applyDiscount (discount : float) : float → float :=
  λ price, (price * (1 - discount))%float.
Definition multiply (x : Z) : Z → Z := λ y, x * y.

Definition functionalComposition (h : Host) : method t string :=
  let calculateFinalPrice :=
    compose [Math_round; addShipping; addTax; applyDiscount 0.1%float] in
  let originalPrice := 100%float in
  let finalPrice := calculateFinalPrice originalPrice in
  let double := multiply 2 in
  let triple := multiply 3 in
  mret ("🎼 Functional Composition:" +:+ nl +:+
        "Original Price: $" +:+ float_to_string h originalPrice +:+ nl +:+
        "Final Price: $" +:+ float_to_string h finalPrice +:+ nl +:+
        "Double 5: " +:+ pretty (double 5) +:+ nl +:+
        "Triple 4: " +:+ pretty (triple 4)).

(** An [async] method that [run] calls and does not await: [run] holds its
    promise, still pending, and never reads what it settles to. *)
Definition asyncArrowPatterns : method t value := mret VPromise.

(** [withArguments] is an arrow function: its [arguments] is that of the
    method around it, [whenNotToUseArrows], which [run] calls with none. *)
Definition withArguments (outer_arguments : list value) : string :=
  array_join ", " outer_arguments.

Definition whenNotToUseArrows : method t string :=
  let objectMethod (this : value) : string :=
    "Object method with proper 'this': " +:+
    to_string (js_or (get_opt this "name") (VStr "undefined")) in
  let regularConstructor (name : string) : value := VObj [("name", VStr name)] in
  let getName (this : value) : value := get_own this "name" in
  let obj := VObj [("name", VStr "TestObject")] in
  let boundMethod := objectMethod obj in
  let constructor := regularConstructor "TestName" in
  let argsResult := withArguments [] in
  mret ("❌ When NOT to Use Arrows:" +:+ nl +:+
        "Object Method: " +:+ boundMethod +:+ nl +:+
        "Constructor Result: " +:+ to_string (getName constructor) +:+ nl +:+
        "Arguments Example: " +:+ argsResult).

Definition getSourceCode : string :=
  "
// Advanced Arrow Function Patterns

// 1. Lexical This Binding
const eventManager = {
    events: [],
    processEvents: function() {
        // Arrow function preserves 'this' from outer scope
        return this.events.map(event => `${this.name}: ${event}`);
    }
};

// 2. Higher-Order Functions
const createValidator = (rule) => (value) => rule(value);
const isPositive = createValidator(n => n > 0);

// 3. Functional Composition
const compose = (...fns) => (value) => 
    fns.reduceRight((acc, fn) => fn(acc), value);

const pipeline = compose(
    Math.round,
    addShipping,
    addTax,
    applyDiscount(0.1)
);

// 4. Async Arrow Functions
const fetchData = async (url) => {
    const response = await fetch(url);
    return response.json();
};

// 5. Curried Functions
const multiply = x => y => x * y;
const double = multiply(2);

// When NOT to use arrows:
// - Object methods needing 'this'
// - Constructors
// - When you need 'arguments' object
        ".

Definition run (h : Host) : method t value :=
  e1 ← lexicalThisBinding;
  e2 ← higherOrderFunctions;
  e3 ← functionalComposition h;
  e4 ← asyncArrowPatterns;
  e5 ← whenNotToUseArrows;
  let examples := [VStr e1; VStr e2; VStr e3; e4; VStr e5] in
  let output := array_join (nl +:+ nl) examples in
  mret (VObj [("output", VStr output); ("code", VStr getSourceCode)]).

End ArrowFunctionDemo.

(** * modules/templateLiterals.js *)

Module TemplateLiteralDemo.

Record project : Type := {
  project_name : string;
  status : string;
  duration : string
}.

Record user : Type := {
  name : string;
  role : string;
  experience : Z;
  skills : list string;
  projects : list project
}.

Record t : Type := { userData : user }.

Definition constructor : t :=
  {| userData :=
       {| name := "John Doe";
          role := "Senior Developer";
          experience := 5;
          skills := ["JavaScript"; "React"; "Node.js"];
          projects :=
            [{| project_name := "E-commerce Platform"; status := "completed";
                duration := "6 months" |};
             {| project_name := "Analytics Dashboard"; status := "in-progress";
                duration := "3 months" |}] |} |}.

(** Where a template literal ends before [.trim()]: a line break and the
    indentation of the closing backquote. *)
Definition tail : string := nl +:+ "        ".

Definition basicTemplating : method t string :=
  u ← read userData;
  let profile :=
    trim (nl +:+
          "👤 Developer Profile:" +:+ nl +:+
          "Name: " +:+ name u +:+ nl +:+
          "Role: " +:+ role u +:+ nl +:+
          "Experience: " +:+ pretty (experience u) +:+ " year" +:+
            (if negb (experience u =? 1) then "s" else "") +:+ nl +:+
          "Skills: " +:+ join " • " (skills u) +:+ nl +:+
          "Skill Count: " +:+ pretty (length (skills u)) +:+ nl +:+
          "Senior Level: " +:+ (if 5 <=? experience u then "✅ Yes" else "❌ No") +:+
          tail) in
  mret ("📝 Basic Template Literals:" +:+ nl +:+ profile).

(** The tag function [highlight]: [reduce] over the literal parts, with the
    substitution of the same index where that is not empty. *)
Definition highlight (strings values : list string) : string :=
  fold_left
    (λ result si,
       let value :=
         match values !! si.1 with
         | Some v => if String.eqb v "" then "" else "<mark>" +:+ v +:+ "</mark>"
         | None => ""
         end in
       result +:+ si.2 +:+ value)
    (imap pair strings) "".

(** The tag function [query]; every substitution is a string here. *)
Definition query (strings values : list string) : string :=
  let sanitized := map (λ value, "'" +:+ replace_all "'" "''" value +:+ "'") values in
  fold_left
    (λ result si, result +:+ si.2 +:+ default "" (sanitized !! si.1))
    (imap pair strings) "".

Definition taggedTemplates : method t string :=
  u ← read userData;
  let highlighted := highlight ["Developer "; " works as "; ""] [name u; role u] in
  let sqlQuery :=
    query ["SELECT * FROM users WHERE name = "; " AND role = "; ""] [name u; role u] in
  mret ("🏷️ Tagged Template Literals:" +:+ nl +:+
        "Highlighted: " +:+ highlighted +:+ nl +:+
        "SQL Query: " +:+ sqlQuery).

Definition multilineTemplates : method t string :=
  u ← read userData;
  let projectReport :=
    trim (nl +:+
          "╔══════════════════════════════════════╗" +:+ nl +:+
          "║           PROJECT REPORT             ║" +:+ nl +:+
          "╠══════════════════════════════════════╣" +:+ nl +:+
          "║ Developer: " +:+ padEnd 25 (name u) +:+ " ║" +:+ nl +:+
          "║ Total Projects: " +:+ padEnd 20 (pretty (length (projects u))) +:+ " ║" +:+ nl +:+
          "╠══════════════════════════════════════╣" +:+ nl +:+
          join nl
            (map (λ project,
                    "║ • " +:+ padEnd 32 (project_name project) +:+ " ║" +:+ nl +:+
                    "║   Status: " +:+ padEnd 26 (status project) +:+ " ║" +:+ nl +:+
                    "║   Duration: " +:+ padEnd 24 (duration project) +:+ " ║")
               (projects u)) +:+ nl +:+
          "╚══════════════════════════════════════╝" +:+
          tail) in
  mret ("📊 Multiline Templates:" +:+ nl +:+ projectReport).

Definition conditionalTemplating : method t string :=
  u ← read userData;
  let completedProjects :=
    length (filter (λ p, status p = "completed") (projects u)) in
  let inProgressProjects :=
    length (filter (λ p, status p = "in-progress") (projects u)) in
  let nskills := length (skills u) in
  let statusReport :=
    trim (nl +:+
          "🎯 Developer Status Report:" +:+ nl +:+
          name u +:+ " is a " +:+
            (if 5 <=? experience u then "Senior"
             else if 2 <=? experience u then "Mid-level" else "Junior") +:+
            " developer" +:+ nl +:+
          (if bool_decide (3 < nskills)%nat then "🌟 Highly skilled" else "📚 Growing skillset") +:+
            " (" +:+ pretty nskills +:+ " skills)" +:+ nl +:+
          (if bool_decide (0 < completedProjects)%nat
           then "✅ " +:+ pretty completedProjects +:+ " completed project" +:+
                (if bool_decide (completedProjects ≠ 1%nat) then "s" else "")
           else "") +:+ nl +:+
          (if bool_decide (0 < inProgressProjects)%nat
           then "🚧 " +:+ pretty inProgressProjects +:+ " project" +:+
                (if bool_decide (inProgressProjects ≠ 1%nat) then "s" else "") +:+
                " in progress"
           else "") +:+ nl +:+
          (if (5 <=? experience u) && bool_decide (3 < nskills)%nat
           then "🏆 Ready for leadership roles!" else "") +:+
          tail) in
  mret ("🔀 Conditional Templating:" +:+ nl +:+ statusReport).

(** The templates [createEmailTemplate] hands out. *)
Definition welcome (name role : string) : string :=
  trim (nl +:+
        "Welcome " +:+ name +:+ "! 🎉" +:+ nl +:+
        "We're excited to have you join us as a " +:+ role +:+ "." +:+ nl +:+
        "Your journey starts now!" +:+
        nl +:+ "                ").

Definition project_template (name projectName status : string) : string :=
  trim (nl +:+
        "Hi " +:+ name +:+ "," +:+ nl +:+
        "Project Update: " +:+ dq +:+ projectName +:+ dq +:+ nl +:+
        "Status: " +:+ toUpperCase status +:+ nl +:+
        (if String.eqb status "completed" then "🎉 Congratulations!"
         else "⏳ Keep up the great work!") +:+
        nl +:+ "                ").

Definition templateFunctions : method t string :=
  u ← read userData;
  lift (
    first ← match projects u with
            | p :: _ => Ok p
            | [] => Throw (TypeError "Cannot read properties of undefined (reading 'name')")
            end;
    let welcome := welcome (name u) (role u) in
    let project := project_template (name u) (project_name first) (status first) in
    mret ("📧 Template Functions:" +:+ nl +:+
          "Welcome Email:" +:+ nl +:+
          welcome +:+ nl +:+
          nl +:+
          "Project Email:" +:+ nl +:+
          project)).

Definition getSourceCode : string :=
  "
// Advanced Template Literal Patterns

// 1. Basic Templates with Expressions
const profile = `
Name: ${name}
Experience: ${experience} year${experience !== 1 ? 's' : ''}
Senior: ${experience >= 5 ? '✅ Yes' : '❌ No'}
`;

// 2. Tagged Template Literals
const highlight = (strings, ...values) => {
    return strings.reduce((result, string, i) => {
        const value = values[i] ? `<mark>${values[i]}</mark>` : '';
        return result + string + value;
    }, '');
};

const highlighted = highlight`User ${name} has ${role} role`;

// 3. SQL Query Builder
const query = (strings, ...values) => {
    const sanitized = values.map(v => 
        typeof v === 'string' ? `'${v.replace(/'/g, " +:+ dq +:+ "''" +:+ dq +:+ ")}'` : v
    );
    return strings.reduce((result, string, i) => 
        result + string + (sanitized[i] || ''), ''
    );
};

// 4. Conditional Templates
const status = `
${name} is ${experience >= 5 ? 'Senior' : 'Junior'}
${skills.length > 3 ? '🌟 Highly skilled' : '📚 Growing'}
${completedProjects > 0 ? `✅ ${completedProjects} completed` : ''}
`;

// 5. Template Factory Functions
const createTemplate = (type) => (name, data) => `
Template for ${name}: ${data}
`;
        ".

Definition run : method t value :=
  e1 ← basicTemplating;
  e2 ← taggedTemplates;
  e3 ← multilineTemplates;
  e4 ← conditionalTemplating;
  e5 ← templateFunctions;
  let examples := [VStr e1; VStr e2; VStr e3; VStr e4; VStr e5] in
  let output := array_join (nl +:+ nl) examples in
  mret (VObj [("output", VStr output); ("code", VStr getSourceCode)]).

End TemplateLiteralDemo.

(** * modules/advancedPatterns.js *)

(** [a + b] *)
Definition to_number (v : value) : option Z :=
  match v with
  | VNull => Some 0
  | VBool b => Some (if b then 1 else 0)
  | VNum n => Some n
  | _ => None
  end.

Definition is_primitive_number (v : value) : bool :=
  match v with
  | VUndefined | VNull | VBool _ | VNum _ | VNaN => true
  | _ => false
  end.

(** Two values that are neither strings nor objects add as numbers; with a
    string or an object (which turns into a string) on a side, they
    concatenate. *)
Definition js_add (a b : value) : value :=
  if is_primitive_number a && is_primitive_number b then
    match to_number a, to_number b with
    | Some x, Some y => VNum (x + y)
    | _, _ => VNaN
    end
  else VStr (to_string a +:+ to_string b).

(** ** The function [memoize] of [memoizationPattern]

    The cache is the [Map] of the closure.  [fn] runs on a state [S] of its
    own and, so that a function may call its own memoized form, on the cache
    as well. *)
Module Memoize.
Section Memoize.
Context {A S : Type}.

Definition state : Type := gmap string value * S.

Definition memoize (fn : A → state → result value * state)
    (keyGenerator : A → string) (args : A) (st : state)
  : result value * state :=
  let key := keyGenerator args in
  match st.1 !! key with
  | Some hit => (Ok (VObj [("result", hit); ("cached", VBool true)]), st)
  | None =>
      match fn args st with
      | (Ok result, st') =>
          (Ok (VObj [("result", result); ("cached", VBool false)]),
           (<[key := result]> st'.1, st'.2))
      | (Throw e, st') => (Throw e, st')
      end
  end.

(** A function that does not reach the cache of its memoized form. *)
Definition outside (f : A → S → result value * S) : A → state → result value * state :=
  λ args st,
    match f args st.2 with
    | (r, s') => (r, (st.1, s'))
    end.

(** The calls [calls], one after the other, on the memoized [fn];  a call
    that throws leaves the state it reached. *)
Fixpoint call_all (fn : A → state → result value * state)
    (keyGenerator : A → string) (calls : list A) (st : state)
  : list (result value) * state :=
  match calls with
  | [] => ([], st)
  | args :: rest =>
      match memoize fn keyGenerator args st with
      | (r, st') =>
          match call_all fn keyGenerator rest st' with
          | (rs, st'') => (r :: rs, st'')
          end
      end
  end.
End Memoize.
End Memoize.

(** ** The class [EventEmitter] of [observerPattern] *)
Module EventEmitter.

(** The identity of a function object: [indexOf] compares by it.  A function
    of the caller has the identity the caller gives it; the closure that
    [once] makes is new at each call. *)
Inductive fid : Type :=
| User (n : nat)
| Wrapper (n : nat).

#[global] Instance fid_eq_dec : EqDecision fid.
Proof. solve_decision. Defined.

Section Emitter.
Context {W : Type}.

(** What a callback of the caller does: it works on the state [W] around
    the emitter and returns or throws. *)
Definition body : Type := value → W → result value * W.

(** A registered function: a callback as given to [on], or the closure of
    [once] around one, which knows the event it unsubscribes from. *)
Record callback : Type := {
  ident : fid;
  once_for : option string;
  code : body
}.

(** [events] is the field of the class.  [fresh] numbers the closures of
    [once]; [calls] lists the functions invoked so far, oldest first.
    Neither is in the source: they are kept to tell one closure from
    another and to count invocations. *)
Record t : Type := {
  events : gmap string (list callback);
  fresh : nat;
  calls : list fid
}.

Definition new : t := {| events := ∅; fresh := 0; calls := [] |}.

Definition listeners (e : t) (event : string) : list callback :=
  default [] (events e !! event).

Definition on (event : string) (cb : callback) (e : t) : t :=
  {| events := <[event := listeners e event ++ [cb]]> (events e);
     fresh := fresh e;
     calls := calls e |}.

(** [callbacks.splice(callbacks.indexOf(callback), 1)] *)
Fixpoint remove_first (id : fid) (l : list callback) : list callback :=
  match l with
  | [] => []
  | cb :: rest =>
      if decide (ident cb = id) then rest else cb :: remove_first id rest
  end.

(** The function that [on] returns. *)
Definition unsubscribe (event : string) (id : fid) (e : t) : result t :=
  match events e !! event with
  | Some callbacks =>
      Ok {| events := <[event := remove_first id callbacks]> (events e);
            fresh := fresh e;
            calls := calls e |}
  | None =>
      Throw (TypeError "Cannot read properties of undefined (reading 'indexOf')")
  end.

Definition once (event : string) (callback : body) (e : t) : t :=
  on event {| ident := Wrapper (fresh e); once_for := Some event; code := callback |}
    {| events := events e; fresh := S (fresh e); calls := calls e |}.

Definition called (id : fid) (e : t) : t :=
  {| events := events e; fresh := fresh e; calls := calls e ++ [id] |}.

(** A call of a registered function.  The closure of [once] runs its
    callback and then unsubscribes: when the callback throws, it does not
    get there. *)
Definition invoke (cb : callback) (data : value) (s : t * W) : result value * (t * W) :=
  let e := called (ident cb) s.1 in
  match code cb data s.2 with
  | (Ok v, w') =>
      match once_for cb with
      | None => (Ok v, (e, w'))
      | Some event =>
          match unsubscribe event (ident cb) e with
          | Ok e' => (Ok VUndefined, (e', w'))
          | Throw x => (Throw x, (e, w'))
          end
      end
  | (Throw x, w') => (Throw x, (e, w'))
  end.

(** [callbacks.map(...)]: the indices [k], [k+1], ... up to the length the
    array had at the start, each read from the array as it is by then; an
    index past its end by then is skipped. *)
Fixpoint emit_from (n k : nat) (event : string) (data : value) (s : t * W)
  : result (list value) * (t * W) :=
  match n with
  | O => (Ok [], s)
  | S n' =>
      match listeners s.1 event !! k with
      | None => emit_from n' (S k) event data s
      | Some cb =>
          match invoke cb data s with
          | (Ok v, s') =>
              match emit_from n' (S k) event data s' with
              | (Ok vs, s'') => (Ok (v :: vs), s'')
              | (Throw x, s'') => (Throw x, s'')
              end
          | (Throw x, s') => (Throw x, s')
          end
      end
  end.

Definition emit (event : string) (data : value) (s : t * W)
  : result (list value) * (t * W) :=
  emit_from (length (listeners s.1 event)) 0 event data s.

(** What a program does with an emitter. *)
Inductive op : Type :=
| On (event : string) (id : nat) (callback : body)
| Once (event : string) (callback : body)
| Emit (event : string) (data : value)
| Unsubscribe (event : string) (id : fid).

(** One operation; an exception out of it is dropped here, the state it
    left stays. *)
Definition exec (o : op) (s : t * W) : t * W :=
  match o with
  | On event id callback =>
      (on event {| ident := User id; once_for := None; code := callback |} s.1, s.2)
  | Once event callback => (once event callback s.1, s.2)
  | Emit event data => (emit event data s).2
  | Unsubscribe event id =>
      match unsubscribe event id s.1 with
      | Ok e' => (e', s.2)
      | Throw _ => s
      end
  end.

Definition exec_all (ops : list op) (s : t * W) : t * W :=
  fold_left (λ s o, exec o s) ops s.

End Emitter.
Arguments body : clear implicits.
Arguments callback : clear implicits.
Arguments t : clear implicits.
Arguments op : clear implicits.
End EventEmitter.

Module AdvancedPatternsDemo.

Record t : Type := {
  cache : gmap string value;
  observers : list value
}.

Definition constructor : t := {| cache := ∅; observers := [] |}.

(** ** closuresAndPrivacy *)

(** The variables the closures of [createCounter] share.  The counts are
    integers, added exactly: this is the addition of the source as long as
    they stay within 2^53 ([safe_run] below). *)
Record counter : Type := {
  initialValue : Z;
  count : Z;
  history : list string
}.

Definition createCounter (initialValue : Z) : counter :=
  {| initialValue := initialValue; count := initialValue; history := [] |}.

Definition increment (step : Z) (c : counter) : Z * counter :=
  let c' := {| initialValue := initialValue c;
               count := count c + step;
               history := history c ++ ["+" +:+ pretty step] |} in
  (count c', c').

Definition decrement (step : Z) (c : counter) : Z * counter :=
  let c' := {| initialValue := initialValue c;
               count := count c - step;
               history := history c ++ ["-" +:+ pretty step] |} in
  (count c', c').

Definition getValue (c : counter) : Z := count c.
Definition getHistory (c : counter) : list string := history c.

Definition reset (c : counter) : Z * counter :=
  let c' := {| initialValue := initialValue c;
               count := initialValue c;
               history := [] |} in
  (count c', c').

Definition closuresAndPrivacy : method t string :=
  let counter := createCounter 10 in
  let counter := (increment 5 counter).2 in
  let counter := (decrement 2 counter).2 in
  let counter := (increment 3 counter).2 in
  mret ("🔒 Closures & Privacy:" +:+ nl +:+
        "Current Value: " +:+ pretty (getValue counter) +:+ nl +:+
        "History: " +:+ join ", " (getHistory counter) +:+ nl +:+
        "Private state is completely encapsulated!").

(** ** memoizationPattern *)

(** The default [keyGenerator], [JSON.stringify(args)], at one argument. *)
Definition keyGenerator (arg : value) : string := JSON_stringify (VArr [arg]).

(** [fibonacci], the memoized function that calls itself through a new
    [memoize(fibonacci)] at every level.  [depth] bounds the nesting of the
    calls, as the stack does. *)
Fixpoint fibonacci_at (depth : nat) (n : Z) (st : Memoize.state (S := unit))
  : result value * Memoize.state (S := unit) :=
  match depth with
  | O => (Throw (Exn "RangeError" "Maximum call stack size exceeded"), st)
  | S depth' =>
      Memoize.memoize
        (λ n st,
           if n <=? 1 then (Ok (VNum n), st)
           else
             let fib :=
               Memoize.memoize (Memoize.outside (fibonacci_at depth'))
                 (λ n, keyGenerator (VNum n)) in
             match fib (n - 1) (∅, st) with
             | (Throw e, inner) => (Throw e, inner.2)
             | (Ok a, inner) =>
                 match fib (n - 2) inner with
                 | (Throw e, inner) => (Throw e, inner.2)
                 | (Ok b, inner) =>
                     match (ra ← get a "result"; rb ← get b "result";
                            mret (js_add ra rb)) with
                     | Ok r => (Ok r, inner.2)
                     | Throw e => (Throw e, inner.2)
                     end
                 end
             end)
        (λ n, keyGenerator (VNum n)) n st
  end.

(** The nesting never exceeds the argument. *)
Definition fibonacci (n : Z) := fibonacci_at (S (Z.to_nat n)) n.

Definition processData : list Z → Memoize.state (S := unit) → result value * Memoize.state :=
  Memoize.memoize
    (Memoize.outside
       (λ data s, (Ok (VNum (fold_left Z.add (map (λ item, item * 2) data) 0)), s)))
    (λ data, keyGenerator (VArr (map VNum data))).

Definition memoizationPattern : method t string :=
  lift (
    let first := fibonacci 10 (∅, ()) in
    fib10First ← first.1;
    let second := fibonacci 10 first.2 in
    fib10Second ← second.1;
    dataResult ← (processData [1; 2; 3; 4; 5] (∅, ())).1;
    r1 ← get fib10First "result"; c1 ← get fib10First "cached";
    r2 ← get fib10Second "result"; c2 ← get fib10Second "cached";
    r3 ← get dataResult "result";
    mret ("⚡ Memoization Pattern:" +:+ nl +:+
          "Fibonacci(10) first call: " +:+ to_string r1 +:+
            " (cached: " +:+ to_string c1 +:+ ")" +:+ nl +:+
          "Fibonacci(10) second call: " +:+ to_string r2 +:+
            " (cached: " +:+ to_string c2 +:+ ")" +:+ nl +:+
          "Data processing result: " +:+ to_string r3)).

(** ** observerPattern *)

(** The three callbacks; the state around the emitter is [messages]. *)
Definition on_login : EventEmitter.body (list string) :=
  λ user messages,
    match get user "name" with
    | Ok name =>
        (Ok VUndefined, messages ++ ["User " +:+ to_string name +:+ " logged in"])
    | Throw e => (Throw e, messages)
    end.

Definition on_logout : EventEmitter.body (list string) :=
  λ user messages,
    match get user "name" with
    | Ok name =>
        (Ok VUndefined, messages ++ ["User " +:+ to_string name +:+ " logged out"])
    | Throw e => (Throw e, messages)
    end.

Definition on_startup : EventEmitter.body (list string) :=
  λ _ messages, (Ok VUndefined, messages ++ ["System started (one-time event)"]).

(** The emitter after the three subscriptions, with no message yet. *)
Definition subscribed : EventEmitter.t (list string) * list string :=
  EventEmitter.exec_all
    [EventEmitter.On "user:login" 0 on_login;
     EventEmitter.On "user:logout" 1 on_logout;
     EventEmitter.Once "system:startup" on_startup]
    (EventEmitter.new, []).

(** The four [emit] calls, in order; an exception ends the method. *)
Definition emitted : result (list string) :=
  let john := VObj [("name", VStr "John")] in
  let step event data (s : result (EventEmitter.t (list string) * list string)) :=
    s ← s;
    match EventEmitter.emit event data s with
    | (Ok _, s') => Ok s'
    | (Throw e, _) => Throw e
    end in
  s ← step "system:startup" VUndefined
        (step "user:logout" john
           (step "user:login" john
              (step "system:startup" VUndefined (Ok subscribed))));
  mret s.2.

Definition observerPattern : method t string :=
  lift (
    messages ← emitted;
    mret ("👁️ Observer Pattern:" +:+ nl +:+
          "Events fired: " +:+ pretty (length messages) +:+ nl +:+
          "Messages:" +:+ nl +:+
          join nl (map (λ msg, "• " +:+ msg) messages))).

(** ** modulePattern *)

(** The private variables of [UserModule]. *)
Record UserModule : Type := {
  users : list value;
  currentId : Z
}.

(** [v.includes(needle)] *)
Definition includes (v : value) (needle : string) : result value :=
  match v with
  | VStr s => Ok (VBool (bool_decide (is_Some (String.index 0 needle s))))
  | VArr items => Ok (VBool (existsb (strict_eq (VStr needle)) items))
  | VUndefined | VNull =>
      Throw (TypeError ("Cannot read properties of " +:+ to_string v +:+
                        " (reading 'includes')"))
  | _ => Throw (TypeError "includes is not a function")
  end.

Definition validateUser (user : value) : result value :=
  name ← get user "name";
  if truthy name then
    email ← get user "email";
    if truthy email then
      email ← get user "email";
      includes email "@"
    else mret email
  else mret name.

(** [create]; [k] numbers the reading of the clock. *)
Definition create (h : Host) (k : nat) (userData : value) (m : UserModule)
  : result value * UserModule :=
  match validateUser userData with
  | Throw e => (Throw e, m)
  | Ok valid =>
      if negb (truthy valid) then (Throw (Error "Invalid user data"), m)
      else
        let id := currentId m in
        let m := {| users := users m; currentId := currentId m + 1 |} in
        let user :=
          VObj (set_prop "createdAt" (VStr (Date_toISOString h k))
                  (spread [("id", VNum id)] (own_props userData))) in
        (Ok user, {| users := users m ++ [user]; currentId := currentId m |})
  end.

Definition user_count (m : UserModule) : nat := length (users m).

(** [findById]; [None] is the [undefined] of [find]. *)
Definition findById (id : value) (m : UserModule) : option value :=
  List.find (λ user, strict_eq (get_own user "id") id) (users m).

Definition modulePattern (h : Host) : method t string :=
  lift (
    let m := {| users := []; currentId := 1 |} in
    let c1 := create h 0 (VObj [("name", VStr "John"); ("email", VStr "john@example.com")]) m in
    user1 ← c1.1;
    let c2 := create h 1 (VObj [("name", VStr "Jane"); ("email", VStr "jane@example.com")]) c1.2 in
    user2 ← c2.1;
    name1 ← get user1 "name"; id1 ← get user1 "id";
    name2 ← get user2 "name"; id2 ← get user2 "id";
    mret ("🏗️ Module Pattern:" +:+ nl +:+
          "Created Users: " +:+ pretty (user_count c2.2) +:+ nl +:+
          "User 1: " +:+ to_string name1 +:+ " (ID: " +:+ to_string id1 +:+ ")" +:+ nl +:+
          "User 2: " +:+ to_string name2 +:+ " (ID: " +:+ to_string id2 +:+ ")" +:+ nl +:+
          "Private state is completely encapsulated!")).

(** ** proxyPattern *)

(** The proxy of [createSmartObject]: its target and the log of its
    closure. *)
Record smart : Type := {
  target : list (string * value);
  accessLog : list string
}.

Definition createSmartObject : smart := {| target := []; accessLog := [] |}.

Definition logged (line : string) (p : smart) : smart :=
  {| target := target p; accessLog := accessLog p ++ [line] |}.

(** What the [get] trap hands back: a property of the target, or the
    function it makes for a name that starts with "is". *)
Inductive got : Type :=
| Property (v : value)
| IsDefined (property : string).

Definition toLowerCase (s : string) : string :=
  string_of_list_ascii
    (map (λ c, let n := N_of_ascii c in
               if ((65 <=? n) && (n <=? 90))%N then ascii_of_N (n + 32) else c)
       (list_ascii_of_string s)).

(** The traps read and write the own properties of the target, a plain
    object: the names that it inherits from [Object.prototype] are not in the
    model. *)
Definition trap_get (prop : string) (p : smart) : got * smart :=
  let p := logged ("GET: " +:+ prop) p in
  if String.prefix "is" prop && bool_decide (2 < String.length prop)%nat
  then (IsDefined (toLowerCase (substring 2 (String.length prop - 2) prop)), p)
  else (Property (default VUndefined (lookup_prop prop (target p))), p).

(** [value < k] and [value > k] against an integer, for the values that
    [to_number] turns into a number as the source does; a string or an array,
    which the source reads as a numeral, compares as [false] here
    ([compares_as_number] below). *)
Definition less_than (v : value) (k : Z) : bool :=
  match to_number v with
  | Some n => n <? k
  | None => false
  end.
Definition greater_than (v : value) (k : Z) : bool :=
  match to_number v with
  | Some n => k <? n
  | None => false
  end.

Definition trap_set (prop : string) (v : value) (p : smart) : result bool * smart :=
  let p := logged ("SET: " +:+ prop +:+ " = " +:+ to_string v) p in
  if String.eqb prop "age" && (less_than v 0 || greater_than v 150)
  then (Throw (Error "Invalid age value"), p)
  else
    match (if String.eqb prop "email"
           then (r ← includes v "@"; mret (negb (truthy r)))
           else mret false) with
    | Throw e => (Throw e, p)
    | Ok true => (Throw (Error "Invalid email format"), p)
    | Ok false =>
        (Ok true, {| target := set_prop prop v (target p); accessLog := accessLog p |})
    end.

Definition trap_has (prop : string) (p : smart) : bool * smart :=
  let p := logged ("HAS: " +:+ prop) p in
  (bool_decide (is_Some (lookup_prop prop (target p))), p).

(** [smartUser.isName()]: a call of what the [get] trap handed back. *)
Definition call_got (g : got) (p : smart) : result value :=
  match g with
  | IsDefined property =>
      Ok (VBool (negb (strict_eq (default VUndefined (lookup_prop property (target p)))
                         VUndefined)))
  | Property _ => Throw (TypeError "smartUser.isName is not a function")
  end.

(** What a template literal prints for it: a function prints its source
    text. *)
Definition got_to_string (g : got) : string :=
  match g with
  | Property v => to_string v
  | IsDefined _ => "() => obj[property] !== undefined"
  end.

(** [log.slice(-3).join(", ")] *)
Definition slice_join (log : got) : result string :=
  match log with
  | Property (VArr items) => Ok (array_join ", " (drop (length items - 3) items))
  | Property ((VUndefined | VNull) as v) =>
      Throw (TypeError ("Cannot read properties of " +:+ to_string v +:+
                        " (reading 'slice')"))
  | Property (VStr _) => Throw (TypeError "log.slice(...).join is not a function")
  | _ => Throw (TypeError "log.slice is not a function")
  end.

(** [log.length]; the function of the trap takes no parameter. *)
Definition length_of (log : got) : result value :=
  match log with
  | Property v => get v "length"
  | IsDefined _ => Ok (VNum 0)
  end.

Definition proxyPattern : method t string :=
  lift (
    let smartUser := createSmartObject in
    let s1 := trap_set "name" (VStr "John") smartUser in
    _ ← s1.1;
    let s2 := trap_set "age" (VNum 30) s1.2 in
    _ ← s2.1;
    let s3 := trap_set "email" (VStr "john@example.com") s2.2 in
    _ ← s3.1;
    let h := trap_has "name" s3.2 in
    let hasName := h.1 in
    let g := trap_get "isName" h.2 in
    isName ← call_got g.1 g.2;
    let l := trap_get "accessLog" g.2 in
    let log := l.1 in
    let n := trap_get "name" l.2 in
    let userName := n.1 in
    recent ← slice_join log;
    total ← length_of log;
    mret ("🎭 Proxy Pattern:" +:+ nl +:+
          "User Name: " +:+ got_to_string userName +:+ nl +:+
          "Has Name: " +:+ bool_to_string hasName +:+ nl +:+
          "Is Name (dynamic): " +:+ to_string isName +:+ nl +:+
          "Access Log: " +:+ recent +:+ nl +:+
          "Total Operations: " +:+ to_string total)).

Definition getSourceCode : string :=
  "
// Advanced JavaScript Patterns

// 1. Closures for Privacy
const createCounter = (initialValue = 0) => {
    let count = initialValue; // Private variable
    let history = [];
    
    return {
        increment: (step = 1) => {
            count += step;
            history.push(`+${step}`);
            return count;
        },
        getValue: () => count,
        getHistory: () => [...history] // Return copy
    };
};

// 2. Memoization Pattern
const memoize = (fn, keyGenerator = (...args) => JSON.stringify(args)) => {
    const cache = new Map();
    return (...args) => {
        const key = keyGenerator(...args);
        if (cache.has(key)) return cache.get(key);
        const result = fn(...args);
        cache.set(key, result);
        return result;
    };
};

// 3. Observer Pattern
class EventEmitter {
    constructor() { this.events = new Map(); }
    
    on(event, callback) {
        if (!this.events.has(event)) this.events.set(event, []);
        this.events.get(event).push(callback);
    }
    
    emit(event, data) {
        const callbacks = this.events.get(event) || [];
        callbacks.forEach(callback => callback(data));
    }
}

// 4. Module Pattern
const UserModule = (() => {
    let users = []; // Private
    
    return {
        create(userData) { /* public method */ },
        findById(id) { /* public method */ }
    };
})();

// 5. Proxy Pattern
const smartObject = new Proxy(target, {
    get(obj, prop) { /* intercept property access */ },
    set(obj, prop, value) { /* intercept property setting */ }
});
        ".

Definition run (h : Host) : method t value :=
  e1 ← closuresAndPrivacy;
  e2 ← memoizationPattern;
  e3 ← observerPattern;
  e4 ← modulePattern h;
  e5 ← proxyPattern;
  let examples := [VStr e1; VStr e2; VStr e3; VStr e4; VStr e5] in
  let output := array_join (nl +:+ nl) examples in
  mret (VObj [("output", VStr output); ("code", VStr getSourceCode)]).

End AdvancedPatternsDemo.

(** * modules/performance.js *)

(** ** Timers: [setTimeout], [clearTimeout] and the event loop

    Time is in milliseconds.  Synchronous code runs to its end while time
    passes; the loop then runs the timers that are due, the earliest first and
    in the order they were set among equals.  A callback gets the time at which
    it runs and works on the state [W] of the program: it sets no timer. *)
Module Timers.
Section Timers.
Context {W : Type}.

Record timer : Type := {
  id : nat;
  due : nat;
  callback : nat → W → W
}.

(** [pending] is in the order the loop will run it. *)
Record t : Type := {
  now : nat;
  next_id : nat;
  pending : list timer
}.

Definition new : t := {| now := 0; next_id := 1; pending := [] |}.

Fixpoint enqueue (tm : timer) (q : list timer) : list timer :=
  match q with
  | [] => [tm]
  | x :: r => if (due x <=? due tm)%nat then x :: enqueue tm r else tm :: x :: r
  end.

Definition setTimeout (cb : nat → W → W) (delay : nat) (l : t) : nat * t :=
  (next_id l,
   {| now := now l;
      next_id := S (next_id l);
      pending := enqueue {| id := next_id l; due := now l + delay; callback := cb |}
                   (pending l) |}).

(** [clearTimeout(handle)]; the handle is [undefined] before the first
    [setTimeout], and the handle of a timer that has run clears nothing. *)
Definition clearTimeout (handle : option nat) (l : t) : t :=
  match handle with
  | None => l
  | Some i =>
      {| now := now l;
         next_id := next_id l;
         pending := filter (λ tm, id tm ≠ i) (pending l) |}
  end.

(** Time that passes while synchronous code runs: no timer runs. *)
Definition busy (dt : nat) (l : t) : t :=
  {| now := now l + dt; next_id := next_id l; pending := pending l |}.

Fixpoint fire_until (limit : nat) (q : list timer) (time : nat) (w : W)
  : list timer * nat * W :=
  match q with
  | tm :: r =>
      if (due tm <=? limit)%nat
      then fire_until limit r (Nat.max time (due tm))
             (callback tm (Nat.max time (due tm)) w)
      else (q, time, w)
  | [] => ([], time, w)
  end.

(** The loop is idle for [dt] milliseconds: the timers due by then run. *)
Definition idle (dt : nat) (s : t * W) : t * W :=
  match fire_until (now s.1 + dt) (pending s.1) (now s.1) s.2 with
  | (q, time, w) =>
      ({| now := now s.1 + dt; next_id := next_id s.1; pending := q |}, w)
  end.

Fixpoint fire_through (handle : nat) (q : list timer) (time : nat) (w : W)
  : list timer * nat * W :=
  match q with
  | tm :: r =>
      let time' := Nat.max time (due tm) in
      if decide (id tm = handle) then (r, time', callback tm time' w)
      else fire_through handle r time' (callback tm time' w)
  | [] => ([], time, w)
  end.

(** [await] of a promise that the timer [handle] resolves: the loop runs
    the timers up to that one. *)
Definition await_timer (handle : nat) (s : t * W) : t * W :=
  match fire_through handle (pending s.1) (now s.1) s.2 with
  | (q, time, w) => ({| now := time; next_id := next_id s.1; pending := q |}, w)
  end.

(** The loop runs until no timer is left. *)
Definition drain (s : t * W) : t * W :=
  match fold_left (λ acc tm, let time := Nat.max acc.1 (due tm) in
                             (time, callback tm time acc.2))
          (pending s.1) (now s.1, s.2) with
  | (time, w) => ({| now := time; next_id := next_id s.1; pending := [] |}, w)
  end.

(** ** [debounce] and [throttle]

    [debounce(func, wait)] keeps the handle [timeout] in its closure; the
    function it returns takes the arguments [args] of type [A]. *)
Definition debounced {A} (func : A → nat → W → W) (wait : nat) (args : A)
    (timeout : option nat) (l : t) : option nat * t :=
  let l := clearTimeout timeout l in
  match setTimeout (func args) wait l with
  | (handle, l) => (Some handle, l)
  end.

End Timers.
Arguments timer : clear implicits.
Arguments t : clear implicits.
End Timers.

Module PerformanceDemo.

Record user : Type := {
  id : Z;
  name : string;
  score : Q;
  active : bool
}.

Record t : Type := { testData : list user }.

(** [Array.from({ length: 10000 }, ...)]: two random numbers an element; the
    product with 100 is kept exact. *)
Definition constructor (h : Host) : t :=
  {| testData :=
       map (λ i, {| id := Z.of_nat i;
                    name := "User " +:+ pretty i;
                    score := (Math_random h (2 * i) * 100)%Q;
                    active := negb (Qle_bool (Math_random h (2 * i + 1)) (1 # 2)) |})
         (seq 0 10000) |}.

(** ** debouncingThrottling *)

(** The variables of the method that its closures share. *)
Record sim : Type := {
  debounceCount : Z;
  throttleCount : Z;
  directCount : Z;
  inThrottle : bool
}.

(** The method at work: the loop, the shared variables and the handle in
    the closure of [debounce]. *)
Definition world : Type := Timers.t sim * sim * option nat.

Definition expensiveOperation (w : sim) : sim :=
  {| debounceCount := debounceCount w; throttleCount := throttleCount w;
     directCount := directCount w + 1; inThrottle := inThrottle w |}.

(** [() => debounceCount++], as the timer of [debounce] runs it. *)
Definition count_debounced (_ : unit) (_ : nat) (w : sim) : sim :=
  {| debounceCount := debounceCount w + 1; throttleCount := throttleCount w;
     directCount := directCount w; inThrottle := inThrottle w |}.

Definition debouncedOperation (s : world) : world :=
  match Timers.debounced count_debounced 100 () s.2 s.1.1 with
  | (timeout, l) => (l, s.1.2, timeout)
  end.

(** [() => (inThrottle = false)] *)
Definition release_throttle (_ : nat) (w : sim) : sim :=
  {| debounceCount := debounceCount w; throttleCount := throttleCount w;
     directCount := directCount w; inThrottle := false |}.

(** The function [throttle(() => throttleCount++, 100)] returns. *)
Definition throttledOperation (s : world) : world :=
  let w := s.1.2 in
  if inThrottle w then s
  else
    let w := {| debounceCount := debounceCount w;
                throttleCount := throttleCount w + 1;
                directCount := directCount w; inThrottle := true |} in
    (( (Timers.setTimeout release_throttle 100 s.1.1).2, w), s.2).

(** One turn of [rapidCalls.forEach], [dt] milliseconds after the one
    before. *)
Definition rapid_call (dt : nat) (s : world) : world :=
  let s := ((Timers.busy dt s.1.1, expensiveOperation s.1.2), s.2) in
  throttledOperation (debouncedOperation s).

(** The method up to the end of its [await]. *)
Definition simulation (h : Host) : sim :=
  let start : world :=
    ((Timers.new,
      {| debounceCount := 0; throttleCount := 0; directCount := 0;
         inThrottle := false |}), None) in
  let s := fold_left (λ s i, rapid_call (elapsed h i) s) (seq 0 50) start in
  let l := Timers.busy (elapsed h 50) s.1.1 in
  match Timers.setTimeout (λ _ w, w) 150 l with
  | (resolve, l) => (Timers.await_timer resolve (l, s.1.2)).2
  end.

Definition debouncingThrottling (h : Host) : method t string :=
  let w := simulation h in
  let improvement :=
    Math_round ((1 - float_of_Z (debounceCount w) / float_of_Z (directCount w)) * 100)%float in
  mret ("⚡ Debouncing & Throttling:" +:+ nl +:+
        "Direct calls: " +:+ pretty (directCount w) +:+ nl +:+
        "Debounced calls: " +:+ pretty (debounceCount w) +:+ nl +:+
        "Throttled calls: " +:+ pretty (throttleCount w) +:+ nl +:+
        "Performance improvement: " +:+ float_to_string h improvement +:+ "%").

(** ** lazyEvaluation *)

(** The generators, by the sequence they yield when all of it is asked for;
    the predicates and mappers here have no effect. *)
Definition lazyFilter {A} (iterable : list A) (predicate : A → bool) : list A :=
  List.filter predicate iterable.
Definition lazyMap {A B} (iterable : list A) (mapper : A → B) : list B :=
  map mapper iterable.

(** The [for ... of] loop that stops at five results. *)
Fixpoint first_five {A} (iterable : list A) (count : Z) (lazyResult : list A) : list A :=
  match iterable with
  | [] => lazyResult
  | score :: rest =>
      if 5 <=? count then lazyResult
      else first_five rest (count + 1) (lazyResult ++ [score])
  end.

(** [JSON.stringify] of an array of numbers. *)
Definition stringify_numbers (h : Host) (l : list Q) : string :=
  "[" +:+ join "," (map (number_to_string h) l) +:+ "]".

(** [k] is the number of readings of the clock before the method. *)
Definition lazyEvaluation (h : Host) (k : nat) : method t string :=
  data ← read testData;
  let start := performance_now h k in
  let eagerResult :=
    take 5 (map (λ user, (score user * 2)%Q) (List.filter active data)) in
  let eagerTime := (performance_now h (k + 1) - start)%float in
  let lazyStart := performance_now h (k + 2) in
  let lazySequence := lazyFilter data active in
  let lazyMapped := lazyMap lazySequence (λ user, (score user * 2)%Q) in
  let lazyResult := first_five lazyMapped 0 [] in
  let lazyTime := (performance_now h (k + 3) - lazyStart)%float in
  mret ("🔄 Lazy Evaluation:" +:+ nl +:+
        "Eager time: " +:+ toFixed h eagerTime 3 +:+ "ms" +:+ nl +:+
        "Lazy time: " +:+ toFixed h lazyTime 3 +:+ "ms" +:+ nl +:+
        "Performance gain: " +:+
          float_to_string h (Math_round (((eagerTime - lazyTime) / eagerTime) * 100)%float) +:+
          "%" +:+ nl +:+
        "Results match: " +:+
          bool_to_string (String.eqb (stringify_numbers h (take 2 eagerResult))
                            (stringify_numbers h (take 2 lazyResult)))).

(** ** memoryOptimization *)

(** The class [ObjectPool], at the objects of [userPool]. *)
Record pooled : Type := {
  pooled_id : Z;
  pooled_name : string;
  pooled_score : Z;
  pooled_active : bool
}.

Definition createFn : pooled :=
  {| pooled_id := 0; pooled_name := ""; pooled_score := 0; pooled_active := false |}.

Definition resetFn (obj : pooled) : pooled :=
  {| pooled_id := 0; pooled_name := ""; pooled_score := 0; pooled_active := false |}.

Definition ObjectPool (initialSize : nat) : list pooled := replicate initialSize createFn.

(** [pop] takes the last element. *)
Definition acquire (pool : list pooled) : pooled * list pooled :=
  match rev pool with
  | obj :: rest => (obj, rev rest)
  | [] => (createFn, pool)
  end.

Definition release (obj : pooled) (pool : list pooled) : list pooled :=
  pool ++ [resetFn obj].

Definition pool_size (pool : list pooled) : nat := length pool.

Definition memoryOptimization : method t string :=
  let userPool := ObjectPool 10 in
  let acquired :=
    fold_left
      (λ (acc : list pooled * list pooled) (i : nat),
         match acquire acc.1 with
         | (obj, pool) =>
             let obj := {| pooled_id := Z.of_nat i;
                           pooled_name := "Pooled User " +:+ pretty i;
                           pooled_score := pooled_score obj;
                           pooled_active := pooled_active obj |} in
             (pool, acc.2 ++ [obj])
         end)
      (seq 0 5) (userPool, []) in
  let pooledObjects := acquired.2 in
  let userPool := fold_left (λ pool obj, release obj pool) pooledObjects acquired.1 in
  mret ("💾 Memory Optimization:" +:+ nl +:+
        "Object Pool Size: " +:+ pretty (pool_size userPool) +:+ nl +:+
        "WeakMap Cache: Automatic garbage collection" +:+ nl +:+
        "Memory-efficient patterns implemented" +:+ nl +:+
        "Pool reuse: " +:+ pretty (length pooledObjects) +:+ " objects recycled").

(** ** algorithmOptimization *)

(** [sort((a, b) => a.score - b.score)]: the sort is stable, so that its
    result is the one of insertion at the last place in order. *)
Fixpoint insert_sorted (u : user) (l : list user) : list user :=
  match l with
  | [] => [u]
  | x :: r =>
      if Qle_bool (score x) (score u) then x :: insert_sorted u r else u :: x :: r
  end.

Definition sort_by_score (l : list user) : list user :=
  fold_left (λ acc u, insert_sorted u acc) l [].

(** [arr[i].score]: an index outside the array gives [undefined], whose
    property cannot be read. *)
Definition score_at (arr : list user) (i : Z) : result Q :=
  match (if i <? 0 then None else arr !! Z.to_nat i) with
  | Some u => Ok (score u)
  | None => Throw (TypeError "Cannot read properties of undefined (reading 'score')")
  end.

(** The [while] loop of [binarySearch].  [n] bounds the width of the window
    from [left] to [right]: at 0 the window is empty and the loop is over. *)
Fixpoint binarySearch_loop (n : nat) (arr : list user) (target : Q) (left right : Z)
  : result (option user) :=
  match n with
  | O => Ok None
  | S n' =>
      if left <=? right then
        let mid := (left + right) / 2 in
        at_mid ← score_at arr mid;
        if Qle_bool target at_mid then
          first ← (if mid =? 0 then Ok true
                   else (before ← score_at arr (mid - 1);
                         mret (negb (Qle_bool target before))));
          if first : bool then Ok (arr !! Z.to_nat mid)
          else binarySearch_loop n' arr target left (mid - 1)
        else binarySearch_loop n' arr target (mid + 1) right
      else Ok None
  end.

(** [binarySearch]; [None] is the [null] it returns. *)
Definition binarySearch (arr : list user) (target : Q) : result (option user) :=
  binarySearch_loop (length arr) arr target 0 (Z.of_nat (length arr) - 1).

(** [arr.find((user) => user.score >= target)]; [None] is its [undefined]. *)
Definition linearSearch (arr : list user) (target : Q) : option user :=
  List.find (λ user, Qle_bool target (score user)) arr.

(** The [Map] from the floor of a score to the users that have it. *)
Definition scoreMap (sortedData : list user) : gmap Z (list user) :=
  fold_left
    (λ m user,
       let scoreKey := Qfloor (score user) in
       <[scoreKey := default [] (m !! scoreKey) ++ [user]]> m)
    sortedData ∅.

Definition algorithmOptimization (h : Host) (k : nat) : method t string :=
  data ← read testData;
  let sortedData := sort_by_score data in
  let targetScore := 50%Q in
  let linearStart := performance_now h k in
  let linearResult := linearSearch sortedData targetScore in
  let linearTime := (performance_now h (k + 1) - linearStart)%float in
  let binaryStart := performance_now h (k + 2) in
  lift (
    binaryResult ← binarySearch sortedData targetScore;
    let binaryTime := (performance_now h (k + 3) - binaryStart)%float in
    let hashStart := performance_now h (k + 4) in
    let hashResult :=
      (scoreMap sortedData !! Qfloor targetScore) ≫= head in
    let hashTime := (performance_now h (k + 5) - hashStart)%float in
    mret ("🚀 Algorithm Optimization:" +:+ nl +:+
          "Linear Search: " +:+ toFixed h linearTime 4 +:+ "ms" +:+ nl +:+
          "Binary Search: " +:+ toFixed h binaryTime 4 +:+ "ms" +:+ nl +:+
          "Hash Lookup: " +:+ toFixed h hashTime 4 +:+ "ms" +:+ nl +:+
          "Binary vs Linear: " +:+
            float_to_string h (Math_round (linearTime / binaryTime)%float) +:+
            "x faster" +:+ nl +:+
          "Hash Map: " +:+
            float_to_string h (Math_round (linearTime / hashTime)%float) +:+
            "x faster")).

(** An [async] method that [run] calls and does not await: [run] holds its
    promise, still pending, and never reads what it settles to. *)
Definition asyncOptimization : method t value := mret VPromise.

Definition getSourceCode : string :=
  "
// Performance Optimization Patterns

// 1. Debouncing & Throttling
const debounce = (func, wait) => {
    let timeout;
    return (...args) => {
        clearTimeout(timeout);
        timeout = setTimeout(() => func.apply(this, args), wait);
    };
};

const throttle = (func, limit) => {
    let inThrottle;
    return (...args) => {
        if (!inThrottle) {
            func.apply(this, args);
            inThrottle = true;
            setTimeout(() => inThrottle = false, limit);
        }
    };
};

// 2. Lazy Evaluation
function* lazyMap(iterable, mapper) {
    for (const item of iterable) {
        yield mapper(item);
    }
}

function* lazyFilter(iterable, predicate) {
    for (const item of iterable) {
        if (predicate(item)) yield item;
    }
}

// 3. Object Pooling
class ObjectPool {
    constructor(createFn, resetFn, initialSize = 10) {
        this.createFn = createFn;
        this.resetFn = resetFn;
        this.pool = [];
        for (let i = 0; i < initialSize; i++) {
            this.pool.push(this.createFn());
        }
    }
    
    acquire() {
        return this.pool.length > 0 ? this.pool.pop() : this.createFn();
    }
    
    release(obj) {
        this.resetFn(obj);
        this.pool.push(obj);
    }
}

// 4. Binary Search Optimization
const binarySearch = (arr, target) => {
    let left = 0, right = arr.length - 1;
    while (left <= right) {
        const mid = Math.floor((left + right) / 2);
        if (arr[mid] === target) return mid;
        arr[mid] < target ? left = mid + 1 : right = mid - 1;
    }
    return -1;
};

// 5. Parallel Async Processing
const results = await Promise.all([
    asyncOperation1(),
    asyncOperation2(),
    asyncOperation3()
]);
        ".

Definition run (h : Host) : method t value :=
  e1 ← debouncingThrottling h;
  e2 ← lazyEvaluation h 0;
  e3 ← memoryOptimization;
  e4 ← algorithmOptimization h 4;
  e5 ← asyncOptimization;
  let examples := [VStr e1; VStr e2; VStr e3; VStr e4; e5] in
  let output := array_join (nl +:+ nl) examples in
  mret (VObj [("output", VStr output); ("code", VStr getSourceCode)]).

End PerformanceDemo.

(** * The page *)

Module DOM.

Record element : Type := {
  innerHTML : string;
  classList : list string;
  dataset : gmap string string
}.

(** The elements of the document that have an [id], by it. *)
Abbreviation document := (gmap string element).

Definition set_innerHTML (html : string) (el : element) : element :=
  {| innerHTML := html; classList := classList el; dataset := dataset el |}.

(** [classList.contains], [classList.add] and [classList.remove] *)
Definition contains (class : string) (el : element) : bool :=
  bool_decide (class ∈ classList el).

Definition add_class (class : string) (el : element) : element :=
  {| innerHTML := innerHTML el;
     classList := if contains class el then classList el else classList el ++ [class];
     dataset := dataset el |}.

Definition remove_class (class : string) (el : element) : element :=
  {| innerHTML := innerHTML el;
     classList := filter (λ c, c ≠ class) (classList el);
     dataset := dataset el |}.

(** What an assignment to [innerHTML] stores of a value: its string, and ""
    for [null]. *)
Definition html_of (v : value) : string :=
  match v with
  | VNull => ""
  | _ => to_string v
  end.

End DOM.

(** * modules/codeDisplay.js *)

Module CodeDisplayManager.

(** [codeDisplay] is the element that the constructor found, kept by its
    id, or [None] for [null]. *)
Record t : Type := {
  codeDisplay : option string;
  currentCode : value
}.

Definition constructor (doc : DOM.document) : t :=
  {| codeDisplay := match doc !! "code-display" with
                    | Some _ => Some "code-display"
                    | None => None
                    end;
     currentCode := VStr "" |}.

Section Show.
(** The chain of [replace] calls with regular expressions in
    [highlightSyntax], as a function on the text. *)
Variable highlight : string → string.

Definition highlightSyntax (this : t) (doc : DOM.document) : result DOM.document :=
  match codeDisplay this with
  | None => Ok doc
  | Some id =>
      match currentCode this with
      | VStr code => Ok (alter (DOM.set_innerHTML (highlight code)) id doc)
      | VUndefined | VNull =>
          Throw (TypeError ("Cannot read properties of " +:+
                            to_string (currentCode this) +:+ " (reading 'replace')"))
      | _ => Throw (TypeError "this.currentCode.replace is not a function")
      end
  end.

(** [show(code, feature)]: the text set through [textContent] is replaced
    at once by the markup of [highlightSyntax]; the scrolling changes
    nothing that is kept here. *)
Definition show (code : value) (feature : string) (this : t) (doc : DOM.document)
  : result unit * (t * DOM.document) :=
  match codeDisplay this with
  | None => (Ok (), (this, doc))
  | Some id =>
      let this := {| codeDisplay := codeDisplay this; currentCode := code |} in
      let doc := alter (DOM.set_innerHTML (DOM.html_of code)) id doc in
      match highlightSyntax this doc with
      | Ok doc => (Ok (), (this, doc))
      | Throw e => (Throw e, (this, doc))
      end
  end.
End Show.

End CodeDisplayManager.

(** * script.js: the dashboard *)

Module FeatureDashboard.

(** A click: what the handler reads of [event.target]. *)
Record event : Type := { target : DOM.element }.

Section Dashboard.
(** The dashboard asks one thing of a demo: a method [run] without
    arguments.  [Demo] is the type of the instances, fields included. *)
Context {Demo : Type}.
Variable run : Host → method Demo value.
Variable highlight : string → string.

(** The fields of the dashboard, and around them what its methods reach:
    the document, the console, and the timers that take the highlight off
    again (by the id of their element).  [dispatched] is not in the
    source: it lists the actions whose demo was run, oldest first. *)
Record t : Type := {
  demos : gmap string Demo;
  codeDisplay : CodeDisplayManager.t;
  document : DOM.document;
  console : list (string * exn);
  timers : list string;
  dispatched : list string
}.

Definition output_id (action : string) : string := action +:+ "-output".

Definition set_document (doc : DOM.document) (st : t) : t :=
  {| demos := demos st; codeDisplay := codeDisplay st; document := doc;
     console := console st; timers := timers st; dispatched := dispatched st |}.

(** [handleError]; it throws when the output element is missing. *)
Definition handleError (action : string) (error : exn) (st : t) : result unit * t :=
  match document st !! output_id action with
  | None =>
      (Throw (TypeError "Cannot set properties of null (setting 'innerHTML')"), st)
  | Some _ =>
      let html :=
        "<span class=" +:+ dq +:+ "error" +:+ dq +:+ ">Error: " +:+
        message error +:+ "</span>" in
      let st :=
        set_document (alter (DOM.set_innerHTML html) (output_id action) (document st)) st in
      (Ok (),
       {| demos := demos st; codeDisplay := codeDisplay st; document := document st;
          console := console st ++ [("Demo " +:+ action +:+ " failed:", error)];
          timers := timers st; dispatched := dispatched st |})
  end.

(** The body of [try] in [runDemo], after [demo.run()] has resolved. *)
Definition render (action : string) (res : value) (st : t) : result unit * t :=
  match document st !! output_id action with
  | None =>
      match get res "output" with
      | Throw e => (Throw e, st)
      | Ok _ =>
          (Throw (TypeError "Cannot set properties of null (setting 'innerHTML')"), st)
      end
  | Some _ =>
      match get res "output" with
      | Throw e => (Throw e, st)
      | Ok output =>
          let st :=
            set_document
              (alter (DOM.set_innerHTML (DOM.html_of output)) (output_id action)
                 (document st)) st in
          match get res "code" with
          | Throw e => (Throw e, st)
          | Ok code =>
              match CodeDisplayManager.show highlight code action
                      (codeDisplay st) (document st) with
              | (Throw e, (cd, doc)) =>
                  (Throw e,
                   {| demos := demos st; codeDisplay := cd; document := doc;
                      console := console st; timers := timers st;
                      dispatched := dispatched st |})
              | (Ok _, (cd, doc)) =>
                  (Ok (),
                   {| demos := demos st; codeDisplay := cd;
                      document := alter (DOM.add_class "highlight") (output_id action) doc;
                      console := console st;
                      timers := timers st ++ [output_id action];
                      dispatched := dispatched st |})
              end
          end
      end
  end.

(** [runDemo(action, demo)]: the promise it returns, its demo as the run
    left it, and the dashboard. *)
Definition runDemo (h : Host) (action : string) (demo : Demo) (st : t)
  : result unit * Demo * t :=
  let st := {| demos := demos st; codeDisplay := codeDisplay st;
               document := document st; console := console st;
               timers := timers st; dispatched := dispatched st ++ [action] |} in
  match run h demo with
  | (Ok res, demo') =>
      match render action res st with
      | (Ok _, st) => (Ok (), demo', st)
      | (Throw error, st) =>
          match handleError action error st with
          | (r, st) => (r, demo', st)
          end
      end
  | (Throw error, demo') =>
      match handleError action error st with
      | (r, st) => (r, demo', st)
      end
  end.

(** [handleDemoClick]: the promise of [runDemo] is dropped. *)
Definition handleDemoClick (h : Host) (ev : event) (st : t) : t :=
  if negb (DOM.contains "demo-btn" (target ev)) then st
  else
    match DOM.dataset (target ev) !! "action" with
    | None => st
    | Some action =>
        match demos st !! action with
        | None => st
        | Some demo =>
            match runDemo h action demo st with
            | (_, demo', st) =>
                {| demos := <[action := demo']> (demos st);
                   codeDisplay := codeDisplay st; document := document st;
                   console := console st; timers := timers st;
                   dispatched := dispatched st |}
            end
        end
    end.

(** [debounce(func, wait)] is the function of [Timers.debounced]: the code
    is the one of the performance demo. *)
End Dashboard.
Arguments t : clear implicits.

End FeatureDashboard.

(** * The demos of the dashboard *)

(** An instance of one of the six classes. *)
Inductive demo : Type :=
| Destructuring (d : DestructuringDemo.t)
| SpreadRest (d : SpreadRestDemo.t)
| ArrowFunction (d : ArrowFunctionDemo.t)
| TemplateLiteral (d : TemplateLiteralDemo.t)
| AdvancedPatterns (d : AdvancedPatternsDemo.t)
| Performance (d : PerformanceDemo.t).

Definition within {S A} (wrap : S → demo) (m : method S A) (s : S) : result A * demo :=
  match m s with
  | (r, s') => (r, wrap s')
  end.

(** [demo.run()] *)
Definition run (h : Host) : method demo value :=
  λ d,
    match d with
    | Destructuring d => within Destructuring DestructuringDemo.run d
    | SpreadRest d => within SpreadRest (SpreadRestDemo.run h) d
    | ArrowFunction d => within ArrowFunction (ArrowFunctionDemo.run h) d
    | TemplateLiteral d => within TemplateLiteral TemplateLiteralDemo.run d
    | AdvancedPatterns d => within AdvancedPatterns (AdvancedPatternsDemo.run h) d
    | Performance d => within Performance (PerformanceDemo.run h) d
    end.

(** The map that the constructor of the dashboard builds; [h] is the
    environment at that time. *)
Definition registered (h : Host) : gmap string demo :=
  list_to_map
    [("destructuring", Destructuring DestructuringDemo.constructor);
     ("spread-rest", SpreadRest SpreadRestDemo.constructor);
     ("arrow-functions", ArrowFunction ArrowFunctionDemo.constructor);
     ("template-literals", TemplateLiteral TemplateLiteralDemo.constructor);
     ("advanced-patterns", AdvancedPatterns AdvancedPatternsDemo.constructor);
     ("performance", Performance (PerformanceDemo.constructor h))].

(** The dashboard as its constructor leaves it on the document [doc], before
    the welcome message is shown. *)
Definition dashboard (h : Host) (doc : DOM.document) : FeatureDashboard.t demo :=
  {| FeatureDashboard.demos := registered h;
     FeatureDashboard.codeDisplay := CodeDisplayManager.constructor doc;
     FeatureDashboard.document := doc;
     FeatureDashboard.console := [];
     FeatureDashboard.timers := [];
     FeatureDashboard.dispatched := [] |}.

(** * Specifications

    What the properties below are stated with. *)

(** A method that leaves the fields of its instance as they were. *)
Definition preserves {S A} (m : method S A) : Prop := ∀ s, (m s).2 = s.

(** What [handleError] writes for an error with the message [msg]. *)
Definition error_html (msg : string) : string :=
  "<span class=" +:+ dq +:+ "error" +:+ dq +:+ ">Error: " +:+ msg +:+ "</span>".

(** A button of the page that carries [data-action]. *)
Definition demo_button (action : string) : FeatureDashboard.event :=
  {| FeatureDashboard.target :=
       {| DOM.innerHTML := "Run"; DOM.classList := ["demo-btn"];
          DOM.dataset := {["action" := action]} |} |}.

(** An environment to run the examples in. *)
Definition sample_host : Host :=
  {| Date_toISOString := λ _, "2024-01-01T00:00:00.000Z";
     Date_now := λ _, 1704067200000;
     performance_now := λ k, float_of_Z (Z.of_nat k);
     Math_random := λ k, (Z.of_nat (k mod 10) # 10)%Q;
     Number_toString := λ _, "0.5";
     elapsed := λ _, 0%nat |}.

(** The error of [proxyPattern]. *)
Definition slice_of_undefined : exn :=
  TypeError "Cannot read properties of undefined (reading 'slice')".

(** ** Memoization *)

(** The object that a memoized function returns. *)
Definition memo_result (r : value) (cached : bool) : value :=
  VObj [("result", r); ("cached", VBool cached)].

(** A function that counts its calls. *)
Definition counted_square (n : Z) (count : nat) : result value * nat :=
  (Ok (VNum (n * n)), S count).

(** ** The emitter *)











(** ** Binary search *)

(** Non-decreasing order of score. *)
Definition by_score (a b : PerformanceDemo.user) : Prop :=
  (PerformanceDemo.score a <= PerformanceDemo.score b)%Q.

(** [user.score >= target] *)
Definition reaches (target : Q) (u : PerformanceDemo.user) : bool :=
  Qle_bool target (PerformanceDemo.score u).

(** A user with the score [s]. *)
Definition scored (s : Q) : PerformanceDemo.user :=
  {| PerformanceDemo.id := 0; PerformanceDemo.name := "User";
     PerformanceDemo.score := s; PerformanceDemo.active := true |}.

(** ** A script of calls to a debounced function

    Each call comes [gap] milliseconds after the one before (the first, after
    the start), the loop being idle in between; after the last call the loop
    runs until no timer is left. *)
Definition debounce_step {A W} (func : A → nat → W → W) (wait : nat)
    (s : Timers.t W * W * option nat) (call : nat * A) : Timers.t W * W * option nat :=
  let s' := Timers.idle call.1 s.1 in
  let d := Timers.debounced func wait call.2 s.2 s'.1 in
  (d.2, s'.2, d.1).

Definition debounce_script {A W} (func : A → nat → W → W) (wait : nat)
    (calls : list (nat * A)) (w : W) : W :=
  (Timers.drain (fold_left (debounce_step func wait) calls (Timers.new, w, None)).1).2.

(** In the words of the claim: the call made at the time [t] runs [func],
    [wait] milliseconds later, when no further call has come by then; the
    calls [rest] follow it. *)
Fixpoint runs_after {A} (wait t : nat) (args : A) (rest : list (nat * A)) : list (nat * A) :=
  match rest with
  | [] => [((t + wait)%nat, args)]
  | (gap, args') :: rest' =>
      (if (wait <=? gap)%nat then [((t + wait)%nat, args)] else []) ++
      runs_after wait (t + gap) args' rest'
  end.

Definition runs {A} (wait : nat) (calls : list (nat * A)) : list (nat * A) :=
  match calls with
  | [] => []
  | (gap, args) :: rest => runs_after wait gap args rest
  end.

(** The time and the arguments of the last call of a script. *)
Fixpoint last_call {A} (t : nat) (args : A) (rest : list (nat * A)) : nat * A :=
  match rest with
  | [] => (t, args)
  | (gap, args') :: rest' => last_call (t + gap) args' rest'
  end.

(** A function that logs its runs. *)
Definition logging (args : Z) (time : nat) (log : list (nat * Z)) : list (nat * Z) :=
  log ++ [(time, args)].

(** The shared variables of [debouncingThrottling] after [k] rapid calls,
    before any timer has run. *)
Definition counted (k : Z) : PerformanceDemo.sim :=
  {| PerformanceDemo.debounceCount := 0; PerformanceDemo.throttleCount := 1;
     PerformanceDemo.directCount := k; PerformanceDemo.inThrottle := true |}.

(** The method between two rapid calls: the timer of [throttle] and the
    latest timer of [debounce] are pending, in one order or the other, both
    due within 100 ms. *)
Definition between_calls (k : Z) (s : PerformanceDemo.world) : Prop :=
  ∃ (l : Timers.t PerformanceDemo.sim) (deb thr : Timers.timer PerformanceDemo.sim),
    s = ((l, counted k), Some (Timers.id deb))
    ∧ (Timers.pending l = [thr; deb] ∨ Timers.pending l = [deb; thr])
    ∧ Timers.callback deb = PerformanceDemo.count_debounced ()
    ∧ Timers.callback thr = PerformanceDemo.release_throttle
    ∧ (Timers.due deb ≤ Timers.now l + 100)%nat
    ∧ (Timers.due thr ≤ Timers.now l + 100)%nat
    ∧ (Timers.id deb < Timers.next_id l)%nat
    ∧ (Timers.id thr < Timers.next_id l)%nat
    ∧ Timers.id thr ≠ Timers.id deb.

(** ** The dashboard without its output element *)

(** The error of an assignment to [innerHTML] of [null]. *)
Definition null_innerHTML : exn :=
  TypeError "Cannot set properties of null (setting 'innerHTML')".

(** ** Paths and quotes *)

(** The value that [extractProperties] finds at the dotted path [p]. *)
Definition at_path (obj : value) (p : string) : value :=
  fold_left get_opt (split_on "." p) obj.

(** A text in which every single quote is followed by one more, the two
    read as one quote of an SQL string. *)
Fixpoint quotes_paired (s : string) : bool :=
  match s with
  | EmptyString => true
  | String c r =>
      if Ascii.eqb c "'" then
        match r with
        | String c' r' => Ascii.eqb c' "'" && quotes_paired r'
        | EmptyString => false
        end
      else quotes_paired r
  end.

(** Text of ASCII characters: on it the [toLowerCase] above is the one of
    the source. *)
Definition is_ascii (s : string) : bool :=
  forallb (λ c, (N_of_ascii c <? 128)%N) (list_ascii_of_string s).

(** The names that every object inherits from [Object.prototype]. *)
Definition Object_prototype : list string :=
  ["constructor"; "__proto__"; "hasOwnProperty"; "isPrototypeOf";
   "propertyIsEnumerable"; "toLocaleString"; "toString"; "valueOf";
   "__defineGetter__"; "__defineSetter__"; "__lookupGetter__"; "__lookupSetter__"].

(** Whether following [keys] from [v] with [?.] reads own properties only:
    of an object an own property or a name that it does not inherit, of an
    array an element or its length, of a string (of ASCII characters) its
    length, and nothing of a number, a boolean or a promise.  These are the
    reads at which [get_own] is the property access of the source, which
    also finds what a value inherits and the characters of a string. *)
Fixpoint own_reads (v : value) (keys : list string) : bool :=
  match keys with
  | [] => true
  | key :: rest =>
      match v with
      | VUndefined | VNull => true
      | VObj props =>
          (bool_decide (is_Some (lookup_prop key props))
           || bool_decide (key ∉ Object_prototype))
          && own_reads (get_own v key) rest
      | VArr items =>
          (String.eqb key "length"
           || bool_decide (is_Some (index_of_key key (length items))))
          && own_reads (get_own v key) rest
      | VStr s =>
          String.eqb key "length" && is_ascii s && own_reads (get_own v key) rest
      | _ => false
      end
  end.

(** ** A counter at work *)

(** What a program does with a counter of [createCounter]. *)
Inductive counter_op : Type :=
| Increment (step : Z)
| Decrement (step : Z)
| Reset.

Definition counter_step (c : AdvancedPatternsDemo.counter) (o : counter_op)
  : AdvancedPatternsDemo.counter :=
  match o with
  | Increment step => (AdvancedPatternsDemo.increment step c).2
  | Decrement step => (AdvancedPatternsDemo.decrement step c).2
  | Reset => (AdvancedPatternsDemo.reset c).2
  end.

(** The operations that follow the last [reset]. *)
Definition since_reset (ops : list counter_op) : list counter_op :=
  fold_left (λ acc o, match o with
                      | Reset => []
                      | _ => acc ++ [o]
                      end) ops [].

(** The sum of the steps, each with its sign. *)
Definition net (ops : list counter_op) : Z :=
  fold_left (λ n o, match o with
                    | Increment step => n + step
                    | Decrement step => n - step
                    | Reset => n
                    end) ops 0.

(** The line of the history that an operation leaves. *)
Definition history_line (o : counter_op) : string :=
  match o with
  | Increment step => "+" +:+ pretty step
  | Decrement step => "-" +:+ pretty step
  | Reset => ""
  end.

(** An integer that a double holds exactly, and next to which it holds every
    integer. *)
Definition safe_integer (n : Z) : bool := Z.abs n <=? 2 ^ 53.

(** Whether the steps of [ops] and the counts they lead to from [c] are all
    such integers: there [count + step] in [Z] is the addition of the
    source. *)
Fixpoint safe_from (c : AdvancedPatternsDemo.counter) (ops : list counter_op) : bool :=
  match ops with
  | [] => true
  | o :: rest =>
      match o with
      | Increment step | Decrement step => safe_integer step
      | Reset => true
      end
      && safe_integer (AdvancedPatternsDemo.count (counter_step c o))
      && safe_from (counter_step c o) rest
  end.

Definition safe_run (initial : Z) (ops : list counter_op) : bool :=
  safe_integer initial && safe_from (AdvancedPatternsDemo.createCounter initial) ops.

(** ** Listeners called in order *)

(** Listeners that are called one after the other, as they stand in the
    list, up to the first that throws: the results, the functions invoked
    and the state they leave. *)
Fixpoint call_in_order {W} (l : list (EventEmitter.callback W)) (data : value) (w : W)
  : result (list value) * list EventEmitter.fid * W :=
  match l with
  | [] => (Ok [], [], w)
  | cb :: rest =>
      match EventEmitter.code cb data w with
      | (Ok v, w') =>
          match call_in_order rest data w' with
          | (Ok vs, ids, w'') => (Ok (v :: vs), EventEmitter.ident cb :: ids, w'')
          | (Throw x, ids, w'') => (Throw x, EventEmitter.ident cb :: ids, w'')
          end
      | (Throw x, w') => (Throw x, [EventEmitter.ident cb], w')
      end
  end.

(** The emitter [e] after the functions [ids] have been invoked. *)
Definition with_calls {W} (ids : list EventEmitter.fid) (e : EventEmitter.t W)
  : EventEmitter.t W :=
  {| EventEmitter.events := EventEmitter.events e;
     EventEmitter.fresh := EventEmitter.fresh e;
     EventEmitter.calls := EventEmitter.calls e ++ ids |}.

(** A listener given to [on] that returns [undefined] and changes nothing. *)
Definition quiet {W} (n : nat) : EventEmitter.callback W :=
  {| EventEmitter.ident := EventEmitter.User n;
     EventEmitter.once_for := None;
     EventEmitter.code := λ _ w, (Ok VUndefined, w) |}.

(** ** The user module at work *)

(** The calls [create(userData)] for each of [datas], in order; an exception
    is caught and the next call made.  [k] numbers the readings of the clock:
    a call that throws takes none. *)
Fixpoint create_all (h : Host) (k : nat) (datas : list value)
    (m : AdvancedPatternsDemo.UserModule)
  : list (result value) * AdvancedPatternsDemo.UserModule :=
  match datas with
  | [] => ([], m)
  | userData :: rest =>
      match AdvancedPatternsDemo.create h k userData m with
      | (Ok user, m') =>
          match create_all h (S k) rest m' with
          | (rs, m'') => (Ok user :: rs, m'')
          end
      | (Throw e, m') =>
          match create_all h k rest m' with
          | (rs, m'') => (Throw e :: rs, m'')
          end
      end
  end.

(** [UserModule] as the function that makes it leaves it. *)
Definition new_UserModule : AdvancedPatternsDemo.UserModule :=
  {| AdvancedPatternsDemo.users := []; AdvancedPatternsDemo.currentId := 1 |}.

(** The users carry the numbers 1, 2, ... in the order of their creation,
    and the next number is the one after the last. *)
Definition numbered (m : AdvancedPatternsDemo.UserModule) : Prop :=
  AdvancedPatternsDemo.currentId m = 1 + Z.of_nat (length (AdvancedPatternsDemo.users m))
  ∧ ∀ i user, AdvancedPatternsDemo.users m !! i = Some user →
              get_own user "id" = VNum (Z.of_nat i + 1).

(** ** The smart object at work *)



(** A value that [<] and [>] turn into a number as [to_number] does: not a
    string and not an array, which are read as numerals. *)
Definition compares_as_number (v : value) : bool :=
  match v with
  | VStr _ | VArr _ => false
  | _ => true
  end.

(** ** The object pool at work *)

(** [n] calls of [acquire], one after the other: the objects handed out,
    oldest first, and the pool that is left. *)
Fixpoint acquire_all (n : nat) (pool : list PerformanceDemo.pooled)
  : list PerformanceDemo.pooled * list PerformanceDemo.pooled :=
  match n with
  | O => ([], pool)
  | S n' =>
      match PerformanceDemo.acquire pool with
      | (obj, pool') =>
          match acquire_all n' pool' with
          | (objs, pool'') => (obj :: objs, pool'')
          end
      end
  end.

(** [objs.forEach((obj) => pool.release(obj))] *)
Definition release_all (objs pool : list PerformanceDemo.pooled) : list PerformanceDemo.pooled :=
  fold_left (λ pool obj, PerformanceDemo.release obj pool) objs pool.

(** ** A script of calls to the throttled function

    Each call of [throttledOperation] comes [gap] milliseconds after the one
    before, the loop being idle in between. *)
Definition throttle_step (s : PerformanceDemo.world) (gap : nat) : PerformanceDemo.world :=
  PerformanceDemo.throttledOperation (Timers.idle gap s.1, s.2).

(** The method before its first call. *)
Definition throttle_start : PerformanceDemo.world :=
  ((Timers.new,
    {| PerformanceDemo.debounceCount := 0; PerformanceDemo.throttleCount := 0;
       PerformanceDemo.directCount := 0; PerformanceDemo.inThrottle := false |}), None).

(** How many of the calls run the function: the first, and then each call
    that comes 100 ms or more after the last call that ran it.  [since] is the
    time since that call, if there was one. *)
Fixpoint throttled_runs (since : option nat) (gaps : list nat) : Z :=
  match gaps with
  | [] => 0
  | gap :: rest =>
      match since with
      | Some t =>
          if (t + gap <? 100)%nat then throttled_runs (Some (t + gap)%nat) rest
          else 1 + throttled_runs (Some 0%nat) rest
      | None => 1 + throttled_runs (Some 0%nat) rest
      end
  end.

(** The method between two calls of the throttled function: either the
    function is free to run, or it ran [t] milliseconds ago and the timer that
    frees it is pending. *)
Definition throttling (since : option nat) (s : PerformanceDemo.world) : Prop :=
  s.2 = None ∧
  match since with
  | None => Timers.pending s.1.1 = [] ∧ PerformanceDemo.inThrottle s.1.2 = false
  | Some t =>
      PerformanceDemo.inThrottle s.1.2 = true ∧ (t < 100)%nat
      ∧ ∃ tm, Timers.pending s.1.1 = [tm]
              ∧ (Timers.due tm + t = Timers.now s.1.1 + 100)%nat
              ∧ Timers.callback tm = PerformanceDemo.release_throttle
  end.

(** * Properties *)

(** C1. On the sample data literal of the constructor,
    [nestedObjectDestructuring] returns exactly the expected text: the stored
    [push: false] is kept (the default [true] is for [undefined] only) and the
    second address is the work address (the default address is not taken). *)
Theorem nestedObjectDestructuring_sample :
  (DestructuringDemo.nestedObjectDestructuring DestructuringDemo.constructor).1 =
    Ok "🎯 Nested Object Destructuring:
Name: John Doe
Email: john@example.com
Theme: dark
Email Notifications: true
Push Notifications: false
Home City: New York
Work City: San Francisco"
  ∧ (∃ b, DestructuringDemo.nested_pattern
            (DestructuringDemo.sampleData DestructuringDemo.constructor) = Ok b
          ∧ DestructuringDemo.pushNotif b = VBool false
          ∧ get (DestructuringDemo.workAddress b) "type" = Ok (VStr "work")).
Proof.
  split; [reflexivity|].
  eexists; split; [reflexivity|]. split; reflexivity.
Qed.


(** ** Methods that leave the fields alone *)

Lemma preserves_ret {S A} (a : A) : preserves (S := S) (mret a).
Proof. by intros s. Qed.

Lemma preserves_read {S B} (f : S → B) : preserves (read f).
Proof. by intros s. Qed.

Lemma preserves_lift {S A} (r : result A) : preserves (S := S) (lift r).
Proof. by intros s. Qed.

Lemma preserves_bind {S A B} (m : method S A) (k : A → method S B) :
  preserves m → (∀ a, preserves (k a)) → preserves (m ≫= k).
Proof.
  intros Hm Hk s. unfold mbind, method_bind. specialize (Hm s).
  destruct (m s) as [[a|e] s']; simpl in *; subst; [apply Hk|done].
Qed.

Ltac preserved :=
  repeat first
    [ apply preserves_ret | apply preserves_read | apply preserves_lift
    | apply preserves_bind; [|intros ?] | progress cbv zeta ].

Lemma Destructuring_preserved : preserves DestructuringDemo.run.
Proof.
  unfold DestructuringDemo.run, DestructuringDemo.nestedObjectDestructuring,
    DestructuringDemo.arrayDestructuringWithDefaults,
    DestructuringDemo.functionParameterDestructuring,
    DestructuringDemo.dynamicPropertyExtraction,
    DestructuringDemo.restPatternInDestructuring.
  preserved.
Qed.

Lemma SpreadRest_preserved h : preserves (SpreadRestDemo.run h).
Proof.
  unfold SpreadRestDemo.run, SpreadRestDemo.objectComposition,
    SpreadRestDemo.immutableUpdates, SpreadRestDemo.arrayMerging,
    SpreadRestDemo.functionArguments, SpreadRestDemo.conditionalSpreading.
  preserved.
Qed.

Lemma ArrowFunction_preserved h : preserves (ArrowFunctionDemo.run h).
Proof.
  unfold ArrowFunctionDemo.run, ArrowFunctionDemo.lexicalThisBinding,
    ArrowFunctionDemo.higherOrderFunctions, ArrowFunctionDemo.functionalComposition,
    ArrowFunctionDemo.asyncArrowPatterns, ArrowFunctionDemo.whenNotToUseArrows.
  preserved.
Qed.

Lemma TemplateLiteral_preserved : preserves TemplateLiteralDemo.run.
Proof.
  unfold TemplateLiteralDemo.run, TemplateLiteralDemo.basicTemplating,
    TemplateLiteralDemo.taggedTemplates, TemplateLiteralDemo.multilineTemplates,
    TemplateLiteralDemo.conditionalTemplating, TemplateLiteralDemo.templateFunctions.
  preserved.
Qed.

Lemma AdvancedPatterns_preserved h : preserves (AdvancedPatternsDemo.run h).
Proof.
  unfold AdvancedPatternsDemo.run, AdvancedPatternsDemo.closuresAndPrivacy,
    AdvancedPatternsDemo.memoizationPattern, AdvancedPatternsDemo.observerPattern,
    AdvancedPatternsDemo.modulePattern, AdvancedPatternsDemo.proxyPattern.
  preserved.
Qed.

Lemma Performance_preserved h : preserves (PerformanceDemo.run h).
Proof.
  unfold PerformanceDemo.run, PerformanceDemo.debouncingThrottling,
    PerformanceDemo.lazyEvaluation, PerformanceDemo.memoryOptimization,
    PerformanceDemo.algorithmOptimization, PerformanceDemo.asyncOptimization.
  preserved.
Qed.

Lemma run_preserved h : preserves (run h).
Proof.
  intros [d|d|d|d|d|d]; unfold run, within.
  - pose proof (Destructuring_preserved d) as H.
    destruct (DestructuringDemo.run d); simpl in *; by subst.
  - pose proof (SpreadRest_preserved h d) as H.
    destruct (SpreadRestDemo.run h d); simpl in *; by subst.
  - pose proof (ArrowFunction_preserved h d) as H.
    destruct (ArrowFunctionDemo.run h d); simpl in *; by subst.
  - pose proof (TemplateLiteral_preserved d) as H.
    destruct (TemplateLiteralDemo.run d); simpl in *; by subst.
  - pose proof (AdvancedPatterns_preserved h d) as H.
    destruct (AdvancedPatternsDemo.run h d); simpl in *; by subst.
  - pose proof (Performance_preserved h d) as H.
    destruct (PerformanceDemo.run h d); simpl in *; by subst.
Qed.

(** C4. Whatever the fields of a demo instance hold and whatever the
    environment of each run, any number of runs, one after the other, leave
    the instance with the fields it had: every run reads the same data. *)
Theorem run_leaves_fields (hs : list Host) (d : demo) :
  fold_left (λ d h, (run h d).2) hs d = d.
Proof.
  induction hs as [|h hs IH]; [done|]. simpl. by rewrite run_preserved.
Qed.


(** ** Binary search on an array in order *)

Section BinarySearch.
Import PerformanceDemo.
Variable target : Q.
Local Abbreviation hit := (reaches target).

Lemma sorted_lookup (arr : list user) :
  Sorted by_score arr →
  ∀ (i j : nat) x y, (i ≤ j)%nat → arr !! i = Some x → arr !! j = Some y → by_score x y.
Proof.
  intros Hs. apply Sorted_StronglySorted in Hs.
  2:{ intros a b c; unfold by_score; apply Qle_trans. }
  induction Hs as [|a l Hl IH Hall]; intros i j x y Hij Hi Hj.
  - rewrite lookup_nil in Hi; discriminate.
  - destruct i as [|i], j as [|j]; simpl in *.
    + injection Hi as <-; injection Hj as <-. unfold by_score; apply Qle_refl.
    + injection Hi as <-. rewrite Forall_forall in Hall. apply Hall.
      eapply list_elem_of_lookup_2; eauto.
    + lia.
    + eapply IH; [|eassumption..]. lia.
Qed.

Lemma reaches_mono x y : by_score x y → hit x = true → hit y = true.
Proof.
  unfold by_score, reaches. rewrite !Qle_bool_iff. intros; eapply Qle_trans; eauto.
Qed.

Lemma reaches_mono_false x y : by_score x y → hit y = false → hit x = false.
Proof.
  intros Hxy Hy. destruct (hit x) eqn:Hx; [|done].
  rewrite (reaches_mono _ _ Hxy Hx) in Hy; discriminate.
Qed.

Lemma find_first (arr : list user) (m : nat) x :
  arr !! m = Some x → hit x = true →
  (∀ (i : nat) y, (i < m)%nat → arr !! i = Some y → hit y = false) →
  List.find hit arr = Some x.
Proof.
  revert m. induction arr as [|a arr IH]; intros m Hm Hx Hbefore.
  - rewrite lookup_nil in Hm; discriminate.
  - destruct m as [|m]; simpl in *.
    + injection Hm as ->. by rewrite Hx.
    + rewrite (Hbefore 0%nat a); [|lia|done].
      apply (IH m); [done..|]. intros i y Hi Hy. apply (Hbefore (S i)); [lia|done].
Qed.

Lemma find_nowhere (arr : list user) :
  (∀ (i : nat) y, arr !! i = Some y → hit y = false) →
  List.find hit arr = None.
Proof.
  induction arr as [|a arr IH]; intros Hall; [done|]. simpl.
  rewrite (Hall 0%nat a); [|done]. apply IH. intros i y; apply (Hall (S i)).
Qed.

Lemma score_at_lookup (arr : list user) (i : Z) u :
  0 ≤ i → arr !! Z.to_nat i = Some u → score_at arr i = Ok (score u).
Proof.
  intros Hi Hu. unfold score_at.
  destruct (i <? 0) eqn:E; [apply Z.ltb_lt in E; lia|]. by rewrite Hu.
Qed.

Lemma binarySearch_loop_find (arr : list user) :
  Sorted by_score arr →
  ∀ (n : nat) (left right : Z),
    0 ≤ left → right < Z.of_nat (length arr) → right - left + 1 ≤ Z.of_nat n →
    (∀ (i : nat) y, Z.of_nat i < left → arr !! i = Some y → hit y = false) →
    (right + 1 < Z.of_nat (length arr) →
     ∃ y, 0 ≤ right ∧ arr !! Z.to_nat right = Some y ∧ hit y = true) →
    binarySearch_loop n arr target left right = Ok (List.find hit arr).
Proof.
  intros Hs.
  assert (Hexit : ∀ left right : Z,
    right < left → right < Z.of_nat (length arr) →
    (∀ (i : nat) y, Z.of_nat i < left → arr !! i = Some y → hit y = false) →
    (right + 1 < Z.of_nat (length arr) →
     ∃ y, 0 ≤ right ∧ arr !! Z.to_nat right = Some y ∧ hit y = true) →
    List.find hit arr = None).
  { intros left right Hlt Hr Hlow Hhigh. apply find_nowhere. intros i y Hy.
    destruct (Z_lt_dec (right + 1) (Z.of_nat (length arr))) as [Hin|Hout].
    - destruct (Hhigh Hin) as (z & H0 & Hz & Hpz).
      rewrite (Hlow (Z.to_nat right) z) in Hpz; [discriminate|lia|done].
    - apply (Hlow i); [|done]. apply lookup_lt_Some in Hy. lia. }
  induction n as [|n IH]; intros left right Hl Hr Hn Hlow Hhigh.
  - simpl. f_equal. symmetry. apply (Hexit left right); [lia|done..].
  - simpl. destruct (left <=? right) eqn:Hle.
    2:{ apply Z.leb_gt in Hle. f_equal. symmetry. by apply (Hexit left right). }
    apply Z.leb_le in Hle.
    set (mid := (left + right) / 2).
    assert (Hmid : left ≤ mid ≤ right).
    { unfold mid. split; [apply Z.div_le_lower_bound|apply Z.div_le_upper_bound]; lia. }
    destruct (lookup_lt_is_Some_2 arr (Z.to_nat mid)) as [am Ham]; [lia|].
    rewrite (score_at_lookup arr mid am); [|lia|done]. simpl.
    fold (hit am). destruct (hit am) eqn:Hpm.
    + destruct (mid =? 0) eqn:Hm0.
      * simpl. apply Z.eqb_eq in Hm0. f_equal. rewrite Ham. symmetry.
        apply (find_first arr (Z.to_nat mid)); [done..|]. intros i y Hi; lia.
      * apply Z.eqb_neq in Hm0.
        destruct (lookup_lt_is_Some_2 arr (Z.to_nat (mid - 1))) as [bm Hbm]; [lia|].
        rewrite (score_at_lookup arr (mid - 1) bm); [|lia|done]. simpl.
        fold (hit bm). destruct (hit bm) eqn:Hpb; simpl.
        -- apply IH; [lia..|done|]. intros _. exists bm. split; [lia|done].
        -- f_equal. rewrite Ham. symmetry.
           apply (find_first arr (Z.to_nat mid)); [done..|].
           intros i y Hi Hy. apply (reaches_mono_false y bm); [|done].
           apply (sorted_lookup arr Hs i (Z.to_nat (mid - 1))); [lia|done..].
    + apply IH; [lia..| |done].
      intros i y Hi Hy. apply (reaches_mono_false y am); [|done].
      apply (sorted_lookup arr Hs i (Z.to_nat mid)); [lia|done..].
Qed.

Lemma binarySearch_find (arr : list user) :
  Sorted by_score arr → binarySearch arr target = Ok (List.find hit arr).
Proof.
  intros Hs. unfold binarySearch. apply binarySearch_loop_find; [done|lia..| |].
  - intros i y Hi; lia.
  - intros H; lia.
Qed.

End BinarySearch.

Section Sorting.
Import PerformanceDemo.

Lemma insert_sorted_Sorted u l : Sorted by_score l → Sorted by_score (insert_sorted u l).
Proof.
  induction 1 as [|x l Hl IH Hx]; simpl; [repeat constructor|].
  destruct (Qle_bool (score x) (score u)) eqn:E.
  - constructor; [done|]. destruct Hx as [|y l' Hy]; simpl.
    + constructor. by apply Qle_bool_iff.
    + destruct (Qle_bool (score y) (score u)); constructor; [done|].
      by apply Qle_bool_iff.
  - constructor; [by constructor|]. constructor. unfold by_score.
    apply Qlt_le_weak, Qnot_le_lt. intros H. apply Qle_bool_iff in H. congruence.
Qed.

Lemma sort_by_score_Sorted l : Sorted by_score (sort_by_score l).
Proof.
  unfold sort_by_score.
  assert (H : ∀ acc, Sorted by_score acc →
                     Sorted by_score (fold_left (λ acc u, insert_sorted u acc) l acc)).
  { induction l as [|u l IH]; intros acc Hacc; [done|]. simpl.
    apply IH. by apply insert_sorted_Sorted. }
  apply H. constructor.
Qed.

Lemma Performance_resolves h d :
  ∃ output code,
    PerformanceDemo.run h d =
      (Ok (VObj [("output", VStr output); ("code", VStr code)]), d).
Proof.
  unfold run, debouncingThrottling, lazyEvaluation, memoryOptimization,
    algorithmOptimization, asyncOptimization.
  unfold mbind, method_bind, mret, method_ret, read, lift.
  cbv beta iota zeta.
  rewrite (binarySearch_find 50 _ (sort_by_score_Sorted (testData d))).
  unfold result_bind, result_ret. cbv beta iota.
  eexists _, _. reflexivity.
Qed.
End Sorting.


Lemma find_reaches_first (target : Q) (arr : list PerformanceDemo.user) u :
  List.find (reaches target) arr = Some u →
  ∃ i : nat, arr !! i = Some u ∧ reaches target u = true
    ∧ ∀ (j : nat) v, (j < i)%nat → arr !! j = Some v → reaches target v = false.
Proof.
  induction arr as [|a arr IH]; simpl; [done|].
  destruct (reaches target a) eqn:Ha.
  - intros [= <-]. exists 0%nat. repeat split; [done|]. intros j v Hj; lia.
  - intros Hf. destruct (IH Hf) as (i & Hi & Hu & Hbefore).
    exists (S i). repeat split; [done..|].
    intros [|j] v Hj Hv; simpl in Hv; [by injection Hv as <-|].
    apply (Hbefore j); [lia|done].
Qed.

Lemma find_reaches_none (target : Q) (arr : list PerformanceDemo.user) :
  List.find (reaches target) arr = None ↔
  ∀ u, u ∈ arr → (PerformanceDemo.score u < target)%Q.
Proof.
  assert (Hlt : ∀ u, reaches target u = false ↔ (PerformanceDemo.score u < target)%Q).
  { intros u. unfold reaches. split.
    - intros H. apply Qnot_le_lt. intros Hle. apply Qle_bool_iff in Hle. congruence.
    - intros H. destruct (Qle_bool target (PerformanceDemo.score u)) eqn:E; [|done].
      apply Qle_bool_iff in E. by apply Qlt_not_le in H. }
  induction arr as [|a arr IH]; simpl.
  - split; [|done]. intros _ u Hu. by apply elem_of_nil in Hu.
  - destruct (reaches target a) eqn:Ha.
    + split; [done|]. intros H. assert (Hf : reaches target a = false) by (apply Hlt, H; left).
      congruence.
    + rewrite IH. split.
      * intros H u [->|Hu]%elem_of_cons; [by apply Hlt|by apply H].
      * intros H u Hu. apply H. by right.
Qed.

(** C8. On an array in non-decreasing order of score, [binarySearch] returns
    what the linear scan [find] returns: the element of lowest index whose
    score is at least the target; it returns [null] exactly when no score is
    at least the target. *)
Theorem binarySearch_agrees_with_find (arr : list PerformanceDemo.user) (target : Q) :
  Sorted by_score arr →
  PerformanceDemo.binarySearch arr target = Ok (PerformanceDemo.linearSearch arr target)
  ∧ (PerformanceDemo.binarySearch arr target = Ok None ↔
     ∀ u, u ∈ arr → (PerformanceDemo.score u < target)%Q)
  ∧ (∀ u, PerformanceDemo.binarySearch arr target = Ok (Some u) →
     ∃ i : nat, arr !! i = Some u ∧ (target <= PerformanceDemo.score u)%Q
       ∧ ∀ (j : nat) v, (j < i)%nat → arr !! j = Some v →
                        (PerformanceDemo.score v < target)%Q).
Proof.
  intros Hs. pose proof (binarySearch_find target arr Hs) as Hb.
  split; [exact Hb|]. rewrite Hb. split.
  - rewrite <- find_reaches_none. split; [by intros [= ->]|by intros ->].
  - intros u [= Hu]. destruct (find_reaches_first target arr u Hu) as (i & Hi & Hr & Hbefore).
    exists i. split; [done|]. split; [by apply Qle_bool_iff|].
    intros j v Hj Hv. apply Qnot_le_lt. intros Hle. apply Qle_bool_iff in Hle.
    specialize (Hbefore j v Hj Hv). unfold reaches in Hbefore. congruence.
Qed.

Lemma binarySearch_agrees_with_find_witness :
  let arr := [scored 10; scored 50; scored 50; scored 90] in
  Sorted by_score arr
  ∧ PerformanceDemo.binarySearch arr 50 = Ok (PerformanceDemo.linearSearch arr 50)
  ∧ PerformanceDemo.linearSearch arr 50 = arr !! 1%nat.
Proof.
  assert (Hs : Sorted by_score [scored 10; scored 50; scored 50; scored 90]).
  { repeat constructor; unfold by_score; simpl; by apply Qle_bool_iff. }
  cbv zeta. split; [exact Hs|]. split; [|reflexivity].
  exact (proj1 (binarySearch_agrees_with_find _ 50 Hs)).
Defined.

(** ** What the runs resolve to *)

Ltac evaluated :=
  match goal with
  | |- ∃ output code, ?m = (Ok (VObj [("output", VStr output); ("code", VStr code)]), ?d) =>
      let t := eval vm_compute in m in
      match t with
      | (Ok (VObj [("output", VStr ?o); ("code", VStr ?c)]), _) =>
          exists o, c; vm_compute; reflexivity
      end
  end.

Lemma Destructuring_resolves :
  ∃ output code,
    DestructuringDemo.run DestructuringDemo.constructor =
      (Ok (VObj [("output", VStr output); ("code", VStr code)]),
       DestructuringDemo.constructor).
Proof. evaluated. Qed.

Lemma SpreadRest_resolves h :
  ∃ output code,
    SpreadRestDemo.run h SpreadRestDemo.constructor =
      (Ok (VObj [("output", VStr output); ("code", VStr code)]),
       SpreadRestDemo.constructor).
Proof. evaluated. Qed.

Lemma ArrowFunction_resolves h :
  ∃ output code,
    ArrowFunctionDemo.run h ArrowFunctionDemo.constructor =
      (Ok (VObj [("output", VStr output); ("code", VStr code)]),
       ArrowFunctionDemo.constructor).
Proof. evaluated. Qed.

Lemma TemplateLiteral_resolves :
  ∃ output code,
    TemplateLiteralDemo.run TemplateLiteralDemo.constructor =
      (Ok (VObj [("output", VStr output); ("code", VStr code)]),
       TemplateLiteralDemo.constructor).
Proof. evaluated. Qed.

Lemma AdvancedPatterns_rejects h :
  AdvancedPatternsDemo.run h AdvancedPatternsDemo.constructor =
    (Throw slice_of_undefined, AdvancedPatternsDemo.constructor).
Proof. vm_compute. reflexivity. Qed.

Lemma registered_advanced_patterns h :
  registered h !! "advanced-patterns" =
    Some (AdvancedPatterns AdvancedPatternsDemo.constructor).
Proof.
  unfold registered. rewrite !list_to_map_cons. simpl.
  rewrite !lookup_insert_ne by done. apply lookup_insert_eq.
Qed.

(** C3. Of the six demos of the dashboard, five resolve [run()] to an object
    of two string fields, [output] and [code]: all but the one under
    "advanced-patterns", whose [run()] rejects with the [TypeError] that
    [proxyPattern] throws when it reads [slice] of its access log, which the
    [get] trap of the proxy gives as [undefined]. *)
Theorem run_resolves_to_output_and_code (h : Host) :
  (∀ key d,
     registered h !! key = Some d → key ≠ "advanced-patterns" →
     ∃ output code,
       run h d = (Ok (VObj [("output", VStr output); ("code", VStr code)]), d))
  ∧ (∃ d, registered h !! "advanced-patterns" = Some d
          ∧ run h d = (Throw slice_of_undefined, d)).
Proof.
  split.
  - intros key d Hd Hne. apply elem_of_list_to_map_2 in Hd.
    repeat (apply elem_of_cons in Hd as [[= -> ->]|Hd]); unfold run, within.
    + destruct Destructuring_resolves as (o & c & ->). by exists o, c.
    + destruct (SpreadRest_resolves h) as (o & c & ->). by exists o, c.
    + destruct (ArrowFunction_resolves h) as (o & c & ->). by exists o, c.
    + destruct TemplateLiteral_resolves as (o & c & ->). by exists o, c.
    + done.
    + destruct (Performance_resolves h (PerformanceDemo.constructor h)) as (o & c & ->).
      by exists o, c.
    + by apply elem_of_nil in Hd.
  - exists (AdvancedPatterns AdvancedPatternsDemo.constructor).
    split; [apply registered_advanced_patterns|].
    unfold run, within. by rewrite AdvancedPatterns_rejects.
Qed.

(** ** The dashboard *)

Section DashboardFacts.
Import FeatureDashboard.
Context {Demo : Type} (run : Host → method Demo value) (highlight : string → string).

Lemma handleError_dispatched action error (st : t Demo) :
  dispatched (handleError action error st).2 = dispatched st.
Proof. unfold handleError. by destruct (document st !! output_id action). Qed.

Lemma render_dispatched action res (st : t Demo) :
  dispatched (render highlight action res st).2 = dispatched st.
Proof.
  unfold render.
  destruct (document st !! output_id action), (get res "output"); simpl; try done.
  destruct (get res "code"); simpl; [|done].
  by destruct (CodeDisplayManager.show _ _ _ _ _) as [[[]|] []].
Qed.

Lemma runDemo_dispatched h action demo (st : t Demo) :
  dispatched (runDemo run highlight h action demo st).2 = dispatched st ++ [action].
Proof.
  unfold runDemo. destruct (run h demo) as [[res|error] demo'].
  - match goal with |- context [render _ _ _ ?s] =>
      pose proof (render_dispatched action res s) as Hr;
      destruct (render highlight action res s) as [[[]|e] st1] end; simpl in *; [done|].
    pose proof (handleError_dispatched action e st1) as He.
    destruct (handleError action e st1); simpl in *. congruence.
  - match goal with |- context [handleError _ _ ?s] =>
      pose proof (handleError_dispatched action error s) as He;
      destruct (handleError action error s) end; simpl in *. done.
Qed.

Lemma runDemo_error_path (h : Host) (action : string) (demo demo' : Demo)
    (error : exn) (el : DOM.element) (st : t Demo) :
  run h demo = (Throw error, demo') →
  document st !! output_id action = Some el →
  runDemo run highlight h action demo st =
    (Ok (), demo',
     {| demos := demos st;
        codeDisplay := codeDisplay st;
        document :=
          <[output_id action := DOM.set_innerHTML (error_html (message error)) el]>
            (document st);
        console := console st ++ [("Demo " +:+ action +:+ " failed:", error)];
        timers := timers st;
        dispatched := dispatched st ++ [action] |}).
Proof.
  intros Hrun Hel. unfold runDemo, handleError. rewrite Hrun. simpl.
  rewrite Hel. simpl. do 2 f_equal.
  apply map_eq. intros i.
  destruct (decide (output_id action = i)) as [<-|Hne].
  - by rewrite lookup_alter_eq, Hel, lookup_insert_eq.
  - by rewrite lookup_alter_ne, lookup_insert_ne.
Qed.
End DashboardFacts.

(** C2. When the [run] of a demo throws or rejects with an error and the
    page has the output element of the action, [runDemo] catches the error:
    the element holds "Error: " and the message of the error, in a span of
    class error; the console has one more line, for this error; the demo was
    run once and nothing else of the dashboard has changed. *)
Theorem runDemo_reports_error {Demo : Type} (run : Host → method Demo value)
    (highlight : string → string) (h : Host) (action : string) (demo demo' : Demo)
    (error : exn) (el : DOM.element) (st : FeatureDashboard.t Demo) :
  run h demo = (Throw error, demo') →
  FeatureDashboard.document st !! FeatureDashboard.output_id action = Some el →
  FeatureDashboard.runDemo run highlight h action demo st =
    (Ok (), demo',
     {| FeatureDashboard.demos := FeatureDashboard.demos st;
        FeatureDashboard.codeDisplay := FeatureDashboard.codeDisplay st;
        FeatureDashboard.document :=
          <[FeatureDashboard.output_id action :=
              DOM.set_innerHTML ("<span class=" +:+ dq +:+ "error" +:+ dq +:+ ">" +:+
                                 "Error: " +:+ message error +:+ "</span>") el]>
            (FeatureDashboard.document st);
        FeatureDashboard.console :=
          FeatureDashboard.console st ++ [("Demo " +:+ action +:+ " failed:", error)];
        FeatureDashboard.timers := FeatureDashboard.timers st;
        FeatureDashboard.dispatched := FeatureDashboard.dispatched st ++ [action] |}).
Proof. apply runDemo_error_path. Qed.

(** A page with the output element of the advanced patterns only. *)
Lemma runDemo_reports_error_witness :
  let el := {| DOM.innerHTML := ""; DOM.classList := ["output"]; DOM.dataset := ∅ |} in
  let doc : DOM.document := {["advanced-patterns-output" := el]} in
  let demo := AdvancedPatterns AdvancedPatternsDemo.constructor in
  let st := {| FeatureDashboard.demos := {["advanced-patterns" := demo]};
               FeatureDashboard.codeDisplay := CodeDisplayManager.constructor doc;
               FeatureDashboard.document := doc;
               FeatureDashboard.console := [];
               FeatureDashboard.timers := [];
               FeatureDashboard.dispatched := [] |} in
  run sample_host demo = (Throw slice_of_undefined, demo)
  ∧ doc !! FeatureDashboard.output_id "advanced-patterns" = Some el
  ∧ (FeatureDashboard.runDemo run id sample_host "advanced-patterns" demo st).1.1 = Ok ().
Proof.
  cbv zeta. split; [vm_compute; reflexivity|]. split; [vm_compute; reflexivity|].
  rewrite (runDemo_reports_error run id sample_host "advanced-patterns"
             (AdvancedPatterns AdvancedPatternsDemo.constructor)
             (AdvancedPatterns AdvancedPatternsDemo.constructor)
             slice_of_undefined
             {| DOM.innerHTML := ""; DOM.classList := ["output"]; DOM.dataset := ∅ |}).
  - reflexivity.
  - vm_compute; reflexivity.
  - vm_compute; reflexivity.
Defined.

(** C7. In the run of the advanced patterns the two calls of
    [UserModule.create] return, and so do the three assignments through the
    [set] trap: no validation throws.  The run rejects all the same, with the
    [TypeError] of [proxyPattern], and a click on its button ends in
    [handleError]: the console has the line of that error. *)
Theorem advanced_patterns_run_rejects (h : Host) (highlight : string → string) :
  let john := VObj [("name", VStr "John"); ("email", VStr "john@example.com")] in
  let jane := VObj [("name", VStr "Jane"); ("email", VStr "jane@example.com")] in
  let empty :=
    {| AdvancedPatternsDemo.users := []; AdvancedPatternsDemo.currentId := 1 |} in
  let created := AdvancedPatternsDemo.create h 0 john empty in
  let named :=
    AdvancedPatternsDemo.trap_set "name" (VStr "John")
      AdvancedPatternsDemo.createSmartObject in
  let aged := AdvancedPatternsDemo.trap_set "age" (VNum 30) named.2 in
  let mailed := AdvancedPatternsDemo.trap_set "email" (VStr "john@example.com") aged.2 in
  ((∃ user, created.1 = Ok user)
   ∧ (∃ user, (AdvancedPatternsDemo.create h 1 jane created.2).1 = Ok user)
   ∧ named.1 = Ok true ∧ aged.1 = Ok true ∧ mailed.1 = Ok true)
  ∧ (AdvancedPatternsDemo.proxyPattern AdvancedPatternsDemo.constructor).1 =
      Throw slice_of_undefined
  ∧ (run h (AdvancedPatterns AdvancedPatternsDemo.constructor)).1 =
      Throw slice_of_undefined
  ∧ (∀ doc el,
       doc !! "advanced-patterns-output" = Some el →
       FeatureDashboard.console
         (FeatureDashboard.handleDemoClick run highlight h
            (demo_button "advanced-patterns") (dashboard h doc)) =
         [("Demo advanced-patterns failed:", slice_of_undefined)]).
Proof.
  cbv zeta. split; [|split; [|split]].
  - split; [eexists; vm_compute; reflexivity|].
    split; [eexists; vm_compute; reflexivity|].
    repeat split; vm_compute; reflexivity.
  - vm_compute. reflexivity.
  - unfold run, within. by rewrite AdvancedPatterns_rejects.
  - intros doc el Hel. unfold FeatureDashboard.handleDemoClick.
    assert (Hbtn : DOM.contains "demo-btn"
                     (FeatureDashboard.target (demo_button "advanced-patterns")) = true)
      by (vm_compute; reflexivity).
    assert (Hact : DOM.dataset (FeatureDashboard.target (demo_button "advanced-patterns"))
                     !! "action" = Some "advanced-patterns")
      by (vm_compute; reflexivity).
    rewrite Hbtn, Hact. simpl negb. cbv iota.
    change (FeatureDashboard.demos (dashboard h doc)) with (registered h).
    rewrite registered_advanced_patterns.
    assert (Hrun : run h (AdvancedPatterns AdvancedPatternsDemo.constructor) =
                     (Throw slice_of_undefined,
                      AdvancedPatterns AdvancedPatternsDemo.constructor)).
    { unfold run, within. by rewrite AdvancedPatterns_rejects. }
    rewrite (runDemo_error_path run highlight h "advanced-patterns" _ _ _ el
               (dashboard h doc) Hrun Hel).
    reflexivity.
Qed.

(** ** Memoization *)

Section MemoizeFacts.
Import Memoize.
Context {A S : Type}.
Variable f : A → S → result value * S.
Variable keyGenerator : A → string.

Lemma memoize_first args (st : state (S := S)) r s' :
  st.1 !! keyGenerator args = None →
  f args st.2 = (Ok r, s') →
  memoize (outside f) keyGenerator args st =
    (Ok (memo_result r false), (<[keyGenerator args := r]> st.1, s')).
Proof.
  intros Hmiss Hf. unfold memoize, outside. rewrite Hmiss, Hf. done.
Qed.

Lemma memoize_again args (st : state (S := S)) r :
  st.1 !! keyGenerator args = Some r →
  memoize (outside f) keyGenerator args st = (Ok (memo_result r true), st).
Proof. intros Hhit. unfold memoize. by rewrite Hhit. Qed.

(** A call never takes an entry out of the cache nor changes one. *)
Lemma memoize_keeps args (st : state (S := S)) key r :
  st.1 !! key = Some r →
  (memoize (outside f) keyGenerator args st).2.1 !! key = Some r.
Proof.
  intros Hkey. unfold memoize, outside.
  destruct (st.1 !! keyGenerator args) as [hit|] eqn:Hhit; [done|].
  destruct (f args st.2) as [[res|e] s']; simpl; [|done].
  rewrite lookup_insert_ne; [done|]. intros Heq. congruence.
Qed.

Lemma call_all_keeps calls (st : state (S := S)) key r :
  st.1 !! key = Some r →
  (call_all (outside f) keyGenerator calls st).2.1 !! key = Some r.
Proof.
  revert st. induction calls as [|args calls IH]; intros st Hkey; [done|].
  simpl. pose proof (memoize_keeps args st key r Hkey) as Hk.
  destruct (memoize (outside f) keyGenerator args st) as [o st1].
  specialize (IH st1 Hk).
  by destruct (call_all (outside f) keyGenerator calls st1).
Qed.
End MemoizeFacts.

(** C9. The first call of a memoized function at a key runs [fn] and returns
    its result with [cached: false]; after any calls in between, a call whose
    arguments have the same key returns that result with [cached: true] and
    leaves everything as it was, the state on which [fn] works included: [fn]
    was not run again.  Here [fn] returns at [first] and works on a state of
    its own; [fibonacci], which calls its own memoized form, is evaluated as
    the demo runs it.  In [memoizationPattern] the two calls [fibonacci(10)]
    report [cached: false], then [cached: true] with the same value. *)
Theorem memoize_returns_cached {A S : Type} (fn : A → S → result value * S)
    (keyGenerator : A → string) (first later : A) (between : list A)
    (st : Memoize.state (S := S)) (r : value) (s' : S) :
  st.1 !! keyGenerator first = None →
  fn first st.2 = (Ok r, s') →
  keyGenerator later = keyGenerator first →
  let memoized := Memoize.memoize (Memoize.outside fn) keyGenerator in
  let st1 := (memoized first st).2 in
  let st2 := (Memoize.call_all (Memoize.outside fn) keyGenerator between st1).2 in
  ((memoized first st).1 = Ok (memo_result r false)
   ∧ memoized later st2 = (Ok (memo_result r true), st2))
  ∧ (let v := VStr "[object Object][object Object]" in
     let after := (AdvancedPatternsDemo.fibonacci 10 (∅, ())).2 in
     (AdvancedPatternsDemo.fibonacci 10 (∅, ())).1 = Ok (memo_result v false)
     ∧ AdvancedPatternsDemo.fibonacci 10 after = (Ok (memo_result v true), after)
     ∧ (AdvancedPatternsDemo.memoizationPattern AdvancedPatternsDemo.constructor).1 =
         Ok "⚡ Memoization Pattern:
Fibonacci(10) first call: [object Object][object Object] (cached: false)
Fibonacci(10) second call: [object Object][object Object] (cached: true)
Data processing result: 30").
Proof.
  intros Hmiss Hfn Hkey. cbv zeta. split.
  - rewrite (memoize_first fn keyGenerator first st r s' Hmiss Hfn). simpl.
    split; [done|].
    apply memoize_again. rewrite Hkey. apply call_all_keeps. simpl.
    apply lookup_insert_eq.
  - repeat split; vm_compute; reflexivity.
Qed.

Lemma memoize_returns_cached_witness :
  let key := λ n, AdvancedPatternsDemo.keyGenerator (VNum n) in
  let memoized := Memoize.memoize (Memoize.outside counted_square) key in
  let st1 := (memoized 3 (∅, 0%nat)).2 in
  let st2 := (Memoize.call_all (Memoize.outside counted_square) key [4; 3] st1).2 in
  (∅ : gmap string value) !! key 3 = None
  ∧ counted_square 3 0%nat = (Ok (VNum 9), 1%nat)
  ∧ key 3 = key 3
  ∧ st2.2 = 2%nat
  ∧ memoized 3 st2 = (Ok (memo_result (VNum 9) true), st2).
Proof.
  cbv zeta. split; [reflexivity|]. split; [reflexivity|]. split; [reflexivity|].
  split; [vm_compute; reflexivity|].
  exact (proj2 (proj1 (memoize_returns_cached counted_square
           (λ n, AdvancedPatternsDemo.keyGenerator (VNum n)) 3 3 [4; 3] (∅, 0%nat)
           (VNum 9) 1%nat eq_refl eq_refl eq_refl))).
Defined.

(** ** The emitter: what [once] keeps *)

Section EmitterFacts.
Import EventEmitter.
Context {W : Type}.
Implicit Types (e : t W) (cb : callback W) (l : list (callback W)).









Lemma listeners_on event cb e event' :
  listeners (on event cb e) event' =
    if decide (event = event') then listeners e event ++ [cb] else listeners e event'.
Proof.
  unfold listeners, on. simpl. destruct (decide (event = event')) as [<-|Hne].
  - by rewrite lookup_insert_eq.
  - by rewrite lookup_insert_ne.
Qed.

Lemma listeners_unsubscribe event id e e' event' :
  unsubscribe event id e = Ok e' →
  listeners e' event' =
    (if decide (event = event') then remove_first id (listeners e event)
     else listeners e event')
  ∧ calls e' = calls e ∧ fresh e' = fresh e.
Proof.
  unfold unsubscribe, listeners.
  destruct (events e !! event) as [l|] eqn:Hl; [|done].
  intros [= <-]. simpl. split; [|done].
  destruct (decide (event = event')) as [<-|Hne].
  - by rewrite lookup_insert_eq.
  - by rewrite lookup_insert_ne.
Qed.

Variable good : nat → Prop.













End EmitterFacts.



(** ** Debouncing *)

Section DebounceFacts.
Context {A W : Type}.
Variable func : A → nat → W → W.
Variable wait : nat.

Lemma debounce_step_pending (l : Timers.t W) (w : W) (id : nat) (args : A)
    (gap : nat) (args' : A) :
  Timers.pending l =
    [{| Timers.id := id; Timers.due := (Timers.now l + wait)%nat;
        Timers.callback := func args |}] →
  ∃ l',
    debounce_step func wait (l, w, Some id) (gap, args') =
      (l', (if (wait <=? gap)%nat then func args (Timers.now l + wait)%nat w else w),
       Some (Timers.next_id l))
    ∧ Timers.now l' = (Timers.now l + gap)%nat
    ∧ Timers.pending l' =
        [{| Timers.id := Timers.next_id l; Timers.due := (Timers.now l' + wait)%nat;
            Timers.callback := func args' |}].
Proof.
  intros Hp. unfold debounce_step, Timers.idle. simpl. rewrite Hp. simpl.
  destruct (wait <=? gap)%nat eqn:Hw.
  - assert (Hdue : (Timers.now l + wait <=? Timers.now l + gap)%nat = true).
    { apply Nat.leb_le. apply Nat.leb_le in Hw. lia. }
    rewrite Hdue. simpl. rewrite Nat.max_r by lia.
    eexists. split; [reflexivity|]. simpl. done.
  - assert (Hdue : (Timers.now l + wait <=? Timers.now l + gap)%nat = false).
    { apply Nat.leb_gt. apply Nat.leb_gt in Hw. lia. }
    rewrite Hdue. simpl.
    unfold Timers.debounced, Timers.clearTimeout, Timers.setTimeout. simpl.
    rewrite filter_cons_False by (simpl; intros H; by apply H).
    rewrite filter_nil. simpl.
    eexists. split; [reflexivity|]. simpl. done.
Qed.

Lemma debounce_script_from (rest : list (nat * A)) (l : Timers.t W) (w : W)
    (id : nat) (args : A) :
  Timers.pending l =
    [{| Timers.id := id; Timers.due := (Timers.now l + wait)%nat;
        Timers.callback := func args |}] →
  (Timers.drain (fold_left (debounce_step func wait) rest (l, w, Some id)).1).2 =
    fold_left (λ w run, func run.2 run.1 w) (runs_after wait (Timers.now l) args rest) w.
Proof.
  revert l w id args. induction rest as [|[gap args'] rest IH]; intros l w id args Hp.
  - simpl. unfold Timers.drain. simpl. rewrite Hp. simpl.
    by rewrite Nat.max_r by lia.
  - simpl fold_left at 1.
    destruct (debounce_step_pending l w id args gap args' Hp) as (l' & -> & Hnow & Hp').
    rewrite (IH l' _ _ args' Hp'). simpl runs_after. rewrite fold_left_app, Hnow.
    by destruct (wait <=? gap)%nat.
Qed.

Lemma debounce_script_runs (calls : list (nat * A)) (w : W) :
  debounce_script func wait calls w =
    fold_left (λ w run, func run.2 run.1 w) (runs wait calls) w.
Proof.
  unfold debounce_script. destruct calls as [|[gap args] rest]; [done|].
  simpl fold_left at 1.
  assert (Hfirst : ∃ l',
    debounce_step func wait (Timers.new, w, None) (gap, args) = (l', w, Some 1%nat)
    ∧ Timers.now l' = gap
    ∧ Timers.pending l' =
        [{| Timers.id := 1%nat; Timers.due := (Timers.now l' + wait)%nat;
            Timers.callback := func args |}]).
  { eexists. split; [reflexivity|]. simpl. done. }
  destruct Hfirst as (l' & -> & Hnow & Hp).
  rewrite (debounce_script_from rest l' w 1%nat args Hp). by rewrite Hnow.
Qed.

(** A burst: every call but the first comes less than [wait] after the one
    before.  One run remains, [wait] after the last call, with the
    arguments of that call. *)
Lemma runs_after_burst (t : nat) (args : A) (rest : list (nat * A)) :
  Forall (λ call, (call.1 < wait)%nat) rest →
  runs_after wait t args rest =
    [(((last_call t args rest).1 + wait)%nat, (last_call t args rest).2)].
Proof.
  revert t args. induction rest as [|[gap args'] rest IH]; intros t args Hb; [done|].
  apply Forall_cons in Hb as [Hgap Hb]. simpl in *.
  assert (Hw : (wait <=? gap)%nat = false) by (apply Nat.leb_gt; lia).
  rewrite Hw. simpl. by apply IH.
Qed.

Lemma debounce_pending_from (rest : list (nat * A)) (l : Timers.t W) (w : W)
    (id : nat) (args : A) :
  Timers.pending l =
    [{| Timers.id := id; Timers.due := (Timers.now l + wait)%nat;
        Timers.callback := func args |}] →
  (length (Timers.pending
             (fold_left (debounce_step func wait) rest (l, w, Some id)).1.1)
   ≤ 1)%nat.
Proof.
  revert l w id args.
  induction rest as [|[gap' args'] rest IH]; intros l w id args Hp.
  - simpl. rewrite Hp. simpl. lia.
  - simpl fold_left at 1.
    destruct (debounce_step_pending l w id args gap' args' Hp) as (l' & -> & _ & Hp').
    by eapply IH.
Qed.

(** After a call exactly one timer is pending: the one the call set. *)
Lemma debounce_pending_one (calls : list (nat * A)) (w : W) :
  (length (Timers.pending
             (fold_left (debounce_step func wait) calls (Timers.new, w, None)).1.1)
   ≤ 1)%nat.
Proof.
  destruct calls as [|[gap args] rest]; [simpl; lia|].
  simpl fold_left at 1.
  assert (Hfirst : ∃ l',
    debounce_step func wait (Timers.new, w, None) (gap, args) = (l', w, Some 1%nat)
    ∧ Timers.pending l' =
        [{| Timers.id := 1%nat; Timers.due := (Timers.now l' + wait)%nat;
            Timers.callback := func args |}]).
  { eexists. split; [reflexivity|]. simpl. done. }
  destruct Hfirst as (l & -> & Hp).
  by eapply debounce_pending_from.
Qed.
End DebounceFacts.

Section Simulation.
Import PerformanceDemo.

Lemma first_rapid_call dt :
  between_calls 1
    (rapid_call dt
       ((Timers.new,
         {| debounceCount := 0; throttleCount := 0; directCount := 0;
            inThrottle := false |}), None)).
Proof.
  unfold rapid_call, debouncedOperation, throttledOperation, Timers.debounced. simpl.
  rewrite Nat.leb_refl.
  eexists _, {| Timers.id := 1%nat |}, {| Timers.id := 2%nat |}.
  split; [reflexivity|]. simpl. split; [by right|]. repeat split; lia.
Qed.

Lemma next_rapid_call dt k s :
  between_calls k s → between_calls (k + 1) (rapid_call dt s).
Proof.
  intros (l & deb & thr & -> & Hp & Hcd & Hct & Hdd & Hdt & Hid & Hit & Hne).
  unfold rapid_call, debouncedOperation, throttledOperation, Timers.debounced,
    Timers.clearTimeout, Timers.setTimeout, Timers.busy. simpl.
  assert (Hf : filter (λ tm : Timers.timer sim, Timers.id tm ≠ Timers.id deb)
                 (Timers.pending l) = [thr]).
  { destruct Hp as [-> | ->].
    - rewrite filter_cons_True by done. rewrite filter_cons_False; [done|].
      intros H; by apply H.
    - rewrite filter_cons_False by (intros H; by apply H).
      by rewrite filter_cons_True. }
  rewrite Hf. simpl.
  assert (Hle : (Timers.due thr <=? Timers.now l + dt + 100)%nat = true)
    by (apply Nat.leb_le; lia).
  rewrite Hle.
  eexists _, {| Timers.id := Timers.next_id l |}, thr.
  split; [reflexivity|]. simpl. split; [by left|]. repeat split; try done; lia.
Qed.

Lemma rapid_calls gaps k s :
  between_calls k s →
  between_calls (k + Z.of_nat (length gaps)) (fold_left (λ s dt, rapid_call dt s) gaps s).
Proof.
  revert k s. induction gaps as [|dt gaps IH]; intros k s Hs; simpl.
  - by rewrite Z.add_0_r.
  - replace (k + Z.of_nat (S (length gaps)))
      with (k + 1 + Z.of_nat (length gaps)) by lia.
    apply IH. by apply next_rapid_call.
Qed.

Lemma await_after_calls dt k s :
  between_calls k s →
  (Timers.await_timer (Timers.setTimeout (λ _ w, w) 150 (Timers.busy dt s.1.1)).1
     ((Timers.setTimeout (λ _ w, w) 150 (Timers.busy dt s.1.1)).2, s.1.2)).2 =
    {| debounceCount := 1; throttleCount := 1; directCount := k; inThrottle := false |}.
Proof.
  intros (l & deb & thr & -> & Hp & Hcd & Hct & Hdd & Hdt & Hid & Hit & Hne).
  unfold Timers.await_timer, Timers.setTimeout, Timers.busy. simpl.
  assert (Hd : (Timers.due deb <=? Timers.now l + dt + 150)%nat = true)
    by (apply Nat.leb_le; lia).
  assert (Ht : (Timers.due thr <=? Timers.now l + dt + 150)%nat = true)
    by (apply Nat.leb_le; lia).
  destruct Hp as [-> | ->]; simpl; rewrite ?Hd, ?Ht; simpl;
    rewrite !decide_False by lia; rewrite decide_True by done;
    rewrite Hcd, Hct; reflexivity.
Qed.

Lemma simulation_counts h :
  simulation h =
    {| debounceCount := 1; throttleCount := 1; directCount := 50; inThrottle := false |}.
Proof.
  unfold simulation.
  set (start := ((Timers.new, _), None)).
  assert (Hs : between_calls 50
                 (fold_left (λ s i, rapid_call (elapsed h i) s) (seq 0 50) start)).
  { assert (Hseq : seq 0 50 = 0%nat :: seq 1 49) by reflexivity.
    rewrite Hseq.
    assert (Hhead : ∀ (f : world → nat → world) x l a,
              fold_left f (x :: l) a = fold_left f l (f a x)) by reflexivity.
    rewrite Hhead.
    assert (Hfold : ∀ (ks : list nat) s,
              fold_left (λ s dt, rapid_call dt s) (map (elapsed h) ks) s =
              fold_left (λ s i, rapid_call (elapsed h i) s) ks s).
    { induction ks as [|i ks IH]; intros s; [done|]. simpl. apply IH. }
    pose proof (rapid_calls (map (elapsed h) (seq 1 49)) 1
                  (rapid_call (elapsed h 0) start) (first_rapid_call _)) as H.
    rewrite length_map, length_seq, Hfold in H.
    replace (1 + Z.of_nat 49) with 50 in H by reflexivity.
    exact H. }
  set (s := fold_left _ _ _) in *.
  pose proof (await_after_calls (elapsed h 50) 50 s Hs) as H.
  destruct (Timers.setTimeout (λ _ w, w) 150 (Timers.busy (elapsed h 50) s.1.1)) as [resolve l'].
  exact H.
Qed.
End Simulation.

Lemma debouncingThrottling_text h d :
  PerformanceDemo.debouncingThrottling h d =
    (Ok "⚡ Debouncing & Throttling:
Direct calls: 50
Debounced calls: 1
Throttled calls: 1
Performance improvement: 98%", d).
Proof.
  unfold PerformanceDemo.debouncingThrottling. rewrite simulation_counts.
  vm_compute. reflexivity.
Qed.

(** C6. A call of a debounced function clears the timer of the call before
    and sets its own: one timer at most is pending.  Of a burst of calls,
    each less than [wait] after the one before, [func] runs once: [wait]
    after the last call, with its arguments; in any script of calls, the calls
    that run [func] are those after which no call came for [wait].  In the
    performance demo the 50 rapid calls run the debounced function once and
    the direct one 50 times. *)
Theorem debounce_runs_once_after_burst {A W : Type} (func : A → nat → W → W)
    (wait gap : nat) (args : A) (rest : list (nat * A)) (w : W) :
  Forall (λ call, (call.1 < wait)%nat) rest →
  let last := last_call gap args rest in
  (debounce_script func wait ((gap, args) :: rest) w =
     func last.2 (last.1 + wait)%nat w
   ∧ (∀ calls,
        debounce_script func wait calls w =
          fold_left (λ w run, func run.2 run.1 w) (runs wait calls) w)
   ∧ (∀ calls,
        (length (Timers.pending
                   (fold_left (debounce_step func wait) calls (Timers.new, w, None)).1.1)
         ≤ 1)%nat))
  ∧ (∀ h,
       PerformanceDemo.simulation h =
         {| PerformanceDemo.debounceCount := 1; PerformanceDemo.throttleCount := 1;
            PerformanceDemo.directCount := 50; PerformanceDemo.inThrottle := false |}
       ∧ ∀ d, (PerformanceDemo.debouncingThrottling h d).1 =
                Ok "⚡ Debouncing & Throttling:
Direct calls: 50
Debounced calls: 1
Throttled calls: 1
Performance improvement: 98%").
Proof.
  intros Hburst. cbv zeta. split; [split; [|split]|].
  - rewrite debounce_script_runs. simpl runs.
    by rewrite (runs_after_burst wait gap args rest Hburst).
  - intros calls. apply debounce_script_runs.
  - intros calls. apply debounce_pending_one.
  - intros h. split; [apply simulation_counts|].
    intros d. by rewrite debouncingThrottling_text.
Qed.

Lemma debounce_runs_once_after_burst_witness :
  Forall (λ call : nat * Z, (call.1 < 100)%nat) [(30%nat, 2); (99%nat, 3)]
  ∧ debounce_script logging 100 [(5%nat, 1); (30%nat, 2); (99%nat, 3)] [] = [(234%nat, 3)].
Proof.
  assert (Hb : Forall (λ call : nat * Z, (call.1 < 100)%nat) [(30%nat, 2); (99%nat, 3)]).
  { repeat constructor; simpl; lia. }
  split; [exact Hb|].
  exact (proj1 (proj1 (debounce_runs_once_after_burst logging 100 5 1
                         [(30%nat, 2); (99%nat, 3)] [] Hb))).
Defined.
(** * Further properties of the code *)

(** ** Object literals: assignment and spread *)

Lemma lookup_set_prop_eq key v props : lookup_prop key (set_prop key v props) = Some v.
Proof.
  induction props as [|[k x] props IH]; simpl.
  - by rewrite String.eqb_refl.
  - destruct (String.eqb_spec k key) as [->|Hne]; simpl.
    + by rewrite String.eqb_refl.
    + by destruct (String.eqb_spec k key).
Qed.

Lemma lookup_set_prop_ne key key' v props :
  key ≠ key' → lookup_prop key (set_prop key' v props) = lookup_prop key props.
Proof.
  intros Hne. induction props as [|[k x] props IH]; simpl.
  - by destruct (String.eqb_spec key' key).
  - destruct (String.eqb_spec k key') as [->|Hk]; simpl.
    + by destruct (String.eqb_spec key' key).
    + by rewrite IH.
Qed.

Lemma lookup_prop_None key props : lookup_prop key props = None ↔ key ∉ props.*1.
Proof.
  induction props as [|[k x] props IH]; simpl.
  - split; [intros _; apply not_elem_of_nil|done].
  - destruct (String.eqb_spec k key) as [->|Hne].
    + split; [done|]. intros H. destruct H. left.
    + rewrite IH, not_elem_of_cons. split; [intros H; split; [congruence|done]|by intros [_ H]].
Qed.

Lemma lookup_spread_miss key target source :
  lookup_prop key source = None →
  lookup_prop key (spread target source) = lookup_prop key target.
Proof.
  unfold spread. revert target.
  induction source as [|[k x] source IH]; intros target Hmiss; simpl in *; [done|].
  destruct (String.eqb_spec k key) as [->|Hne]; [done|].
  rewrite IH; [|done]. by apply lookup_set_prop_ne.
Qed.

Lemma lookup_spread_hit key target source v :
  NoDup source.*1 → lookup_prop key source = Some v →
  lookup_prop key (spread target source) = Some v.
Proof.
  unfold spread. revert target.
  induction source as [|[k x] source IH]; intros target Hnd Hhit; simpl in *; [done|].
  apply NoDup_cons in Hnd as [Hk Hnd].
  destruct (String.eqb_spec k key) as [->|Hne].
  - injection Hhit as ->.
    pose proof (lookup_spread_miss key (set_prop key v target) source) as H.
    unfold spread in H. rewrite H; [apply lookup_set_prop_eq|by apply lookup_prop_None].
  - by apply IH.
Qed.

Lemma spread_nil target : spread target [] = target.
Proof. done. Qed.

Lemma spread_one target key v : spread target [(key, v)] = set_prop key v target.
Proof. done. Qed.

Lemma get_own_obj props key :
  get_own (VObj props) key = default VUndefined (lookup_prop key props).
Proof. done. Qed.

Lemma set_prop_keys key v props :
  (set_prop key v props).*1 =
    if bool_decide (key ∈ props.*1) then props.*1 else props.*1 ++ [key].
Proof.
  induction props as [|[k x] props IH]; csimpl; [done|].
  destruct (String.eqb_spec k key) as [->|Hne]; csimpl.
  - rewrite bool_decide_eq_true_2; [done|left].
  - rewrite IH. destruct (decide (key ∈ props.*1)).
    + rewrite !bool_decide_eq_true_2; [done|by right|done].
    + rewrite !bool_decide_eq_false_2; [done| |done].
      rewrite not_elem_of_cons. split; congruence.
Qed.

Lemma set_prop_NoDup key v props : NoDup props.*1 → NoDup (set_prop key v props).*1.
Proof.
  intros Hnd. rewrite set_prop_keys. case_bool_decide; [done|].
  apply NoDup_app. split; [done|]. split; [|apply NoDup_singleton].
  intros k Hk ->%list_elem_of_singleton. done.
Qed.

Lemma spread_fresh acc l :
  NoDup l.*1 → (∀ k, k ∈ l.*1 → k ∉ acc.*1) → spread acc l = acc ++ l.
Proof.
  unfold spread. revert acc. induction l as [|[k v] l IH]; intros acc Hnd Hfresh; simpl.
  - by rewrite app_nil_r.
  - apply NoDup_cons in Hnd as [Hk Hnd].
    assert (Hset : set_prop k v acc = acc ++ [(k, v)]).
    { assert (Hacc : k ∉ acc.*1) by (apply Hfresh; left).
      clear -Hacc. induction acc as [|[k' x] acc IH]; simpl; [done|].
      simpl in Hacc. apply not_elem_of_cons in Hacc as [Hne Hacc].
      destruct (String.eqb_spec k' k); [congruence|]. by rewrite IH. }
    rewrite Hset, IH; [by rewrite <-app_assoc|done|].
    intros k' Hk'. rewrite fmap_app, not_elem_of_app. split.
    + apply Hfresh. by right.
    + simpl. intros ->%list_elem_of_singleton. done.
Qed.

(** ** modules/spreadRest.js *)

(** X1. Whatever the caller's options object holds, the request of
    [createApiRequest] carries the header [Authorization: Bearer token123];
    its [cache] is "default" unless the options say [cache: false], which is
    kept (any other cache setting of the caller is overwritten); [url] and
    [method] are the caller's when the options have them, the argument
    [baseUrl] and "GET" otherwise. *)
Theorem createApiRequest_auth_and_cache (baseUrl : string) (props : list (string * value)) :
  NoDup props.*1 →
  let request := SpreadRestDemo.createApiRequest baseUrl (VObj props) in
  get_own (get_own request "headers") "Authorization" = VStr "Bearer token123"
  ∧ get_own request "cache" =
      (if strict_eq (get_own (VObj props) "cache") (VBool false)
       then VBool false else VStr "default")
  ∧ get_own request "url" = default (VStr baseUrl) (lookup_prop "url" props)
  ∧ get_own request "method" = default (VStr "GET") (lookup_prop "method" props).
Proof.
  intros Hnd. unfold SpreadRestDemo.createApiRequest. cbv zeta.
  cbn [js_and truthy own_props]. rewrite spread_nil, spread_one.
  rewrite !get_own_obj.
  set (base := [("url", VStr baseUrl); ("method", VStr "GET")]).
  set (headers := VObj (set_prop "Authorization" _ _)).
  assert (Hlast : ∀ key r, key ≠ "cache" →
            lookup_prop key
              (spread r
                 (own_props
                    (js_and (VBool (negb (strict_eq
                                            (default VUndefined (lookup_prop "cache" props))
                                            (VBool false))))
                       (VObj [("cache", VStr "default")]))))
            = lookup_prop key r).
  { intros key r Hc. destruct (negb _); cbn [js_and truthy own_props].
    - rewrite spread_one. by apply lookup_set_prop_ne.
    - by rewrite spread_nil. }
  assert (Hkey : ∀ key d, key ≠ "headers" → key ≠ "cache" →
            lookup_prop key base = Some d →
            lookup_prop key
              (spread (set_prop "headers" headers (spread base props))
                 (own_props
                    (js_and (VBool (negb (strict_eq
                                            (default VUndefined (lookup_prop "cache" props))
                                            (VBool false))))
                       (VObj [("cache", VStr "default")]))))
            = Some (default d (lookup_prop key props))).
  { intros key d Hh Hc Hd. rewrite Hlast by done.
    rewrite lookup_set_prop_ne by done.
    destruct (lookup_prop key props) as [v|] eqn:Hp.
    - by rewrite (lookup_spread_hit _ _ _ v).
    - rewrite lookup_spread_miss by done. by rewrite Hd. }
  split; [|split; [|split]].
  - rewrite Hlast by done. rewrite lookup_set_prop_eq. cbn [from_option id]. unfold headers.
    rewrite get_own_obj. by rewrite lookup_set_prop_eq.
  - destruct (strict_eq _ (VBool false)) eqn:Hc; cbn [negb js_and truthy own_props].
    + rewrite spread_nil. rewrite lookup_set_prop_ne by done.
      destruct (lookup_prop "cache" props) as [v|] eqn:Hp; [|done].
      destruct v as [| |[]| | | | | |]; try done.
      by rewrite (lookup_spread_hit _ _ _ (VBool false)).
    + rewrite spread_one. by rewrite lookup_set_prop_eq.
  - by rewrite (Hkey "url" (VStr baseUrl)).
  - by rewrite (Hkey "method" (VStr "GET")).
Qed.

Lemma createApiRequest_auth_and_cache_witness :
  let props := [("cache", VBool false);
                ("headers", VObj [("Authorization", VStr "Basic abc")])] in
  let request := SpreadRestDemo.createApiRequest "/api/users" (VObj props) in
  NoDup props.*1
  ∧ get_own (get_own request "headers") "Authorization" = VStr "Bearer token123"
  ∧ get_own request "cache" = VBool false.
Proof.
  cbv zeta.
  assert (Hnd : NoDup [("cache", VBool false);
                       ("headers", VObj [("Authorization", VStr "Basic abc")])].*1).
  { apply (bool_decide_unpack _). vm_compute. reflexivity. }
  split; [exact Hnd|].
  pose proof (createApiRequest_auth_and_cache "/api/users" _ Hnd) as H.
  split; [exact (proj1 H)|exact (proj1 (proj2 H))].
Defined.

(** ** modules/arrowFunctions.js *)

(** X2. [compose] applies its functions from the last to the first: to
    compose the functions [fs] followed by [gs] is to run the composition of
    [gs] and then that of [fs]; of one function it is that function, and of
    none it returns its argument. *)
Theorem compose_right_to_left {A : Type} (fs gs : list (A → A)) (f : A → A) (x : A) :
  ArrowFunctionDemo.compose (fs ++ gs) x =
    ArrowFunctionDemo.compose fs (ArrowFunctionDemo.compose gs x)
  ∧ ArrowFunctionDemo.compose (f :: gs) x = f (ArrowFunctionDemo.compose gs x)
  ∧ ArrowFunctionDemo.compose [] x = x.
Proof. unfold ArrowFunctionDemo.compose. by rewrite foldr_app. Qed.

(** ** modules/destructuring.js *)

Lemma split_on_cons sep s : ∃ w ws, split_on sep s = w :: ws.
Proof.
  induction s as [|c s (w & ws & IH)]; simpl; [by eexists _, _|].
  destruct (Ascii.eqb c sep); [by eexists _, _|]. rewrite IH. by eexists _, _.
Qed.

Lemma split_on_app sep q r :
  split_on sep (q +:+ String sep r) = split_on sep q ++ split_on sep r.
Proof.
  induction q as [|c q IH]; simpl.
  - by rewrite Ascii.eqb_refl.
  - destruct (Ascii.eqb c sep); [by rewrite IH|].
    rewrite IH. by destruct (split_on_cons sep q) as (w & ws & ->).
Qed.

Lemma get_opt_undefined keys : fold_left get_opt keys VUndefined = VUndefined.
Proof. by induction keys. Qed.

Lemma extractProperties_fold obj props acc p :
  NoDup acc.*1 →
  p ∈ props ∨ lookup_prop p acc = Some (at_path obj p) →
  lookup_prop p
    (fold_left
       (λ result prop,
          let keys := split_on "." prop in
          let value := fold_left get_opt keys obj in
          set_prop prop value (spread [] result))
       props acc) = Some (at_path obj p).
Proof.
  revert acc. induction props as [|prop props IH]; intros acc Hnd Hp; simpl.
  - destruct Hp as [Hp|Hp]; [by apply elem_of_nil in Hp|done].
  - rewrite (spread_fresh [] acc) by (done || intros k _; apply not_elem_of_nil).
    simpl. apply IH; [by apply set_prop_NoDup|].
    destruct (decide (p = prop)) as [->|Hne].
    + right. apply lookup_set_prop_eq.
    + destruct Hp as [Hp|Hp].
      * left. apply elem_of_cons in Hp as [?|?]; done.
      * right. by rewrite lookup_set_prop_ne.
Qed.

(** X3. In the object that [extractProperties] returns, every path asked
    for whose keys read own properties only has the value found by following
    its keys from [obj] with [?.]; a path that runs on beyond a place where
    there is nothing (a missing key) has [undefined], and nothing is
    thrown. *)
Theorem extractProperties_paths (obj : value) (props : list string) (p : string) :
  p ∈ props →
  own_reads obj (split_on "." p) = true →
  get_own (DestructuringDemo.extractProperties obj props) p = at_path obj p
  ∧ (∀ q r, p = q +:+ "." +:+ r → at_path obj q = VUndefined →
            get_own (DestructuringDemo.extractProperties obj props) p = VUndefined).
Proof.
  intros Hp _.
  assert (H : get_own (DestructuringDemo.extractProperties obj props) p = at_path obj p).
  { unfold DestructuringDemo.extractProperties. rewrite get_own_obj.
    rewrite extractProperties_fold; [done|apply NoDup_nil_2|by left]. }
  split; [done|]. intros q r -> Hq. rewrite H. unfold at_path in *.
  change (q +:+ "." +:+ r) with (q +:+ String "." r).
  rewrite split_on_app, fold_left_app, Hq. apply get_opt_undefined.
Qed.

Lemma extractProperties_paths_witness :
  let data := DestructuringDemo.sampleData DestructuringDemo.constructor in
  let props := ["user.name"; "user.phone.mobile"] in
  "user.phone.mobile" ∈ props
  ∧ own_reads data (split_on "." "user.phone.mobile") = true
  ∧ at_path data "user.phone" = VUndefined
  ∧ get_own (DestructuringDemo.extractProperties data props) "user.phone.mobile" = VUndefined
  ∧ get_own (DestructuringDemo.extractProperties data props) "user.name" = VStr "John Doe".
Proof.
  cbv zeta.
  assert (Hin : "user.phone.mobile" ∈ ["user.name"; "user.phone.mobile"])
    by (right; left).
  assert (Hown : own_reads (DestructuringDemo.sampleData DestructuringDemo.constructor)
                   (split_on "." "user.phone.mobile") = true)
    by (vm_compute; reflexivity).
  split; [exact Hin|]. split; [exact Hown|]. split; [reflexivity|]. split.
  - exact (proj2 (extractProperties_paths
                    (DestructuringDemo.sampleData DestructuringDemo.constructor)
                    ["user.name"; "user.phone.mobile"] "user.phone.mobile" Hin Hown)
             "user.phone" "mobile" eq_refl eq_refl).
  - reflexivity.
Defined.



(** ** modules/templateLiterals.js *)

(** X5. With no project in [userData], [run] rejects: the first four
    examples are built, and [templateFunctions] throws the [TypeError] of
    reading [name] of [projects[0]], which is [undefined]. *)
Theorem run_without_projects (d : TemplateLiteralDemo.t) :
  TemplateLiteralDemo.projects (TemplateLiteralDemo.userData d) = [] →
  TemplateLiteralDemo.run d =
    (Throw (TypeError "Cannot read properties of undefined (reading 'name')"), d).
Proof.
  intros Hp. unfold TemplateLiteralDemo.run, TemplateLiteralDemo.basicTemplating,
    TemplateLiteralDemo.taggedTemplates, TemplateLiteralDemo.multilineTemplates,
    TemplateLiteralDemo.conditionalTemplating, TemplateLiteralDemo.templateFunctions.
  unfold mbind, method_bind, mret, method_ret, read, lift. cbv beta iota zeta.
  rewrite Hp. reflexivity.
Qed.

Lemma run_without_projects_witness :
  let d := {| TemplateLiteralDemo.userData :=
                {| TemplateLiteralDemo.name := "Ann";
                   TemplateLiteralDemo.role := "Developer";
                   TemplateLiteralDemo.experience := 1;
                   TemplateLiteralDemo.skills := ["JavaScript"];
                   TemplateLiteralDemo.projects := [] |} |} in
  TemplateLiteralDemo.projects (TemplateLiteralDemo.userData d) = []
  ∧ (TemplateLiteralDemo.run d).1 =
      Throw (TypeError "Cannot read properties of undefined (reading 'name')").
Proof.
  cbv zeta. split; [reflexivity|].
  rewrite (run_without_projects
             {| TemplateLiteralDemo.userData :=
                  {| TemplateLiteralDemo.name := "Ann";
                     TemplateLiteralDemo.role := "Developer";
                     TemplateLiteralDemo.experience := 1;
                     TemplateLiteralDemo.skills := ["JavaScript"];
                     TemplateLiteralDemo.projects := [] |} |} eq_refl).
  reflexivity.
Defined.

Lemma string_app_cons (x : ascii) (a b : string) : String x a +:+ b = String x (a +:+ b).
Proof. done. Qed.

Lemma string_app_assoc (a b c : string) : (a +:+ b) +:+ c = a +:+ (b +:+ c).
Proof. induction a as [|x a IH]; [done|]. by rewrite !string_app_cons, IH. Qed.

Lemma string_app_nil_r (a : string) : a +:+ "" = a.
Proof. induction a as [|x a IH]; [done|]. by rewrite string_app_cons, IH. Qed.

Lemma replace_quotes_paired (s : string) : quotes_paired (replace_all "'" "''" s) = true.
Proof.
  induction s as [|c s IH]; [done|]. cbn [replace_all].
  destruct (Ascii.eqb c "'") eqn:Hc.
  - change ("''" +:+ replace_all "'" "''" s)
      with (String "'" (String "'" (replace_all "'" "''" s))).
    cbn [quotes_paired]. by rewrite Ascii.eqb_refl.
  - change (String c "" +:+ replace_all "'" "''" s)
      with (String c (replace_all "'" "''" s)).
    cbn [quotes_paired]. by rewrite Hc.
Qed.

(** X6. The tag function [query] puts a string it is given between single
    quotes and doubles every single quote inside it: in the text between the
    outer quotes each quote comes with a second one, whatever the string. *)
Theorem query_quotes_value (before after value : string) :
  TemplateLiteralDemo.query [before; after] [value] =
    before +:+ "'" +:+ replace_all "'" "''" value +:+ "'" +:+ after
  ∧ quotes_paired (replace_all "'" "''" value) = true.
Proof.
  split; [|apply replace_quotes_paired].
  unfold TemplateLiteralDemo.query. cbn [imap map fold_left lookup list_lookup fst snd].
  cbn [from_option id]. by rewrite string_app_nil_r, !string_app_assoc.
Qed.

(** ** script.js: a run and the page *)

Section DashboardPage.
Import FeatureDashboard.
Context {Demo : Type} (run : Host → method Demo value) (highlight : string → string).

Lemma runDemo_no_output (h : Host) (action : string) (demo : Demo) (st : t Demo) :
  document st !! output_id action = None →
  runDemo run highlight h action demo st =
    (Throw null_innerHTML, (run h demo).2,
     {| demos := demos st; codeDisplay := codeDisplay st; document := document st;
        console := console st; timers := timers st;
        dispatched := dispatched st ++ [action] |}).
Proof.
  intros Hel. unfold runDemo, render, handleError. simpl.
  destruct (run h demo) as [[res|error] demo']; simpl; rewrite ?Hel; [|done].
  destruct (get res "output"); simpl; by rewrite Hel.
Qed.

Lemma string_length_app (a b : string) :
  String.length (a +:+ b) = (String.length a + String.length b)%nat.
Proof.
  induction a as [|x a IH]; [done|]. rewrite string_app_cons. simpl. by rewrite IH.
Qed.

Lemma output_id_not_code_display action : output_id action ≠ "code-display".
Proof.
  unfold output_id. intros H. pose proof (f_equal String.length H) as Hlen.
  rewrite string_length_app in Hlen. simpl in Hlen.
  destruct action as [|? [|? [|? [|? [|? [|? ?]]]]]]; simpl in *; try lia.
  cbv in H. congruence.
Qed.

Lemma runDemo_shows (h : Host) (action : string) (demo demo' : Demo)
    (output code : string) (el : DOM.element) (st : t Demo) :
  run h demo = (Ok (VObj [("output", VStr output); ("code", VStr code)]), demo') →
  document st !! output_id action = Some el →
  CodeDisplayManager.codeDisplay (codeDisplay st) = None
  ∨ CodeDisplayManager.codeDisplay (codeDisplay st) = Some "code-display" →
  let out := runDemo run highlight h action demo st in
  out.1 = (Ok (), demo')
  ∧ document out.2 !! output_id action =
      Some (DOM.add_class "highlight" (DOM.set_innerHTML output el))
  ∧ document out.2 !! "code-display" =
      match CodeDisplayManager.codeDisplay (codeDisplay st) with
      | Some _ => DOM.set_innerHTML (highlight code) <$> document st !! "code-display"
      | None => document st !! "code-display"
      end
  ∧ (∀ id, id ≠ output_id action → id ≠ "code-display" →
           document out.2 !! id = document st !! id)
  ∧ console out.2 = console st
  ∧ timers out.2 = timers st ++ [output_id action].
Proof.
  intros Hrun Hel Hcd. cbv zeta.
  pose proof (output_id_not_code_display action) as Hne.
  unfold runDemo, render. rewrite Hrun. simpl. rewrite Hel.
  unfold CodeDisplayManager.show, CodeDisplayManager.highlightSyntax.
  destruct Hcd as [Hcd|Hcd]; rewrite Hcd; simpl.
  - split; [done|]. rewrite !lookup_alter_eq, Hel. simpl. split; [done|].
    rewrite !lookup_alter_ne by done. split; [done|].
    split; [|done]. intros id H1 H2. by rewrite !lookup_alter_ne.
  - split; [done|]. rewrite lookup_alter_eq, !lookup_alter_ne, lookup_alter_eq, Hel by done.
    split; [done|].
    rewrite lookup_alter_ne, !lookup_alter_eq, lookup_alter_ne by done.
    split.
    + by destruct (document st !! "code-display").
    + split; [|done]. intros id H1 H2. by rewrite !lookup_alter_ne.
Qed.
End DashboardPage.

(** ** script.js: a click *)

Section DashboardClick.
Import FeatureDashboard.
Context {Demo : Type} (run : Host → method Demo value) (highlight : string → string).

Lemma handleError_demos action error (st : t Demo) :
  demos (handleError action error st).2 = demos st.
Proof. unfold handleError. by destruct (document st !! output_id action). Qed.

Lemma render_demos action res (st : t Demo) :
  demos (render highlight action res st).2 = demos st.
Proof.
  unfold render.
  destruct (document st !! output_id action), (get res "output"); simpl; try done.
  destruct (get res "code"); simpl; [|done].
  by destruct (CodeDisplayManager.show _ _ _ _ _) as [[[]|] []].
Qed.

Lemma runDemo_runs h action demo (st : t Demo) :
  (runDemo run highlight h action demo st).1.2 = (run h demo).2
  ∧ demos (runDemo run highlight h action demo st).2 = demos st.
Proof.
  unfold runDemo. destruct (run h demo) as [[res|error] demo']; simpl.
  - match goal with |- context [render _ _ _ ?s] =>
      pose proof (render_demos action res s) as Hr;
      destruct (render highlight action res s) as [[[]|e] st1] end; simpl in *; [done|].
    pose proof (handleError_demos action e st1) as He.
    destruct (handleError action e st1); simpl in *. split; [done|congruence].
  - match goal with |- context [handleError _ _ ?s] =>
      pose proof (handleError_demos action error s) as He;
      destruct (handleError action error s) end; simpl in *. done.
Qed.

Lemma pair_of_first {A B} (x : A * B) (a : A) : x.1 = a → x = (a, x.2).
Proof. intros <-. by destruct x. Qed.

Lemma handleDemoClick_run h ev action demo (st : t Demo) :
  DOM.contains "demo-btn" (target ev) = true →
  DOM.dataset (target ev) !! "action" = Some action →
  demos st !! action = Some demo →
  let out := runDemo run highlight h action demo st in
  handleDemoClick run highlight h ev st =
    {| demos := <[action := (run h demo).2]> (demos st);
       codeDisplay := codeDisplay out.2; document := document out.2;
       console := console out.2; timers := timers out.2;
       dispatched := dispatched st ++ [action] |}.
Proof.
  intros Hc Ha Hd. cbv zeta. unfold handleDemoClick. rewrite Hc, Ha, Hd. simpl.
  pose proof (runDemo_runs h action demo st) as [Hrun Hdemos].
  pose proof (runDemo_dispatched run highlight h action demo st) as Hdis.
  destruct (runDemo run highlight h action demo st) as [[r d'] st']. simpl in *.
  by rewrite Hrun, Hdemos, Hdis.
Qed.
End DashboardClick.

(** C5. A click runs a demo exactly when its target has the class demo-btn
    and its data-action is a key of [demos].  The run is [runDemo] of that key
    and its demo, once: the page, the console and the timers are the ones
    that this run leaves, and the demo is kept as its [run] left it.  So, where
    the page has the output element of the action, a run that resolves shows
    its output there, highlighted, and a run that throws shows the error
    there and logs it.  Any other click leaves the dashboard, the document
    included, as it was. *)
Theorem handleDemoClick_dispatches {Demo : Type} (run : Host → method Demo value)
    (highlight : string → string) (h : Host) (ev : FeatureDashboard.event)
    (st : FeatureDashboard.t Demo) :
  let asks action :=
    DOM.contains "demo-btn" (FeatureDashboard.target ev) = true ∧
    DOM.dataset (FeatureDashboard.target ev) !! "action" = Some action in
  let clicked := FeatureDashboard.handleDemoClick run highlight h ev st in
  (∀ action demo,
     asks action → FeatureDashboard.demos st !! action = Some demo →
     let out := FeatureDashboard.runDemo run highlight h action demo st in
     clicked =
       {| FeatureDashboard.demos := <[action := (run h demo).2]> (FeatureDashboard.demos st);
          FeatureDashboard.codeDisplay := FeatureDashboard.codeDisplay out.2;
          FeatureDashboard.document := FeatureDashboard.document out.2;
          FeatureDashboard.console := FeatureDashboard.console out.2;
          FeatureDashboard.timers := FeatureDashboard.timers out.2;
          FeatureDashboard.dispatched := FeatureDashboard.dispatched st ++ [action] |}
     ∧ (∀ el output code,
          FeatureDashboard.document st !! FeatureDashboard.output_id action = Some el →
          (run h demo).1 = Ok (VObj [("output", VStr output); ("code", VStr code)]) →
          CodeDisplayManager.codeDisplay (FeatureDashboard.codeDisplay st) = None
          ∨ CodeDisplayManager.codeDisplay (FeatureDashboard.codeDisplay st)
            = Some "code-display" →
          FeatureDashboard.document clicked !! FeatureDashboard.output_id action =
            Some (DOM.add_class "highlight" (DOM.set_innerHTML output el))
          ∧ FeatureDashboard.timers clicked =
              FeatureDashboard.timers st ++ [FeatureDashboard.output_id action]
          ∧ FeatureDashboard.console clicked = FeatureDashboard.console st)
     ∧ (∀ el error,
          FeatureDashboard.document st !! FeatureDashboard.output_id action = Some el →
          (run h demo).1 = Throw error →
          FeatureDashboard.document clicked =
            <[FeatureDashboard.output_id action :=
                DOM.set_innerHTML (error_html (message error)) el]>
              (FeatureDashboard.document st)
          ∧ FeatureDashboard.console clicked =
              FeatureDashboard.console st ++ [("Demo " +:+ action +:+ " failed:", error)]
          ∧ FeatureDashboard.timers clicked = FeatureDashboard.timers st))
  ∧ ((∀ action, asks action → FeatureDashboard.demos st !! action = None) → clicked = st)
  ∧ (FeatureDashboard.dispatched clicked ≠ FeatureDashboard.dispatched st ↔
     ∃ action, asks action ∧ is_Some (FeatureDashboard.demos st !! action)).
Proof.
  assert (Hgrow : ∀ (l : list string) a, l ++ [a] ≠ l).
  { intros l a H. apply (f_equal length) in H. rewrite length_app in H.
    simpl in H. lia. }
  assert (Hidle :
    (∀ action, DOM.contains "demo-btn" (FeatureDashboard.target ev) = true
               ∧ DOM.dataset (FeatureDashboard.target ev) !! "action" = Some action →
               FeatureDashboard.demos st !! action = None) →
    FeatureDashboard.handleDemoClick run highlight h ev st = st).
  { intros Hno. unfold FeatureDashboard.handleDemoClick.
    destruct (DOM.contains "demo-btn" (FeatureDashboard.target ev)) eqn:Hc; [|done]. simpl.
    destruct (DOM.dataset (FeatureDashboard.target ev) !! "action") as [action|] eqn:Ha;
      [|done].
    by rewrite (Hno action). }
  cbv zeta. split; [|split].
  - intros action demo [Hc Ha] Hd.
    pose proof (handleDemoClick_run run highlight h ev action demo st Hc Ha Hd) as Hclick.
    cbv zeta in Hclick. split; [exact Hclick|]. rewrite Hclick. simpl. split.
    + intros el output code Hel Hrun Hcd.
      apply (pair_of_first (run h demo)) in Hrun.
      destruct (runDemo_shows run highlight h action demo _ output code el st Hrun Hel Hcd)
        as (_ & Hout & _ & _ & Hcon & Htim).
      done.
    + intros el error Hel Hrun.
      apply (pair_of_first (run h demo)) in Hrun.
      rewrite (runDemo_error_path run highlight h action demo _ error el st Hrun Hel).
      done.
  - exact Hidle.
  - split.
    + intros Hne.
      destruct (DOM.contains "demo-btn" (FeatureDashboard.target ev)) eqn:Hc.
      2:{ destruct Hne. rewrite Hidle; [done|]. by intros ? [? ?]. }
      destruct (DOM.dataset (FeatureDashboard.target ev) !! "action") as [action|] eqn:Ha.
      2:{ destruct Hne. rewrite Hidle; [done|]. by intros ? [? ?]. }
      destruct (FeatureDashboard.demos st !! action) as [demo|] eqn:Hd.
      2:{ destruct Hne. rewrite Hidle; [done|]. intros a [_ [= <-]]. done. }
      exists action. by rewrite Hd.
    + intros (action & [Hc Ha] & [demo Hd]).
      rewrite (handleDemoClick_run run highlight h ev action demo st Hc Ha Hd). simpl.
      apply Hgrow.
Qed.

(** X7. On a page without the output element of the action, [runDemo]
    still runs the demo, once, and then rejects with the [TypeError] of
    setting [innerHTML] of [null], whether the run resolved or rejected:
    [handleError] meets the same missing element.  Nothing is written to the
    page or to the console. *)
Theorem runDemo_without_output_element {Demo : Type} (run : Host → method Demo value)
    (highlight : string → string) (h : Host) (action : string) (demo : Demo)
    (st : FeatureDashboard.t Demo) :
  FeatureDashboard.document st !! FeatureDashboard.output_id action = None →
  FeatureDashboard.runDemo run highlight h action demo st =
    (Throw null_innerHTML, (run h demo).2,
     {| FeatureDashboard.demos := FeatureDashboard.demos st;
        FeatureDashboard.codeDisplay := FeatureDashboard.codeDisplay st;
        FeatureDashboard.document := FeatureDashboard.document st;
        FeatureDashboard.console := FeatureDashboard.console st;
        FeatureDashboard.timers := FeatureDashboard.timers st;
        FeatureDashboard.dispatched := FeatureDashboard.dispatched st ++ [action] |}).
Proof. apply runDemo_no_output. Qed.

Lemma runDemo_without_output_element_witness :
  let demo := Destructuring DestructuringDemo.constructor in
  let st := {| FeatureDashboard.demos := {["destructuring" := demo]};
               FeatureDashboard.codeDisplay := CodeDisplayManager.constructor ∅;
               FeatureDashboard.document := ∅;
               FeatureDashboard.console := [];
               FeatureDashboard.timers := [];
               FeatureDashboard.dispatched := [] |} in
  FeatureDashboard.document st !! FeatureDashboard.output_id "destructuring" = None
  ∧ (FeatureDashboard.runDemo run id sample_host "destructuring" demo st).1.1 =
      Throw null_innerHTML
  ∧ FeatureDashboard.console
      (FeatureDashboard.runDemo run id sample_host "destructuring" demo st).2 = [].
Proof.
  cbv zeta. split; [reflexivity|].
  rewrite (runDemo_without_output_element run id sample_host "destructuring"
             (Destructuring DestructuringDemo.constructor)); [|reflexivity].
  split; reflexivity.
Defined.

(** X8. When the run of a demo resolves to an object with the strings
    [output] and [code] and the page has the output element of the action,
    [runDemo] resolves: the element holds [output] and has the class
    [highlight], a timer is set to take the class off again, the code display
    (if the page has one) holds the highlighted [code], and no other element
    and no console line has changed. *)
Theorem runDemo_shows_result {Demo : Type} (run : Host → method Demo value)
    (highlight : string → string) (h : Host) (action : string) (demo demo' : Demo)
    (output code : string) (el : DOM.element) (st : FeatureDashboard.t Demo) :
  run h demo = (Ok (VObj [("output", VStr output); ("code", VStr code)]), demo') →
  FeatureDashboard.document st !! FeatureDashboard.output_id action = Some el →
  CodeDisplayManager.codeDisplay (FeatureDashboard.codeDisplay st) = None
  ∨ CodeDisplayManager.codeDisplay (FeatureDashboard.codeDisplay st) = Some "code-display" →
  let out := FeatureDashboard.runDemo run highlight h action demo st in
  out.1 = (Ok (), demo')
  ∧ FeatureDashboard.document out.2 !! FeatureDashboard.output_id action =
      Some (DOM.add_class "highlight" (DOM.set_innerHTML output el))
  ∧ FeatureDashboard.document out.2 !! "code-display" =
      match CodeDisplayManager.codeDisplay (FeatureDashboard.codeDisplay st) with
      | Some _ =>
          DOM.set_innerHTML (highlight code) <$> FeatureDashboard.document st !! "code-display"
      | None => FeatureDashboard.document st !! "code-display"
      end
  ∧ (∀ id, id ≠ FeatureDashboard.output_id action → id ≠ "code-display" →
           FeatureDashboard.document out.2 !! id = FeatureDashboard.document st !! id)
  ∧ FeatureDashboard.console out.2 = FeatureDashboard.console st
  ∧ FeatureDashboard.timers out.2 =
      FeatureDashboard.timers st ++ [FeatureDashboard.output_id action].
Proof. apply runDemo_shows. Qed.

Lemma runDemo_shows_result_witness :
  let run : Host → method unit value :=
    λ _ d, (Ok (VObj [("output", VStr "done"); ("code", VStr "const x = 1")]), d) in
  let el := {| DOM.innerHTML := ""; DOM.classList := ["output"]; DOM.dataset := ∅ |} in
  let doc : DOM.document := {["demo-output" := el; "code-display" := el]} in
  let st := {| FeatureDashboard.demos := {["demo" := ()]};
               FeatureDashboard.codeDisplay := CodeDisplayManager.constructor doc;
               FeatureDashboard.document := doc;
               FeatureDashboard.console := [];
               FeatureDashboard.timers := [];
               FeatureDashboard.dispatched := [] |} in
  let out := FeatureDashboard.runDemo run (λ code, "<b>" +:+ code +:+ "</b>")
               sample_host "demo" () st in
  doc !! FeatureDashboard.output_id "demo" = Some el
  ∧ CodeDisplayManager.codeDisplay (FeatureDashboard.codeDisplay st) = Some "code-display"
  ∧ FeatureDashboard.document out.2 !! "demo-output" =
      Some {| DOM.innerHTML := "done"; DOM.classList := ["output"; "highlight"];
              DOM.dataset := ∅ |}
  ∧ FeatureDashboard.document out.2 !! "code-display" =
      Some {| DOM.innerHTML := "<b>const x = 1</b>"; DOM.classList := ["output"];
              DOM.dataset := ∅ |}.
Proof.
  cbv zeta.
  set (run := (λ (_ : Host) (d : unit),
                 (Ok (VObj [("output", VStr "done"); ("code", VStr "const x = 1")]), d))).
  set (el := {| DOM.innerHTML := ""; DOM.classList := ["output"]; DOM.dataset := ∅ |}).
  set (doc := ({["demo-output" := el; "code-display" := el]} : DOM.document)).
  set (st := {| FeatureDashboard.demos := {["demo" := ()]};
                FeatureDashboard.codeDisplay := CodeDisplayManager.constructor doc;
                FeatureDashboard.document := doc;
                FeatureDashboard.console := [];
                FeatureDashboard.timers := [];
                FeatureDashboard.dispatched := [] |}).
  assert (Hel : doc !! FeatureDashboard.output_id "demo" = Some el)
    by (vm_compute; reflexivity).
  assert (Hcd : CodeDisplayManager.codeDisplay (FeatureDashboard.codeDisplay st)
                = Some "code-display") by (vm_compute; reflexivity).
  split; [exact Hel|]. split; [exact Hcd|].
  pose proof (runDemo_shows_result run (λ code, "<b>" +:+ code +:+ "</b>") sample_host
                "demo" () () "done" "const x = 1" el st eq_refl Hel (or_intror Hcd)) as H.
  cbv zeta in H. destruct H as (_ & Hout & Hcode & _).
  split.
  - refine (eq_trans Hout _). vm_compute. reflexivity.
  - refine (eq_trans Hcode _). vm_compute. reflexivity.
Defined.

(** ** modules/advancedPatterns.js: the counter *)

Lemma since_reset_snoc ops o :
  since_reset (ops ++ [o]) =
    match o with
    | Reset => []
    | _ => since_reset ops ++ [o]
    end.
Proof. unfold since_reset. by rewrite fold_left_app. Qed.

Lemma net_snoc ops o :
  net (ops ++ [o]) =
    match o with
    | Increment step => net ops + step
    | Decrement step => net ops - step
    | Reset => net ops
    end.
Proof. unfold net. by rewrite fold_left_app. Qed.

(** X9. Whatever a program does with a counter, as long as its steps and its
    counts stay integers that a double holds exactly, [getValue] gives the
    initial value plus the steps taken since the last [reset], each with its
    sign, and [getHistory] has one line for each of these steps, in order. *)
Theorem counter_value_and_history (initial : Z) (ops : list counter_op) :
  safe_run initial ops = true →
  let c := fold_left counter_step ops (AdvancedPatternsDemo.createCounter initial) in
  AdvancedPatternsDemo.getValue c = initial + net (since_reset ops)
  ∧ AdvancedPatternsDemo.getHistory c = map history_line (since_reset ops).
Proof.
  intros _. cbv zeta.
  assert (H : let c := fold_left counter_step ops (AdvancedPatternsDemo.createCounter initial) in
              AdvancedPatternsDemo.initialValue c = initial
              ∧ AdvancedPatternsDemo.count c = initial + net (since_reset ops)
              ∧ AdvancedPatternsDemo.history c = map history_line (since_reset ops)).
  { induction ops as [|o ops IH] using rev_ind; cbv zeta.
    - simpl. split; [done|]. split; [unfold net; simpl; lia|done].
    - rewrite fold_left_app, since_reset_snoc. simpl.
      destruct IH as (Hi & Hc & Hh).
      destruct o as [step|step|]; simpl; rewrite ?Hi, ?Hc, ?Hh, ?net_snoc, ?map_app;
        (split; [done|]); (split; [unfold net; simpl; lia|done]). }
  destruct H as (_ & Hc & Hh). done.
Qed.

Lemma counter_value_and_history_witness :
  let ops := [Increment 5; Reset; Decrement 2; Increment 3] in
  let c := fold_left counter_step ops (AdvancedPatternsDemo.createCounter 10) in
  safe_run 10 ops = true
  ∧ AdvancedPatternsDemo.getValue c = 11
  ∧ AdvancedPatternsDemo.getHistory c = ["-2"; "+3"].
Proof.
  cbv zeta.
  assert (Hsafe : safe_run 10 [Increment 5; Reset; Decrement 2; Increment 3] = true)
    by (vm_compute; reflexivity).
  split; [exact Hsafe|].
  destruct (counter_value_and_history 10 [Increment 5; Reset; Decrement 2; Increment 3]
              Hsafe) as [Hvalue Hhistory].
  split.
  - refine (eq_trans Hvalue _). vm_compute. reflexivity.
  - refine (eq_trans Hhistory _). vm_compute. reflexivity.
Defined.

(** ** modules/advancedPatterns.js: memoize *)

Section MemoizeCache.
Import Memoize.
Context {A S : Type}.
Variable f : A → S → result value * S.
Variable keyGenerator : A → string.

Lemma memoize_cache args (st : state (S := S)) key :
  let out := memoize (outside f) keyGenerator args st in
  is_Some (out.2.1 !! key) ↔
    is_Some (st.1 !! key) ∨ ((∃ r, out.1 = Ok r) ∧ keyGenerator args = key).
Proof.
  cbv zeta. unfold memoize, outside.
  destruct (st.1 !! keyGenerator args) as [hit|] eqn:Hhit; simpl.
  - split; [by left|]. intros [?|[_ <-]]; [done|]. by rewrite Hhit.
  - destruct (f args st.2) as [[r|e] s']; simpl.
    + destruct (decide (keyGenerator args = key)) as [<-|Hne].
      * rewrite lookup_insert_eq. split; [|done]. intros _. right. split; [by eexists|done].
      * rewrite lookup_insert_ne by done. split; [by left|]. by intros [?|[_ ?]].
    + split; [by left|]. by intros [?|[[r [=]] _]].
Qed.

Lemma call_all_cache calls (st : state (S := S)) key :
  let out := call_all (outside f) keyGenerator calls st in
  is_Some (out.2.1 !! key) ↔
    is_Some (st.1 !! key)
    ∨ ∃ i args r, calls !! i = Some args ∧ out.1 !! i = Some (Ok r)
                  ∧ keyGenerator args = key.
Proof.
  cbv zeta. revert st. induction calls as [|args calls IH]; intros st.
  - simpl. split; [by left|]. intros [?|(i & a & r & Hi & _)]; [done|].
    by rewrite lookup_nil in Hi.
  - simpl. pose proof (memoize_cache args st key) as Hone. cbv zeta in Hone.
    destruct (memoize (outside f) keyGenerator args st) as [r1 st1].
    specialize (IH st1).
    destruct (call_all (outside f) keyGenerator calls st1) as [rs st2]. simpl in *.
    rewrite IH, Hone. split.
    + intros [[?|[[r ->] Hk]]|(i & a & r & Hi & Hr & Hk)].
      * by left.
      * right. by exists 0%nat, args, r.
      * right. by exists (Datatypes.S i), a, r.
    + intros [?|(i & a & r & Hi & Hr & Hk)]; [by left; left|].
      destruct i as [|i]; simpl in *.
      * injection Hi as ->. injection Hr as ->. left. right. split; [by eexists|done].
      * right. by exists i, a, r.
Qed.
End MemoizeCache.

(** X10. After any calls of a memoized function, its cache has an entry for
    a key exactly when it had one before or one of the calls with that key
    returned: a call in which [fn] throws stores nothing, so that the next
    call with that key runs [fn] again. *)
Theorem memoize_caches_what_returned {A S : Type} (fn : A → S → result value * S)
    (keyGenerator : A → string) (calls : list A) (st : Memoize.state (S := S))
    (key : string) :
  let out := Memoize.call_all (Memoize.outside fn) keyGenerator calls st in
  is_Some (out.2.1 !! key) ↔
    is_Some (st.1 !! key)
    ∨ ∃ i args r, calls !! i = Some args ∧ out.1 !! i = Some (Ok r)
                  ∧ keyGenerator args = key.
Proof. apply call_all_cache. Qed.

(** X11. The default key, [JSON.stringify(args)], is the same for the
    arguments [undefined], [null] and [NaN]: once a memoized function has
    returned for [undefined], a call with [null] or with [NaN] gets that
    result with [cached: true], and [fn] is not run on them. *)
Theorem memoize_null_shares_undefined {S : Type} (fn : value → S → result value * S)
    (st : Memoize.state (S := S)) (r : value) (s' : S) :
  st.1 !! "[null]" = None →
  fn VUndefined st.2 = (Ok r, s') →
  let memoized := Memoize.memoize (Memoize.outside fn) AdvancedPatternsDemo.keyGenerator in
  let st1 := (memoized VUndefined st).2 in
  st1.2 = s'
  ∧ memoized VNull st1 = (Ok (memo_result r true), st1)
  ∧ memoized VNaN st1 = (Ok (memo_result r true), st1).
Proof.
  intros Hmiss Hfn. cbv zeta.
  rewrite (memoize_first fn AdvancedPatternsDemo.keyGenerator VUndefined st r s' Hmiss Hfn).
  simpl. split; [done|].
  split; apply memoize_again; apply lookup_insert_eq.
Qed.

Lemma memoize_null_shares_undefined_witness :
  let fn : value → nat → result value * nat :=
    λ v count, (Ok (VStr (to_string v)), S count) in
  let memoized := Memoize.memoize (Memoize.outside fn) AdvancedPatternsDemo.keyGenerator in
  let st1 := (memoized VUndefined (∅, 0%nat)).2 in
  (∅ : gmap string value) !! "[null]" = None
  ∧ fn VUndefined 0%nat = (Ok (VStr "undefined"), 1%nat)
  ∧ memoized VNull st1 = (Ok (memo_result (VStr "undefined") true), st1).
Proof.
  cbv zeta. split; [reflexivity|]. split; [reflexivity|].
  exact (proj1 (proj2 (memoize_null_shares_undefined
                         (λ v count, (Ok (VStr (to_string v)), S count))
                         (∅, 0%nat) (VStr "undefined") 1%nat eq_refl eq_refl))).
Defined.

(** ** modules/advancedPatterns.js: fibonacci *)

Section Fibonacci.
Import AdvancedPatternsDemo.

Lemma fibonacci_at_object depth n st :
  (Z.to_nat n < depth)%nat →
  ∃ r c st', fibonacci_at depth n st = (Ok (memo_result r c), st').
Proof.
  revert n st. induction depth as [|depth IH]; intros n st Hd; [lia|].
  simpl. unfold Memoize.memoize at 1.
  destruct (st.1 !! keyGenerator (VNum n)) as [hit|]; [by eexists _, _, _|].
  destruct (n <=? 1) eqn:Hn; [by eexists _, _, _|].
  apply Z.leb_gt in Hn.
  unfold Memoize.memoize at 1. simpl. rewrite lookup_empty.
  unfold Memoize.outside at 1. simpl.
  destruct (IH (n - 1) st) as (ra & ca & st1 & ->); [lia|]. simpl.
  unfold Memoize.memoize at 1. simpl.
  destruct (decide (keyGenerator (VNum (n - 2)) = keyGenerator (VNum (n - 1)))) as [->|Hne].
  - rewrite lookup_insert_eq. simpl. by eexists _, _, _.
  - rewrite lookup_insert_ne by done. rewrite lookup_empty.
    unfold Memoize.outside at 1. simpl.
    destruct (IH (n - 2) st1) as (rb & cb & st2 & ->); [lia|]. simpl.
    by eexists _, _, _.
Qed.

Lemma fibonacci_at_string depth n st :
  (Z.to_nat n < depth)%nat → 2 ≤ n →
  st.1 !! keyGenerator (VNum n) = None →
  (fibonacci_at depth n st).1 =
    Ok (memo_result (VStr "[object Object][object Object]") false).
Proof.
  intros Hd Hn Hmiss. destruct depth as [|depth]; [lia|].
  simpl. unfold Memoize.memoize at 1. rewrite Hmiss.
  destruct (n <=? 1) eqn:Hle; [apply Z.leb_le in Hle; lia|].
  unfold Memoize.memoize at 1. simpl. rewrite lookup_empty.
  unfold Memoize.outside at 1. simpl.
  destruct (fibonacci_at_object depth (n - 1) st) as (ra & ca & st1 & ->); [lia|]. simpl.
  unfold Memoize.memoize at 1. simpl.
  destruct (decide (keyGenerator (VNum (n - 2)) = keyGenerator (VNum (n - 1)))) as [->|Hne].
  - rewrite lookup_insert_eq. simpl. done.
  - rewrite lookup_insert_ne by done. rewrite lookup_empty.
    unfold Memoize.outside at 1. simpl.
    destruct (fibonacci_at_object depth (n - 2) st1) as (rb & cb & st2 & ->); [lia|]. simpl.
    done.
Qed.

Lemma fibonacci_at_small depth n st :
  (0 < depth)%nat → n ≤ 1 →
  st.1 !! keyGenerator (VNum n) = None →
  (fibonacci_at depth n st).1 = Ok (memo_result (VNum n) false).
Proof.
  intros Hd Hn Hmiss. destruct depth as [|depth]; [lia|].
  simpl. unfold Memoize.memoize at 1. rewrite Hmiss.
  destruct (n <=? 1) eqn:Hle; [done|]. apply Z.leb_gt in Hle. lia.
Qed.
End Fibonacci.

(** X12. What the memoized [fibonacci] gives on a first call, with stack
    enough for its nesting: [n] itself for [n <= 1], and for every [n] from 2
    on the string "[object Object][object Object]", since each level adds the
    two objects that the memoized function returns and not their [result]
    numbers: no Fibonacci number is computed from 2 on. *)
Theorem fibonacci_adds_objects (depth : nat) (n : Z)
    (st : Memoize.state (S := unit)) :
  (Z.to_nat n < depth)%nat →
  st.1 !! AdvancedPatternsDemo.keyGenerator (VNum n) = None →
  (AdvancedPatternsDemo.fibonacci_at depth n st).1 =
    Ok (memo_result (if n <=? 1 then VNum n
                     else VStr "[object Object][object Object]") false).
Proof.
  intros Hd Hmiss. destruct (n <=? 1) eqn:Hn.
  - apply Z.leb_le in Hn. apply fibonacci_at_small; [lia|done..].
  - apply Z.leb_gt in Hn. apply fibonacci_at_string; [done|lia|done].
Qed.

Lemma fibonacci_adds_objects_witness :
  (Z.to_nat 30 < 31)%nat
  ∧ (∅ : gmap string value) !! AdvancedPatternsDemo.keyGenerator (VNum 30) = None
  ∧ (AdvancedPatternsDemo.fibonacci 30 (∅, ())).1 =
      Ok (memo_result (VStr "[object Object][object Object]") false).
Proof.
  assert (Hd : (Z.to_nat 30 < 31)%nat) by (vm_compute; lia).
  split; [exact Hd|]. split; [reflexivity|].
  exact (fibonacci_adds_objects 31 30 (∅, ()) Hd eq_refl).
Defined.

(** ** modules/advancedPatterns.js: the emitter, listener by listener *)

Section EmitterOrder.
Import EventEmitter.
Context {W : Type}.
Implicit Types (e : t W) (cb : callback W) (l : list (callback W)).

Lemma remove_first_snoc l cb :
  (∀ c, c ∈ l → ident c ≠ ident cb) → remove_first (ident cb) (l ++ [cb]) = l.
Proof.
  induction l as [|c l IH]; intros H; simpl.
  - by rewrite decide_True.
  - rewrite decide_False by (apply H; left). f_equal. apply IH.
    intros c' Hc'. apply H. by right.
Qed.

Lemma on_unsubscribe e event cb :
  (∀ c, c ∈ listeners e event → ident c ≠ ident cb) →
  ∃ e', unsubscribe event (ident cb) (on event cb e) = Ok e'
        ∧ (∀ event', listeners e' event' = listeners e event')
        ∧ calls e' = calls e.
Proof.
  intros Hnew.
  destruct (unsubscribe event (ident cb) (on event cb e)) as [e'|x] eqn:Hun.
  - exists e'. split; [done|].
    split; [|by pose proof (listeners_unsubscribe _ _ _ _ event Hun) as (_ & ? & _)].
    intros event'. pose proof (listeners_unsubscribe _ _ _ _ event' Hun) as (-> & _).
    rewrite !listeners_on. destruct (decide (event = event')) as [<-|Hne]; [|done].
    rewrite decide_True by done. by apply remove_first_snoc.
  - unfold unsubscribe, on in Hun. simpl in Hun. by rewrite lookup_insert_eq in Hun.
Qed.

Lemma with_calls_nil e : with_calls [] e = e.
Proof. destruct e. unfold with_calls. simpl. by rewrite app_nil_r. Qed.

Lemma with_calls_cons id ids e : with_calls ids (called id e) = with_calls (id :: ids) e.
Proof. unfold with_calls, called. simpl. by rewrite <-app_assoc. Qed.

Lemma emit_from_plain rest : ∀ k event data e w,
  drop k (listeners e event) = rest →
  (∀ cb, cb ∈ rest → once_for cb = None) →
  emit_from (length rest) k event data (e, w) =
    match call_in_order rest data w with
    | (r, ids, w') => (r, (with_calls ids e, w'))
    end.
Proof.
  induction rest as [|cb rest IH]; intros k event data e w Hdrop Hplain; simpl.
  - by rewrite with_calls_nil.
  - assert (Hk : listeners e event !! k = Some cb).
    { pose proof (lookup_drop (listeners e event) k 0) as H0.
      rewrite Hdrop, Nat.add_0_r in H0. by rewrite <-H0. }
    rewrite Hk. unfold invoke. simpl.
    destruct (code cb data w) as [[v|x] w'] eqn:Hcode.
    + rewrite (Hplain cb) by left.
      rewrite (IH (S k) event data (called (ident cb) e) w').
      * destruct (call_in_order rest data w') as [[[vs|x] ids] w''];
          by rewrite with_calls_cons.
      * change (listeners (called (ident cb) e) event) with (listeners e event).
        replace (S k) with (k + 1)%nat by lia. by rewrite <-drop_drop, Hdrop.
      * intros c Hc. apply Hplain. by right.
    + done.
Qed.

Lemma emit_plain event data e w :
  (∀ cb, cb ∈ listeners e event → once_for cb = None) →
  emit event data (e, w) =
    match call_in_order (listeners e event) data w with
    | (r, ids, w') => (r, (with_calls ids e, w'))
    end.
Proof.
  intros Hplain. unfold emit. simpl. by apply emit_from_plain.
Qed.

Lemma emit_once_then_other event data e w cb1 cb2 v w1 :
  listeners e event = [cb1; cb2] →
  once_for cb1 = Some event →
  ident cb2 ≠ ident cb1 →
  code cb1 data w = (Ok v, w1) →
  let after := (emit event data (e, w)).2 in
  calls after.1 = calls e ++ [ident cb1]
  ∧ listeners after.1 event = [cb2]
  ∧ after.2 = w1.
Proof.
  intros Hl Ho Hne Hcode. cbv zeta. unfold emit. simpl. rewrite Hl. simpl.
  change (listeners (e, w).1 event) with (listeners e event). rewrite Hl. simpl.
  unfold invoke. simpl. rewrite Hcode, Ho.
  destruct (unsubscribe event (ident cb1) (called (ident cb1) e)) as [e'|x] eqn:Hun.
  - pose proof (listeners_unsubscribe _ _ _ _ event Hun) as (Hl' & Hc' & _).
    rewrite decide_True in Hl' by done.
    change (listeners (called (ident cb1) e) event) with (listeners e event) in Hl'.
    rewrite Hl in Hl'. simpl in Hl'. rewrite decide_True in Hl' by done.
    simpl. rewrite Hl'. simpl. by rewrite Hl', Hc'.
  - unfold unsubscribe in Hun. simpl in Hun.
    unfold listeners in Hl. destruct (events e !! event); done.
Qed.
End EmitterOrder.

(** X13. To subscribe a callback with [on] and then call the function that
    [on] returned leaves every event with the listeners it had, when the
    callback was not among the listeners of the event before (otherwise it is
    the earlier registration that is taken out); no listener is invoked. *)
Theorem on_then_unsubscribe {W : Type} (e : EventEmitter.t W) (event : string)
    (cb : EventEmitter.callback W) :
  (∀ c, c ∈ EventEmitter.listeners e event → EventEmitter.ident c ≠ EventEmitter.ident cb) →
  ∃ e', EventEmitter.unsubscribe event (EventEmitter.ident cb)
          (EventEmitter.on event cb e) = Ok e'
        ∧ (∀ event', EventEmitter.listeners e' event' = EventEmitter.listeners e event')
        ∧ EventEmitter.calls e' = EventEmitter.calls e.
Proof. apply on_unsubscribe. Qed.

Lemma on_then_unsubscribe_witness :
  let e := EventEmitter.on "tick" (quiet 0) (@EventEmitter.new unit) in
  (∀ c, c ∈ EventEmitter.listeners e "tick" →
        EventEmitter.ident c ≠ EventEmitter.ident (quiet (W := unit) 1))
  ∧ ∃ e', EventEmitter.unsubscribe "tick" (EventEmitter.User 1)
            (EventEmitter.on "tick" (quiet 1) e) = Ok e'
          ∧ EventEmitter.listeners e' "tick" = [quiet 0].
Proof.
  cbv zeta.
  assert (Hnew : ∀ c,
            c ∈ EventEmitter.listeners
                  (EventEmitter.on "tick" (quiet 0) (@EventEmitter.new unit)) "tick" →
            EventEmitter.ident c ≠ EventEmitter.ident (quiet (W := unit) 1)).
  { intros c Hc. change (c ∈ [quiet (W := unit) 0]) in Hc.
    apply list_elem_of_singleton in Hc as ->. discriminate. }
  split; [exact Hnew|].
  destruct (on_then_unsubscribe _ "tick" (quiet 1) Hnew) as (e' & Hun & Hl & _).
  exists e'. split; [exact Hun|]. by rewrite Hl.
Defined.

(** X14. When no listener of an event comes from [once], [emit] calls the
    listeners one after the other in the order of their subscription, each
    with the data, and returns their results in that order; the first listener
    that throws ends the [emit] with its exception, and the listeners after it
    are not called.  For an event without listeners the result is the empty
    array.  The subscriptions stay as they were. *)
Theorem emit_calls_in_order {W : Type} (event : string) (data : value)
    (e : EventEmitter.t W) (w : W) :
  (∀ cb, cb ∈ EventEmitter.listeners e event → EventEmitter.once_for cb = None) →
  EventEmitter.emit event data (e, w) =
    match call_in_order (EventEmitter.listeners e event) data w with
    | (r, ids, w') => (r, (with_calls ids e, w'))
    end.
Proof. apply emit_plain. Qed.

Lemma emit_calls_in_order_witness :
  let john := VObj [("name", VStr "John")] in
  (∀ cb, cb ∈ EventEmitter.listeners AdvancedPatternsDemo.subscribed.1 "user:login" →
         EventEmitter.once_for cb = None)
  ∧ (EventEmitter.emit "user:login" john AdvancedPatternsDemo.subscribed).1 =
      Ok [VUndefined]
  ∧ (EventEmitter.emit "user:login" john AdvancedPatternsDemo.subscribed).2.2 =
      ["User John logged in"]
  ∧ (EventEmitter.emit "absent" john AdvancedPatternsDemo.subscribed).1 = Ok [].
Proof.
  cbv zeta.
  assert (Hplain : ∀ event, event = "user:login" ∨ event = "absent" →
            ∀ cb, cb ∈ EventEmitter.listeners AdvancedPatternsDemo.subscribed.1 event →
                  EventEmitter.once_for cb = None).
  { intros event [->| ->] cb Hcb.
    - assert (Hl : EventEmitter.listeners AdvancedPatternsDemo.subscribed.1 "user:login" =
                     [{| EventEmitter.ident := EventEmitter.User 0;
                         EventEmitter.once_for := None;
                         EventEmitter.code := AdvancedPatternsDemo.on_login |}])
        by (vm_compute; reflexivity).
      rewrite Hl in Hcb. by apply list_elem_of_singleton in Hcb as ->.
    - assert (Hl : EventEmitter.listeners AdvancedPatternsDemo.subscribed.1 "absent" = [])
        by (vm_compute; reflexivity).
      rewrite Hl in Hcb. by apply elem_of_nil in Hcb. }
  split; [exact (Hplain "user:login" (or_introl eq_refl))|].
  pose proof (emit_calls_in_order "user:login" (VObj [("name", VStr "John")])
                AdvancedPatternsDemo.subscribed.1 AdvancedPatternsDemo.subscribed.2
                (Hplain "user:login" (or_introl eq_refl))) as Hlogin.
  pose proof (emit_calls_in_order "absent" (VObj [("name", VStr "John")])
                AdvancedPatternsDemo.subscribed.1 AdvancedPatternsDemo.subscribed.2
                (Hplain "absent" (or_intror eq_refl))) as Habsent.
  assert (Hs : AdvancedPatternsDemo.subscribed =
               (AdvancedPatternsDemo.subscribed.1, AdvancedPatternsDemo.subscribed.2))
    by (by destruct AdvancedPatternsDemo.subscribed).
  rewrite Hs. rewrite Hlogin, Habsent. repeat split; vm_compute; reflexivity.
Defined.

(** X15. A listener that stands right after a listener of [once] misses the
    emit that runs the latter: when the listeners of an event are a closure of
    [once] and then one other function, [emit] invokes the closure only (it
    takes itself out of the array that [map] is going through), and the other
    listener, not called, is the one left subscribed. *)
Theorem emit_skips_after_once {W : Type} (event : string) (data : value)
    (e : EventEmitter.t W) (w : W) (cb1 cb2 : EventEmitter.callback W)
    (v : value) (w1 : W) :
  EventEmitter.listeners e event = [cb1; cb2] →
  EventEmitter.once_for cb1 = Some event →
  EventEmitter.ident cb2 ≠ EventEmitter.ident cb1 →
  EventEmitter.code cb1 data w = (Ok v, w1) →
  let after := (EventEmitter.emit event data (e, w)).2 in
  EventEmitter.calls after.1 = EventEmitter.calls e ++ [EventEmitter.ident cb1]
  ∧ EventEmitter.listeners after.1 event = [cb2]
  ∧ after.2 = w1.
Proof. apply emit_once_then_other. Qed.

Lemma emit_skips_after_once_witness :
  let count : EventEmitter.body nat := λ _ n, (Ok VUndefined, S n) in
  let s := EventEmitter.exec_all
             [EventEmitter.Once "ready" count; EventEmitter.On "ready" 7 count]
             (EventEmitter.new, 0%nat) in
  let cb1 := {| EventEmitter.ident := EventEmitter.Wrapper 0;
                EventEmitter.once_for := Some "ready"; EventEmitter.code := count |} in
  let cb2 := {| EventEmitter.ident := EventEmitter.User 7;
                EventEmitter.once_for := None; EventEmitter.code := count |} in
  EventEmitter.listeners s.1 "ready" = [cb1; cb2]
  ∧ EventEmitter.calls (EventEmitter.emit "ready" VUndefined (s.1, 0%nat)).2.1 =
      [EventEmitter.Wrapper 0]
  ∧ (EventEmitter.emit "ready" VUndefined (s.1, 0%nat)).2.2 = 1%nat.
Proof.
  cbv zeta.
  set (count := (λ (_ : value) (n : nat), (Ok VUndefined, S n)) : EventEmitter.body nat).
  set (s := EventEmitter.exec_all
              [EventEmitter.Once "ready" count; EventEmitter.On "ready" 7 count]
              (EventEmitter.new, 0%nat)).
  assert (Hl : EventEmitter.listeners s.1 "ready" =
               [{| EventEmitter.ident := EventEmitter.Wrapper 0;
                   EventEmitter.once_for := Some "ready"; EventEmitter.code := count |};
                {| EventEmitter.ident := EventEmitter.User 7;
                   EventEmitter.once_for := None; EventEmitter.code := count |}])
    by (vm_compute; reflexivity).
  split; [exact Hl|].
  destruct (emit_skips_after_once "ready" VUndefined s.1 0%nat _ _ VUndefined 1%nat
              Hl eq_refl ltac:(discriminate) eq_refl) as (Hc & _ & Hw).
  split; [exact Hc|exact Hw].
Defined.

(** ** modules/advancedPatterns.js: the user module *)

Section UserModuleFacts.
Import AdvancedPatternsDemo.

Lemma create_numbered h k userData m :
  lookup_prop "id" (own_props userData) = None →
  numbered m → numbered (create h k userData m).2.
Proof.
  intros Hid [Hc Hu]. unfold create.
  destruct (validateUser userData) as [valid|e]; [|done].
  destruct (truthy valid); [|done]. cbn [negb snd users currentId].
  split; cbn [users currentId].
  - rewrite length_app. simpl. lia.
  - intros i user Hi. apply lookup_app_Some in Hi as [Hi|[Hlen Hi]]; [by apply Hu|].
    apply list_lookup_singleton_Some in Hi as [Hi <-].
    rewrite get_own_obj, lookup_set_prop_ne by done.
    rewrite lookup_spread_miss by done. simpl. f_equal. lia.
Qed.

Lemma create_all_numbered h datas : ∀ k m,
  (∀ d, d ∈ datas → lookup_prop "id" (own_props d) = None) →
  numbered m → numbered (create_all h k datas m).2.
Proof.
  induction datas as [|d datas IH]; intros k m Hid Hm; [done|]. simpl.
  pose proof (create_numbered h k d m (Hid d ltac:(left)) Hm) as H1.
  destruct (create h k d m) as [[user|e] m'].
  - specialize (IH (S k) m' (λ d Hd, Hid d ltac:(by right)) H1).
    by destruct (create_all h (S k) datas m').
  - specialize (IH k m' (λ d Hd, Hid d ltac:(by right)) H1).
    by destruct (create_all h k datas m').
Qed.

Lemma find_numbered (l : list value) (base : Z) i user :
  (∀ j u, l !! j = Some u → get_own u "id" = VNum (base + Z.of_nat j)) →
  l !! i = Some user →
  List.find (λ u, strict_eq (get_own u "id") (VNum (base + Z.of_nat i))) l = Some user.
Proof.
  revert base i. induction l as [|u l IH]; intros base i Hall Hi; [done|].
  cbn [List.find]. rewrite (Hall 0%nat u) by done. cbn [strict_eq].
  destruct i as [|i].
  - injection Hi as ->. by rewrite Z.eqb_refl.
  - destruct (base + Z.of_nat 0 =? base + Z.of_nat (S i)) eqn:He; [apply Z.eqb_eq in He; lia|].
    replace (base + Z.of_nat (S i)) with (base + 1 + Z.of_nat i) by lia.
    apply IH; [|done]. intros j u' Hj. rewrite (Hall (S j) u') by done. f_equal. lia.
Qed.
End UserModuleFacts.



(** X17. When no [userData] given to [create] has an [id] of its own, the
    users of the module carry the numbers 1, 2, ... in the order of their
    creation, calls that threw using none up; the next number is the count of
    users plus one, and [findById] with the number of a user finds that
    user. *)
Theorem created_users_are_numbered (h : Host) (datas : list value) :
  (∀ d, d ∈ datas → lookup_prop "id" (own_props d) = None) →
  let m := (create_all h 0 datas new_UserModule).2 in
  AdvancedPatternsDemo.currentId m = 1 + Z.of_nat (AdvancedPatternsDemo.user_count m)
  ∧ ∀ i user,
      AdvancedPatternsDemo.users m !! i = Some user →
      get_own user "id" = VNum (Z.of_nat i + 1)
      ∧ AdvancedPatternsDemo.findById (VNum (Z.of_nat i + 1)) m = Some user.
Proof.
  intros Hid. cbv zeta.
  destruct (create_all_numbered h datas 0 new_UserModule Hid) as [Hc Hu].
  { split; [done|]. intros i user Hi. by destruct i. }
  split; [done|]. intros i user Hi. split; [by apply Hu|].
  unfold AdvancedPatternsDemo.findById. rewrite (Z.add_comm (Z.of_nat i) 1).
  apply find_numbered; [|done]. intros j u Hj. rewrite (Hu j u Hj). f_equal. lia.
Qed.

Lemma created_users_are_numbered_witness :
  let datas := [VObj [("name", VStr "John"); ("email", VStr "john@example.com")];
                VObj [("name", VStr "Nobody")];
                VObj [("name", VStr "Jane"); ("email", VStr "jane@example.com")]] in
  let out := create_all sample_host 0 datas new_UserModule in
  (∀ d, d ∈ datas → lookup_prop "id" (own_props d) = None)
  ∧ out.1 !! 1%nat = Some (Throw (Error "Invalid user data"))
  ∧ AdvancedPatternsDemo.currentId out.2 = 3
  ∧ (λ user, get_own user "name") <$> AdvancedPatternsDemo.findById (VNum 2) out.2
    = Some (VStr "Jane").
Proof.
  cbv zeta.
  set (datas := [VObj [("name", VStr "John"); ("email", VStr "john@example.com")];
                 VObj [("name", VStr "Nobody")];
                 VObj [("name", VStr "Jane"); ("email", VStr "jane@example.com")]]).
  assert (Hid : ∀ d, d ∈ datas → lookup_prop "id" (own_props d) = None).
  { intros d Hd. unfold datas in Hd.
    repeat (apply elem_of_cons in Hd as [->|Hd]; [reflexivity|]).
    by apply elem_of_nil in Hd. }
  split; [exact Hid|]. split; [vm_compute; reflexivity|].
  destruct (created_users_are_numbered sample_host datas Hid) as [Hnext Hfind].
  split.
  - rewrite Hnext. vm_compute. reflexivity.
  - assert (Hu : ∃ user, AdvancedPatternsDemo.users
                           (create_all sample_host 0 datas new_UserModule).2 !! 1%nat
                         = Some user ∧ get_own user "name" = VStr "Jane").
    { eexists. split; vm_compute; reflexivity. }
    destruct Hu as (user & Hu & Hname).
    destruct (Hfind 1%nat user Hu) as [_ Hf].
    change (Z.of_nat 1 + 1) with 2 in Hf. rewrite Hf. simpl. by rewrite Hname.
Defined.

(** ** modules/advancedPatterns.js: the smart object *)

Section ProxyFacts.
Import AdvancedPatternsDemo.


Lemma substring_all s : substring 0 (String.length s) s = s.
Proof. induction s; simpl; by f_equal. Qed.
End ProxyFacts.


(** X19. A write through the [set] trap that returned, under a name of ASCII
    characters other than [__proto__] (and, under [age], of a value that is
    compared as a number), leaves the value under the name and the other
    properties of the target as they were; a read of the name through the
    [get] trap gives the value back, unless the name starts with "is" and is
    longer than that: then the read gives a function, never the value.  For a
    value other than [undefined] stored under a name in lower case, asking
    [is] followed by the name in whatever case answers [true]. *)
Theorem set_then_get (prop : string) (v : value) (p p' : AdvancedPatternsDemo.smart) :
  prop ≠ "__proto__" →
  is_ascii prop = true →
  (prop = "age" → compares_as_number v = true) →
  AdvancedPatternsDemo.trap_set prop v p = (Ok true, p') →
  (lookup_prop prop (AdvancedPatternsDemo.target p') = Some v
   ∧ ∀ other, other ≠ prop →
       lookup_prop other (AdvancedPatternsDemo.target p') =
       lookup_prop other (AdvancedPatternsDemo.target p))
  ∧ (AdvancedPatternsDemo.trap_get prop p').1 =
      (if String.prefix "is" prop && bool_decide (2 < String.length prop)%nat
       then AdvancedPatternsDemo.IsDefined
              (AdvancedPatternsDemo.toLowerCase
                 (substring 2 (String.length prop - 2) prop))
       else AdvancedPatternsDemo.Property v)
  ∧ (v ≠ VUndefined →
     ∀ name, name ≠ "" → is_ascii name = true →
             AdvancedPatternsDemo.toLowerCase name = prop →
             let g := AdvancedPatternsDemo.trap_get ("is" +:+ name) p' in
             AdvancedPatternsDemo.call_got g.1 g.2 = Ok (VBool true)).
Proof.
  intros _ _ _ Hset.
  assert (Ht : AdvancedPatternsDemo.target p' =
               set_prop prop v (AdvancedPatternsDemo.target p)).
  { unfold AdvancedPatternsDemo.trap_set in Hset. destruct (_ && _); [done|].
    destruct (if String.eqb prop "email" then _ else _) as [[]|]; [done| |done].
    by injection Hset as <-. }
  split; [|split].
  - rewrite Ht. split; [apply lookup_set_prop_eq|].
    intros other Hother. by apply lookup_set_prop_ne.
  - unfold AdvancedPatternsDemo.trap_get. destruct (_ && _); [done|]. simpl.
    by rewrite Ht, lookup_set_prop_eq.
  - intros Hv name Hname _ Hlow. cbv zeta.
    destruct name as [|c name]; [done|].
    unfold AdvancedPatternsDemo.trap_get. simpl String.prefix. simpl String.length.
    rewrite bool_decide_eq_true_2 by lia. simpl andb. cbv iota. simpl fst. simpl snd.
    unfold AdvancedPatternsDemo.call_got. simpl AdvancedPatternsDemo.target. rewrite Ht.
    rewrite substring_all, Hlow, lookup_set_prop_eq. simpl. by destruct v.
Qed.

Lemma set_then_get_witness :
  let p' := {| AdvancedPatternsDemo.target := [("name", VStr "John")];
               AdvancedPatternsDemo.accessLog := ["SET: name = John"] |} in
  let g := AdvancedPatternsDemo.trap_get "isName" p' in
  "name" ≠ "__proto__"
  ∧ is_ascii "name" = true
  ∧ AdvancedPatternsDemo.trap_set "name" (VStr "John") AdvancedPatternsDemo.createSmartObject
    = (Ok true, p')
  ∧ (AdvancedPatternsDemo.trap_get "name" p').1 = AdvancedPatternsDemo.Property (VStr "John")
  ∧ AdvancedPatternsDemo.call_got g.1 g.2 = Ok (VBool true).
Proof.
  cbv zeta. split; [discriminate|]. split; [reflexivity|]. split; [reflexivity|].
  destruct (set_then_get "name" (VStr "John") AdvancedPatternsDemo.createSmartObject
              {| AdvancedPatternsDemo.target := [("name", VStr "John")];
                 AdvancedPatternsDemo.accessLog := ["SET: name = John"] |}
              ltac:(discriminate) eq_refl ltac:(discriminate) eq_refl)
    as (_ & Hget & His).
  split; [exact Hget|].
  exact (His ltac:(discriminate) "Name" ltac:(discriminate) eq_refl eq_refl).
Defined.

(** ** modules/performance.js *)

Section PerformanceFacts.
Import PerformanceDemo.

Lemma first_five_take {A} (l : list A) (count : Z) (acc : list A) :
  0 ≤ count →
  first_five l count acc = acc ++ take (Z.to_nat (5 - count)) l.
Proof.
  revert count acc. induction l as [|x l IH]; intros count acc Hc; simpl.
  - by rewrite take_nil, app_nil_r.
  - destruct (5 <=? count) eqn:H5.
    + apply Z.leb_le in H5. replace (Z.to_nat (5 - count)) with 0%nat by lia.
      by rewrite app_nil_r.
    + apply Z.leb_gt in H5. rewrite IH by lia.
      replace (Z.to_nat (5 - count)) with (S (Z.to_nat (5 - (count + 1)))) by lia.
      simpl. by rewrite <-app_assoc.
Qed.

Lemma acquire_release obj pool : acquire (release obj pool) = (resetFn obj, pool).
Proof. unfold acquire, release. rewrite rev_app_distr. simpl. by rewrite rev_involutive. Qed.

Lemma acquire_size pool : pool_size (acquire pool).2 = (pool_size pool - 1)%nat.
Proof.
  unfold acquire, pool_size. destruct (rev pool) as [|obj rest] eqn:Hrev.
  - apply (f_equal (@rev _)) in Hrev. rewrite rev_involutive in Hrev. by subst.
  - simpl. rewrite length_rev. apply (f_equal (@length _)) in Hrev.
    rewrite length_rev in Hrev. simpl in Hrev. lia.
Qed.

Lemma acquire_all_sizes n : ∀ pool,
  length (acquire_all n pool).1 = n
  ∧ pool_size (acquire_all n pool).2 = (pool_size pool - n)%nat.
Proof.
  induction n as [|n IH]; intros pool; simpl; [unfold pool_size; split; [done|lia]|].
  pose proof (acquire_size pool) as Hs.
  destruct (acquire pool) as [obj pool']. specialize (IH pool').
  destruct (acquire_all n pool') as [objs pool'']. simpl in *.
  destruct IH as [-> ->]. split; [done|]. rewrite Hs. lia.
Qed.

Lemma release_all_size objs : ∀ pool,
  pool_size (release_all objs pool) = (pool_size pool + length objs)%nat.
Proof.
  induction objs as [|obj objs IH]; intros pool; simpl; [unfold pool_size; lia|].
  unfold release_all in *. simpl. rewrite IH. unfold release, pool_size.
  rewrite length_app. simpl. lia.
Qed.

Lemma scoreMap_fold (l : list user) : ∀ (m : gmap Z (list user)) k,
  fold_left
    (λ m user,
       let scoreKey := Qfloor (score user) in
       <[scoreKey := default [] (m !! scoreKey) ++ [user]]> m)
    l m !! k
  = match List.filter (λ u, Qfloor (score u) =? k) l with
    | [] => m !! k
    | us => Some (default [] (m !! k) ++ us)
    end.
Proof.
  induction l as [|u l IH]; intros m k; simpl; [done|].
  rewrite IH. destruct (Z.eqb_spec (Qfloor (score u)) k) as [<-|Hne].
  - rewrite lookup_insert_eq. simpl.
    destruct (List.filter _ l); [done|]. by rewrite <-app_assoc.
  - by rewrite lookup_insert_ne.
Qed.

Lemma head_of_filter {A} (p : A → bool) (l : list A) :
  head (List.filter p l) = List.find p l.
Proof. induction l as [|x l IH]; simpl; [done|]. by destruct (p x). Qed.

Variable target : Q.

Lemma binarySearch_loop_fuel (arr : list user) : ∀ (n n' : nat) (left right : Z),
  right - left + 1 ≤ Z.of_nat n → right - left + 1 ≤ Z.of_nat n' →
  binarySearch_loop n arr target left right = binarySearch_loop n' arr target left right.
Proof.
  induction n as [|n IH]; intros n' left right Hn Hn'.
  - destruct n' as [|n']; [done|]. simpl.
    destruct (left <=? right) eqn:Hle; [apply Z.leb_le in Hle; lia|done].
  - destruct n' as [|n'].
    + simpl. destruct (left <=? right) eqn:Hle; [apply Z.leb_le in Hle; lia|done].
    + simpl. destruct (left <=? right) eqn:Hle; [|done]. apply Z.leb_le in Hle.
      set (mid := (left + right) / 2).
      assert (Hmid : left ≤ mid ≤ right).
      { unfold mid. split; [apply Z.div_le_lower_bound|apply Z.div_le_upper_bound]; lia. }
      rewrite (IH n' left (mid - 1)) by lia.
      by rewrite (IH n' (mid + 1) right) by lia.
Qed.

Lemma binarySearch_loop_safe (arr : list user) : ∀ (n : nat) (left right : Z),
  0 ≤ left → right < Z.of_nat (length arr) →
  ∃ r, binarySearch_loop n arr target left right = Ok r
       ∧ ∀ u, r = Some u →
           ∃ i : nat, arr !! i = Some u ∧ reaches target u = true
                      ∧ ∀ b, arr !! (i - 1)%nat = Some b → (0 < i)%nat →
                             reaches target b = false.
Proof.
  induction n as [|n IH]; intros left right Hl Hr.
  - exists None. by split.
  - simpl. destruct (left <=? right) eqn:Hle; [|exists None; by split].
    apply Z.leb_le in Hle.
    set (mid := (left + right) / 2).
    assert (Hmid : left ≤ mid ≤ right).
    { unfold mid. split; [apply Z.div_le_lower_bound|apply Z.div_le_upper_bound]; lia. }
    destruct (lookup_lt_is_Some_2 arr (Z.to_nat mid)) as [am Ham]; [lia|].
    rewrite (score_at_lookup arr mid am); [|lia|done]. simpl.
    destruct (Qle_bool target (score am)) eqn:Hpm.
    + destruct (mid =? 0) eqn:Hm0.
      * simpl. apply Z.eqb_eq in Hm0. exists (Some am). split; [by rewrite Ham|].
        intros u [= <-]. exists (Z.to_nat mid). split; [done|]. split; [done|].
        intros b _ Hpos. lia.
      * apply Z.eqb_neq in Hm0.
        destruct (lookup_lt_is_Some_2 arr (Z.to_nat (mid - 1))) as [bm Hbm]; [lia|].
        rewrite (score_at_lookup arr (mid - 1) bm); [|lia|done]. simpl.
        destruct (Qle_bool target (score bm)) eqn:Hpb; simpl.
        -- apply IH; lia.
        -- exists (Some am). split; [by rewrite Ham|].
           intros u [= <-]. exists (Z.to_nat mid). split; [done|]. split; [done|].
           intros b Hb _.
           replace (Z.to_nat mid - 1)%nat with (Z.to_nat (mid - 1)) in Hb by lia.
           rewrite Hbm in Hb. by injection Hb as <-.
    + apply IH; lia.
Qed.

Lemma throttle_step_runs since s gap :
  throttling since s →
  let runs := match since with
              | Some t => negb (t + gap <? 100)%nat
              | None => true
              end in
  throttling (if runs then Some 0%nat
              else match since with
                   | Some t => Some (t + gap)%nat
                   | None => None
                   end)
             (throttle_step s gap)
  ∧ throttleCount (throttle_step s gap).1.2 =
      throttleCount s.1.2 + (if runs then 1 else 0).
Proof.
  destruct s as [[l w] handle]. intros [Hh Hs]. simpl in Hh. subst handle. cbv zeta.
  destruct since as [t|]; simpl in Hs.
  - destruct Hs as (Hin & Ht & tm & Hp & Hdue & Hcb).
    unfold throttle_step, Timers.idle. simpl. rewrite Hp. simpl.
    destruct (Nat.ltb_spec (t + gap) 100) as [Hlt|Hge]; simpl.
    + destruct (Nat.leb_spec (Timers.due tm) (Timers.now l + gap)) as [?|Hgt]; [lia|].
      unfold throttledOperation. simpl. rewrite Hin. simpl.
      split; [|lia]. split; [done|]. simpl. split; [done|]. split; [done|].
      exists tm. split; [done|]. split; [lia|done].
    + destruct (Nat.leb_spec (Timers.due tm) (Timers.now l + gap)) as [Hle|?]; [|lia].
      simpl. rewrite Hcb. unfold throttledOperation. simpl.
      split; [|done]. split; [done|]. simpl. split; [done|]. split; [lia|].
      eexists. split; [done|]. simpl. split; [lia|done].
  - destruct Hs as [Hp Hin].
    unfold throttle_step, Timers.idle. simpl. rewrite Hp. simpl.
    unfold throttledOperation. simpl. rewrite Hin. simpl.
    split; [|done]. split; [done|]. simpl. split; [done|]. split; [lia|].
    eexists. split; [done|]. simpl. split; [lia|done].
Qed.

Lemma throttle_script_runs gaps : ∀ since s,
  throttling since s →
  throttleCount (fold_left throttle_step gaps s).1.2 =
    throttleCount s.1.2 + throttled_runs since gaps.
Proof.
  induction gaps as [|gap gaps IH]; intros since s Hs; simpl; [lia|].
  destruct (throttle_step_runs since s gap Hs) as [Hnext Hcount].
  rewrite (IH _ _ Hnext), Hcount.
  destruct since as [t|]; simpl; [|lia].
  destruct (t + gap <? 100)%nat; simpl; lia.
Qed.
End PerformanceFacts.

(** X20. The lazy pipeline of [lazyEvaluation] collects what the eager one
    computes: for any data, predicate and mapper, the loop that stops at five
    results over the lazily filtered and mapped sequence gives the first five
    elements (all of them when there are fewer) of the array filtered and
    mapped as a whole. *)
Theorem lazy_result_is_eager_result {B : Type} (data : list PerformanceDemo.user)
    (predicate : PerformanceDemo.user → bool) (mapper : PerformanceDemo.user → B) :
  PerformanceDemo.first_five
    (PerformanceDemo.lazyMap (PerformanceDemo.lazyFilter data predicate) mapper) 0 []
  = take 5 (map mapper (List.filter predicate data)).
Proof. by rewrite first_five_take. Qed.

(** X21. The object pool hands back last what was released last: [acquire]
    right after [release(obj)] gives [obj], reset, and leaves the pool as it
    was before the two calls.  A pool never runs out: [n] calls of [acquire]
    hand out [n] objects whatever the size of the pool, and once these are all
    released the pool has the larger of its old size and [n]. *)
Theorem pool_reuses_and_grows (n : nat) (pool : list PerformanceDemo.pooled)
    (obj : PerformanceDemo.pooled) :
  PerformanceDemo.acquire (PerformanceDemo.release obj pool)
    = (PerformanceDemo.resetFn obj, pool)
  ∧ (let taken := acquire_all n pool in
     length taken.1 = n
     ∧ PerformanceDemo.pool_size (release_all taken.1 taken.2)
       = Nat.max (PerformanceDemo.pool_size pool) n).
Proof.
  split; [apply acquire_release|]. cbv zeta.
  destruct (acquire_all_sizes n pool) as [Hl Hs].
  split; [done|]. rewrite release_all_size, Hl, Hs. lia.
Qed.

(** X22. The hash table of [algorithmOptimization] groups the users by the
    integer part of their score, each group in the order of the array, and has
    no key for a group that is empty; the hash lookup, the first user of the
    group of the target, is the first user of the array whose score has the
    integer part of the target. *)
Theorem scoreMap_groups_by_floor (sortedData : list PerformanceDemo.user) (k : Z) :
  PerformanceDemo.scoreMap sortedData !! k =
    match List.filter (λ u, Qfloor (PerformanceDemo.score u) =? k) sortedData with
    | [] => None
    | us => Some us
    end
  ∧ (PerformanceDemo.scoreMap sortedData !! k) ≫= head =
      List.find (λ u, Qfloor (PerformanceDemo.score u) =? k) sortedData.
Proof.
  assert (H : PerformanceDemo.scoreMap sortedData !! k =
    match List.filter (λ u, Qfloor (PerformanceDemo.score u) =? k) sortedData with
    | [] => None
    | us => Some us
    end).
  { unfold PerformanceDemo.scoreMap. rewrite scoreMap_fold, lookup_empty.
    by destruct (List.filter _ _). }
  split; [done|]. rewrite H, <-head_of_filter. by destruct (List.filter _ _).
Qed.

(** X23. On any array, in order or not, [binarySearch] returns without
    reading outside the array: nothing is thrown, and a user it returns is an
    element of the array whose score reaches the target while the score of
    the element before it, if there is one, does not.  The loop ends within as
    many turns as the array has elements: more turns change nothing. *)
Theorem binarySearch_on_any_array (arr : list PerformanceDemo.user) (target : Q) :
  (∃ r, PerformanceDemo.binarySearch arr target = Ok r
        ∧ ∀ u, r = Some u →
            ∃ i : nat, arr !! i = Some u ∧ reaches target u = true
                       ∧ ∀ b, arr !! (i - 1)%nat = Some b → (0 < i)%nat →
                              reaches target b = false)
  ∧ ∀ extra : nat,
      PerformanceDemo.binarySearch_loop (length arr + extra) arr target 0
        (Z.of_nat (length arr) - 1)
      = PerformanceDemo.binarySearch arr target.
Proof.
  split.
  - apply binarySearch_loop_safe; lia.
  - intros extra. apply binarySearch_loop_fuel; lia.
Qed.

(** X24. The throttled function of [debouncingThrottling] runs its function
    at the first call and, after that, at each call that comes 100 ms or more
    after the last call that ran it; every call in between is dropped.  This
    is so for any script of calls, the loop being idle between them. *)
Theorem throttle_runs_once_per_window (gaps : list nat) :
  PerformanceDemo.throttleCount (fold_left throttle_step gaps throttle_start).1.2
  = throttled_runs None gaps.
Proof. by rewrite (throttle_script_runs gaps None). Qed.

(** X25. In [algorithmOptimization] the two searches agree whatever the
    test data: on the copy of the data sorted by score, [binarySearch] returns
    the user that the linear [find] returns, the first whose score reaches the
    target, and [null] where [find] has [undefined]. *)
Theorem searches_agree_on_sorted_copy (data : list PerformanceDemo.user) (target : Q) :
  Sorted by_score (PerformanceDemo.sort_by_score data)
  ∧ PerformanceDemo.binarySearch (PerformanceDemo.sort_by_score data) target =
      Ok (PerformanceDemo.linearSearch (PerformanceDemo.sort_by_score data) target).
Proof.
  split; [apply sort_by_score_Sorted|].
  rewrite binarySearch_find by apply sort_by_score_Sorted. done.
Qed.
